(** * Ojoya front end: a shallow embedding of the appraisal client

    The development follows the TypeScript sources of the front end. Each
    module embeds one source unit; the file that holds the unit under
    [src/frontend/src] is given in brackets.
    - [Api]          : the data model of [types/api.ts]
                       (in [components/layout/PageLayout/PageLayout.tsx]);
    - [HistoryPage]  : [toAnalyzeResponse], the reconstruction of a display
                       result from a stored record
                       ([pages/HistoryPage/HistoryPage.tsx]);
    - [Streaming]    : [parseSSELine] and [createAnalysisStream] of
                       [lib/streaming.ts] (in [lib/firebase.ts]);
    - [UseStreamingAnalysis] : the hook of [hooks/useStreamingAnalysis.ts];
    - [ApiClient]    : [apiRequest] and [getAppraisalHistory] of
                       [lib/api.ts] (in [hooks/useStreamingAnalysis.ts]);
    - [UseAppraisalHistory] : the hook of [hooks/useAppraisalHistory.ts];
    - [ImagePicker]  : [processFile] of
                       [components/features/ImagePicker/ImagePicker.tsx].

    The pipeline orchestrator and the record builder run in the back end,
    which is not among the sources; module [Pipeline] models them from the
    specification, and every definition of it says so. *)

From Stdlib Require Import String Ascii DecimalString List ZArith NArith Lia Bool.
Import ListNotations.

Set Implicit Arguments.

(* ===================================================================== *)
(** * JavaScript values used by the client *)
(* ===================================================================== *)

Module JS.

(** A JavaScript string is a sequence of UTF-16 code units. *)
Definition jsstring := list N.

(** The code units of a literal of the source (ASCII text). *)
Definition units (s : string) : jsstring :=
  map N_of_ascii (list_ascii_of_string s).

(** [a === b] on strings. *)
Fixpoint str_eqb (a b : jsstring) : bool :=
  match a, b with
  | [], [] => true
  | x :: a', y :: b' => N.eqb x y && str_eqb a' b'
  | _, _ => false
  end.

(** JavaScript numbers that the client only copies or compares are
    modelled by integers. *)
Definition number := Z.

(** [a ?? b] : the left operand unless it is null or undefined. *)
Definition nullish (A : Type) (a : option A) (b : A) : A :=
  match a with Some v => v | None => b end.

(** [!!x] for a value that is an object when present. *)
Definition present (A : Type) (a : option A) : bool :=
  match a with Some _ => true | None => false end.

(** Outcome of evaluating an expression that may raise a [TypeError]
    (reading a property of [undefined]). *)
Inductive Exc (A : Type) : Type :=
| Ok (a : A)
| TypeError.
Arguments TypeError {A}.

Definition bind (A B : Type) (m : Exc A) (k : A -> Exc B) : Exc B :=
  match m with
  | Ok a => k a
  | TypeError => TypeError
  end.

(** [x.f] where [x] may be undefined: the read raises when it is. *)
Definition deref (A : Type) (x : option A) : Exc A :=
  match x with
  | Some v => Ok v
  | None => TypeError
  end.

Lemma str_eqb_refl (a : jsstring) : str_eqb a a = true.
Proof.
  induction a as [|x a IH]; simpl; [reflexivity|].
  now rewrite N.eqb_refl, IH.
Qed.

Lemma str_eqb_eq (a b : jsstring) : str_eqb a b = true <-> a = b.
Proof.
  split; [|intros ->; apply str_eqb_refl].
  revert b; induction a as [|x a IH]; intros [|y b]; simpl; try discriminate; auto.
  intros H; apply andb_true_iff in H as [H1 H2].
  apply N.eqb_eq in H1; subst; f_equal; auto.
Qed.

End JS.

Notation "x <- m ;; k" := (JS.bind m (fun x => k))
  (at level 61, m at next level, right associativity).

(* ===================================================================== *)
(** * types/api.ts : the data model *)
(* ===================================================================== *)

Module Api.
Import JS.

Inductive ConfidenceLevel := high | medium | low.

Record PriceInfo := {
  pi_min_price : number;
  pi_max_price : number;
  pi_currency : jsstring;
  pi_display_message : jsstring;
}.

Record ConfidenceInfo := {
  level : ConfidenceLevel;
  ci_reasoning : jsstring;
}.

(** ['mass_product' | 'unique_item' | 'unknown' | 'prohibited'] *)
Inductive Classification :=
| mass_product
| unique_item
| unknown
| prohibited.

Record AnalyzeResponse := {
  appraisal_id : option jsstring;
  ar_item_name : option jsstring;
  ar_identified_product : option jsstring;
  ar_visual_features : list jsstring;
  classification : Classification;
  ar_price : option PriceInfo;
  ar_confidence : option ConfidenceInfo;
  ar_price_factors : option (list jsstring);
  message : option jsstring;
  recommendation : option jsstring;
  ar_retry_advice : option jsstring;
}.

(** [VisionResult.category_type] *)
Inductive CategoryType :=
| cat_processable
| cat_unknown
| cat_prohibited.

Record VisionResult := {
  category_type : CategoryType;
  item_name : option jsstring;
  visual_features : list jsstring;
  v_confidence : ConfidenceLevel;
  v_reasoning : jsstring;
  retry_advice : option jsstring;
}.

(** [SearchResult.classification] *)
Inductive MarketClass :=
| mc_mass_product
| mc_unique_item.

Record SearchResult := {
  s_classification : MarketClass;
  s_confidence : ConfidenceLevel;
  s_reasoning : jsstring;
  identified_product : option jsstring;
}.

(** [PriceResult.status] *)
Inductive PriceStatus :=
| status_complete
| status_error.

Record PriceResult := {
  status : PriceStatus;
  min_price : number;
  max_price : number;
  currency : jsstring;
  p_confidence : ConfidenceLevel;
  display_message : jsstring;
  price_factors : option (list jsstring);
}.

Inductive OverallStatus :=
| completed
| incomplete
| os_error
| pending_reappraisal.

Inductive TerminationPoint :=
| vision_prohibited
| vision_unknown
| search_unique
| price_complete
| price_error.

(** The interface declares [vision] as always present; the readers of a
    document nevertheless guard every access to it ([doc.vision?.x]), so
    the field is optional here and [well_typed] records the declaration. *)
Record AppraisalDocument := {
  id : jsstring;
  created_at : jsstring;
  updated_at : jsstring;
  image_url : option jsstring;
  user_comment : option jsstring;
  vision : option VisionResult;
  search : option SearchResult;
  price : option PriceResult;
  overall_status : OverallStatus;
  termination_point : TerminationPoint;
}.

Definition well_typed (doc : AppraisalDocument) : Prop :=
  vision doc <> None.

Definition TerminationPoint_eqb (a b : TerminationPoint) : bool :=
  match a, b with
  | vision_prohibited, vision_prohibited
  | vision_unknown, vision_unknown
  | search_unique, search_unique
  | price_complete, price_complete
  | price_error, price_error => true
  | _, _ => false
  end.

End Api.

(* ===================================================================== *)
(** * pages/HistoryPage : reconstruction of a display result *)
(* ===================================================================== *)

Module HistoryPage.
Import JS Api.

(** [a ?? b] where evaluating [b] may raise; [b] is evaluated only when
    [a] is null or undefined. *)
Definition nullish_lazy (A : Type) (a : option A) (b : Exc A) : Exc A :=
  match a with
  | Some v => Ok v
  | None => b
  end.

(** [doc.search?.classification === 'unique_item'] *)
Definition search_is_unique (doc : AppraisalDocument) : bool :=
  match option_map s_classification (search doc) with
  | Some mc_unique_item => true
  | _ => false
  end.

(** The nested conditional that opens [toAnalyzeResponse]. *)
Definition derive_classification (doc : AppraisalDocument) : Classification :=
  if TerminationPoint_eqb (termination_point doc) vision_prohibited then prohibited
  else if TerminationPoint_eqb (termination_point doc) vision_unknown then unknown
  else if search_is_unique doc then unique_item
  else mass_product.

(** [toAnalyzeResponse]. Every property read of the source is kept: a read
    through [?.] is an [option_map], a plain read of [doc.price.x] or
    [doc.vision.x] is a [deref], which raises when the object is missing. *)
Definition toAnalyzeResponse (doc : AppraisalDocument) : Exc AnalyzeResponse :=
  let classification := derive_classification doc in
  price_info <-
    (if present (price doc) then
       p1 <- deref (price doc) ;;
       p2 <- deref (price doc) ;;
       p3 <- deref (price doc) ;;
       p4 <- deref (price doc) ;;
       Ok (Some {| pi_min_price := min_price p1;
                   pi_max_price := max_price p2;
                   pi_currency := currency p3;
                   pi_display_message := display_message p4 |})
     else Ok None) ;;
  confidence <-
    (if present (vision doc) then
       lvl <- nullish_lazy
                (match option_map p_confidence (price doc) with
                 | Some l => Some l
                 | None => option_map s_confidence (search doc)
                 end)
                (v <- deref (vision doc) ;; Ok (v_confidence v)) ;;
       rsn <- nullish_lazy
                (option_map s_reasoning (search doc))
                (v <- deref (vision doc) ;; Ok (v_reasoning v)) ;;
       Ok (Some {| level := lvl; ci_reasoning := rsn |})
     else Ok None) ;;
  Ok {| appraisal_id := Some (id doc);
        ar_item_name :=
          match vision doc with Some v => item_name v | None => None end;
        ar_identified_product :=
          match search doc with Some s => identified_product s | None => None end;
        ar_visual_features := nullish (option_map visual_features (vision doc)) [];
        classification := classification;
        ar_price := price_info;
        ar_confidence := confidence;
        ar_price_factors :=
          match price doc with Some p => price_factors p | None => None end;
        message := None;
        recommendation := None;
        ar_retry_advice :=
          match vision doc with Some v => retry_advice v | None => None end |}.

(** Reading a record never raises, whatever fields it lacks. *)
Lemma toAnalyzeResponse_total (doc : AppraisalDocument) :
  exists r, toAnalyzeResponse doc = Ok r.
Proof.
  unfold toAnalyzeResponse.
  destruct (price doc) as [p|], (vision doc) as [v|], (search doc) as [s|];
    simpl; eexists; reflexivity.
Qed.

(** The classification of the result is the one the conditional derives. *)
Lemma toAnalyzeResponse_classification (doc : AppraisalDocument) (r : AnalyzeResponse) :
  toAnalyzeResponse doc = Ok r -> classification r = derive_classification doc.
Proof.
  unfold toAnalyzeResponse.
  destruct (price doc) as [p|], (vision doc) as [v|], (search doc) as [s|];
    simpl; intros H; inversion H; reflexivity.
Qed.

End HistoryPage.

(* ===================================================================== *)
(** * The pipeline orchestrator and the record builder *)
(* ===================================================================== *)

Module Pipeline.
Import JS Api.

(** Modelled from the spec: the stage identities, in their fixed order
    (section 3, StageName). The orchestrator is back-end code that is not
    among the sources. *)
Inductive StageName :=
| stage_vision
| stage_search
| stage_price.

(** Modelled from the spec: the routing decision of a stage (section 3). *)
Inductive Decision :=
| continue
| terminate.

(** Modelled from the spec: the reason codes of a terminal decision
    (section 3, StageResult.terminationReason). *)
Inductive TerminationReason :=
| reason_prohibited
| reason_unidentifiable
| reason_unique_item
| reason_priced
| reason_price_failed.

(** Modelled from the spec: the stage-specific payload, one variant per
    stage (section 9); the payloads are the result types of [types/api.ts]. *)
Inductive Payload :=
| VisionPayload (v : VisionResult)
| SearchPayload (s : SearchResult)
| PricePayload (p : PriceResult).

(** Modelled from the spec: the outcome of one stage execution (section 3). *)
Record StageResult := {
  stage : StageName;
  decision : Decision;
  terminationReason : option TerminationReason;
  payload : Payload;
}.

Definition fixed_order : list StageName :=
  [stage_vision; stage_search; stage_price].

Definition StageName_eqb (a b : StageName) : bool :=
  match a, b with
  | stage_vision, stage_vision
  | stage_search, stage_search
  | stage_price, stage_price => true
  | _, _ => false
  end.

(** Modelled from the spec: "a price StageResult exists with status
    success" (section 4.2, rule 4). *)
Definition is_successful_price (r : StageResult) : bool :=
  match stage r, payload r with
  | stage_price, PricePayload p =>
      match status p with status_complete => true | status_error => false end
  | _, _ => false
  end.

(** Modelled from the spec: the reason of the last StageResult. *)
Definition last_reason (rs : list StageResult) : option TerminationReason :=
  match rev rs with
  | [] => None
  | r :: _ => terminationReason r
  end.

(** Modelled from the spec: the fixed priority rule of section 4.2,
    evaluated over a completed StageResult sequence. *)
Definition classify (rs : list StageResult) : Classification :=
  match last_reason rs with
  | Some reason_prohibited => prohibited
  | Some reason_unidentifiable => unknown
  | Some reason_unique_item => unique_item
  | _ => if existsb is_successful_price rs then mass_product else unknown
  end.

(** Modelled from the spec: the TerminationPoint names the stage and the
    reason that ended the run; its five values are those of
    [types/api.ts]. *)
Definition point_of_reason (r : TerminationReason) : TerminationPoint :=
  match r with
  | reason_prohibited => vision_prohibited
  | reason_unidentifiable => vision_unknown
  | reason_unique_item => search_unique
  | reason_priced => price_complete
  | reason_price_failed => price_error
  end.

(** Modelled from the spec: the aggregate of a run (section 3,
    PipelineOutcome). *)
Record PipelineOutcome := {
  results : list StageResult;
  outcome_classification : Classification;
  outcome_termination : TerminationPoint;
}.

(** Modelled from the spec: the aggregate exists once the sequence ends in
    a terminal StageResult. *)
Definition outcome_of (rs : list StageResult) : option PipelineOutcome :=
  match last_reason rs with
  | Some r => Some {| results := rs;
                      outcome_classification := classify rs;
                      outcome_termination := point_of_reason r |}
  | None => None
  end.

Section Orchestrator.

(** The request, and the three stage back ends behind their interfaces
    (section 6). A back-end failure is already mapped into the result:
    [cat_unknown] for vision, [status_error] for price. *)
Variable PipelineRequest : Type.
Variable classifyImage : PipelineRequest -> VisionResult.
Variable classifyMarket : PipelineRequest -> list StageResult -> SearchResult.
Variable lookupPriceRange : PipelineRequest -> list StageResult -> PriceResult.

(** Modelled from the spec: the stage contract of section 4.1. *)
Definition execute (s : StageName) (req : PipelineRequest)
    (context : list StageResult) : StageResult :=
  match s with
  | stage_vision =>
      let v := classifyImage req in
      match category_type v with
      | cat_processable =>
          {| stage := stage_vision; decision := continue;
             terminationReason := None; payload := VisionPayload v |}
      | cat_unknown =>
          {| stage := stage_vision; decision := terminate;
             terminationReason := Some reason_unidentifiable;
             payload := VisionPayload v |}
      | cat_prohibited =>
          {| stage := stage_vision; decision := terminate;
             terminationReason := Some reason_prohibited;
             payload := VisionPayload v |}
      end
  | stage_search =>
      let s := classifyMarket req context in
      match s_classification s with
      | mc_mass_product =>
          {| stage := stage_search; decision := continue;
             terminationReason := None; payload := SearchPayload s |}
      | mc_unique_item =>
          {| stage := stage_search; decision := terminate;
             terminationReason := Some reason_unique_item;
             payload := SearchPayload s |}
      end
  | stage_price =>
      let p := lookupPriceRange req context in
      {| stage := stage_price; decision := terminate;
         terminationReason :=
           Some (match status p with
                 | status_complete => reason_priced
                 | status_error => reason_price_failed
                 end);
         payload := PricePayload p |}
  end.

(** Modelled from the spec: the orchestrator loop of section 4.2. It walks
    the remaining stages in order, appends each StageResult, and stops at
    the first [terminate]. *)
Fixpoint iterate (stages : list StageName) (req : PipelineRequest)
    (acc : list StageResult) : list StageResult :=
  match stages with
  | [] => acc
  | s :: rest =>
      let r := execute s req acc in
      match decision r with
      | continue => iterate rest req (acc ++ [r])
      | terminate => acc ++ [r]
      end
  end.

Definition run (req : PipelineRequest) : list StageResult :=
  iterate fixed_order req [].

End Orchestrator.

(** What a record carries besides the stage results. *)
Record RecordMeta := {
  meta_id : jsstring;
  meta_created_at : jsstring;
  meta_updated_at : jsstring;
  meta_image_url : option jsstring;
  meta_user_comment : option jsstring;
  meta_overall_status : OverallStatus;
}.

Definition vision_of (rs : list StageResult) : option VisionResult :=
  match find (fun r => StageName_eqb (stage r) stage_vision) rs with
  | Some {| payload := VisionPayload v |} => Some v
  | _ => None
  end.

Definition search_of (rs : list StageResult) : option SearchResult :=
  match find (fun r => StageName_eqb (stage r) stage_search) rs with
  | Some {| payload := SearchPayload s |} => Some s
  | _ => None
  end.

Definition price_of (rs : list StageResult) : option PriceResult :=
  match find (fun r => StageName_eqb (stage r) stage_price) rs with
  | Some {| payload := PricePayload p |} => Some p
  | _ => None
  end.

(** Modelled from the spec: [toRecord] of section 4.4. It packages the
    payload of every stage that ran and the reason code of the terminal
    StageResult; the derived Classification is not stored. *)
Definition toRecord (meta : RecordMeta) (o : PipelineOutcome) : AppraisalDocument :=
  {| id := meta_id meta;
     created_at := meta_created_at meta;
     updated_at := meta_updated_at meta;
     image_url := meta_image_url meta;
     user_comment := meta_user_comment meta;
     vision := vision_of (results o);
     search := search_of (results o);
     price := price_of (results o);
     overall_status := meta_overall_status meta;
     termination_point := outcome_termination o |}.

(** Modelled from the spec: the StageResult sequence a stored record
    stands for. Each stored payload is one StageResult, in the fixed
    order, with the decision its payload implies under section 4.1. *)
Definition stages_of_record (doc : AppraisalDocument) : list StageResult :=
  (match vision doc with
   | Some v =>
       [match category_type v with
        | cat_processable =>
            {| stage := stage_vision; decision := continue;
               terminationReason := None; payload := VisionPayload v |}
        | cat_unknown =>
            {| stage := stage_vision; decision := terminate;
               terminationReason := Some reason_unidentifiable;
               payload := VisionPayload v |}
        | cat_prohibited =>
            {| stage := stage_vision; decision := terminate;
               terminationReason := Some reason_prohibited;
               payload := VisionPayload v |}
        end]
   | None => []
   end)
  ++
  (match search doc with
   | Some s =>
       [match s_classification s with
        | mc_mass_product =>
            {| stage := stage_search; decision := continue;
               terminationReason := None; payload := SearchPayload s |}
        | mc_unique_item =>
            {| stage := stage_search; decision := terminate;
               terminationReason := Some reason_unique_item;
               payload := SearchPayload s |}
        end]
   | None => []
   end)
  ++
  (match price doc with
   | Some p =>
       [{| stage := stage_price; decision := terminate;
           terminationReason :=
             Some (match status p with
                   | status_complete => reason_priced
                   | status_error => reason_price_failed
                   end);
           payload := PricePayload p |}]
   | None => []
   end).

End Pipeline.

(* ===================================================================== *)
(** * Stored records against the pipeline *)
(* ===================================================================== *)

Module RecordBuilder.
Import JS Api Pipeline HistoryPage.

(** ** Sample data *)

Definition sample_vision : VisionResult :=
  {| category_type := cat_processable;
     item_name := Some (units "Nintendo Switch");
     visual_features := [units "console"];
     v_confidence := high;
     v_reasoning := units "logo visible";
     retry_advice := None |}.

Definition sample_search : SearchResult :=
  {| s_classification := mc_mass_product;
     s_confidence := medium;
     s_reasoning := units "sold widely";
     identified_product := Some (units "Nintendo Switch HAC-001") |}.

Definition failed_price : PriceResult :=
  {| status := status_error;
     min_price := 0%Z;
     max_price := 0%Z;
     currency := units "JPY";
     p_confidence := low;
     display_message := units "no listings found";
     price_factors := None |}.

Definition sample_meta : RecordMeta :=
  {| meta_id := units "a1";
     meta_created_at := units "2025-01-01T00:00:00Z";
     meta_updated_at := units "2025-01-01T00:00:05Z";
     meta_image_url := None;
     meta_user_comment := None;
     meta_overall_status := os_error |}.

(** A run in which vision and search continue and the price lookup fails. *)
Definition failed_price_run : list StageResult :=
  run (fun _ : unit => sample_vision)
      (fun _ _ => sample_search)
      (fun _ _ => failed_price) tt.

(** The record of that run, as stored. *)
Definition failed_price_record : AppraisalDocument :=
  {| id := units "a1";
     created_at := units "2025-01-01T00:00:00Z";
     updated_at := units "2025-01-01T00:00:05Z";
     image_url := None;
     user_comment := None;
     vision := Some sample_vision;
     search := Some sample_search;
     price := Some failed_price;
     overall_status := os_error;
     termination_point := price_error |}.

(** A record that implies a mass product but has no price result. *)
Definition priceless_record : AppraisalDocument :=
  {| id := units "b2";
     created_at := units "2025-02-01T00:00:00Z";
     updated_at := units "2025-02-01T00:00:05Z";
     image_url := None;
     user_comment := None;
     vision := Some sample_vision;
     search := Some sample_search;
     price := None;
     overall_status := incomplete;
     termination_point := price_error |}.

(** ** The shape of a run *)

Section Runs.

Variable PipelineRequest : Type.
Variable classifyImage : PipelineRequest -> VisionResult.
Variable classifyMarket : PipelineRequest -> list StageResult -> SearchResult.
Variable lookupPriceRange : PipelineRequest -> list StageResult -> PriceResult.

Local Abbreviation run' := (run classifyImage classifyMarket lookupPriceRange).
Local Abbreviation exec := (execute classifyImage classifyMarket lookupPriceRange).

(** The three shapes a run can take. *)
Inductive run_shape (req : PipelineRequest) : list StageResult -> Prop :=
| shape_vision :
    decision (exec stage_vision req []) = terminate ->
    run_shape req [exec stage_vision req []]
| shape_search :
    let r1 := exec stage_vision req [] in
    let r2 := exec stage_search req [r1] in
    decision r1 = continue ->
    decision r2 = terminate ->
    run_shape req [r1; r2]
| shape_price :
    let r1 := exec stage_vision req [] in
    let r2 := exec stage_search req [r1] in
    let r3 := exec stage_price req [r1; r2] in
    decision r1 = continue ->
    decision r2 = continue ->
    run_shape req [r1; r2; r3].

Lemma run_has_shape (req : PipelineRequest) : run_shape req (run' req).
Proof.
  unfold run, fixed_order; cbn [iterate app].
  destruct (decision (exec stage_vision req [])) eqn:E1; cbn [app].
  - destruct (decision (exec stage_search req [exec stage_vision req []])) eqn:E2;
      cbn [app].
    + change (decision (exec stage_price req
                [exec stage_vision req [];
                 exec stage_search req [exec stage_vision req []]]))
        with terminate.
      apply shape_price; assumption.
    + apply shape_search; assumption.
  - apply shape_vision; assumption.
Qed.

Lemma execute_stage (s : StageName) (req : PipelineRequest) (ctx : list StageResult) :
  stage (exec s req ctx) = s.
Proof.
  destruct s; simpl.
  - destruct (category_type (classifyImage req)); reflexivity.
  - destruct (s_classification (classifyMarket req ctx)); reflexivity.
  - reflexivity.
Qed.

Lemma execute_terminal_reason (s : StageName) (req : PipelineRequest)
    (ctx : list StageResult) :
  decision (exec s req ctx) = terminate ->
  exists r, terminationReason (exec s req ctx) = Some r.
Proof.
  destruct s; simpl.
  - destruct (category_type (classifyImage req)); simpl;
      intros H; try discriminate; eexists; reflexivity.
  - destruct (s_classification (classifyMarket req ctx)); simpl;
      intros H; try discriminate; eexists; reflexivity.
  - intros _; eexists; reflexivity.
Qed.

Lemma execute_price_terminates (req : PipelineRequest) (ctx : list StageResult) :
  decision (exec stage_price req ctx) = terminate.
Proof. reflexivity. Qed.

(** Case analysis on what the back ends answered for a request. *)
Ltac run_cases req :=
  unfold run, fixed_order; cbn [iterate app]; cbn [execute];
  destruct (category_type (classifyImage req)) eqn:?Ecat;
    cbn [decision app execute];
  [ match goal with
    | |- context [s_classification (classifyMarket req ?ctx)] =>
        destruct (s_classification (classifyMarket req ctx)) eqn:?Ecls;
          cbn [decision app execute]
    end
  | | ].

(** Every run ends in a terminal StageResult, so its aggregate exists. *)
Lemma run_outcome (req : PipelineRequest) :
  exists o, outcome_of (run' req) = Some o /\ results o = run' req.
Proof.
  unfold outcome_of, last_reason.
  run_cases req; simpl; eexists; split; reflexivity.
Qed.

(** The stored form of a run is the run itself: [toRecord] loses nothing. *)
Lemma stages_of_record_toRecord (meta : RecordMeta) (req : PipelineRequest)
    (o : PipelineOutcome) :
  outcome_of (run' req) = Some o ->
  stages_of_record (toRecord meta o) = run' req.
Proof.
  intros Ho.
  assert (Hr : results o = run' req).
  { unfold outcome_of in Ho. destruct (last_reason (run' req)); [|discriminate].
    inversion Ho; reflexivity. }
  clear Ho. unfold stages_of_record, toRecord; cbn [vision search price].
  rewrite Hr; clear Hr.
  unfold vision_of, search_of, price_of.
  run_cases req; simpl; rewrite ?Ecat, ?Ecls; reflexivity.
Qed.

(** For a run that did not end in a failed price lookup, reconstruction
    gives back the classification and the termination point of the run. *)
Lemma roundtrip_unless_price_failed (meta : RecordMeta) (req : PipelineRequest)
    (o : PipelineOutcome) :
  outcome_of (run' req) = Some o ->
  outcome_termination o <> price_error ->
  exists r, toAnalyzeResponse (toRecord meta o) = Ok r /\
            classification r = outcome_classification o /\
            termination_point (toRecord meta o) = outcome_termination o.
Proof.
  intros Ho Hne.
  destruct (toAnalyzeResponse_total (toRecord meta o)) as [r Hr].
  exists r; split; [exact Hr|]; split; [|reflexivity].
  rewrite (toAnalyzeResponse_classification _ Hr); clear Hr r.
  unfold derive_classification, search_is_unique, toRecord;
    cbn [termination_point search].
  revert Ho Hne. unfold outcome_of, last_reason, classify, last_reason.
  unfold search_of.
  run_cases req; simpl.
  - destruct (status (lookupPriceRange req _)) eqn:Est; simpl;
      intros Ho Hne; inversion Ho; subst; clear Ho; simpl in *;
      rewrite ?Ecls, ?Est; unfold is_successful_price; simpl;
      rewrite ?Est; simpl; congruence.
  - intros Ho Hne; inversion Ho; subst; clear Ho; simpl in *;
      rewrite ?Ecls; reflexivity.
  - intros Ho Hne; inversion Ho; subst; reflexivity.
  - intros Ho Hne; inversion Ho; subst; reflexivity.
Qed.

(** A run that ended in a failed price lookup is the one case in which
    reconstruction departs from the run: it answers [mass_product] where
    the run was classified [unknown]. *)
Lemma roundtrip_when_price_failed (meta : RecordMeta) (req : PipelineRequest)
    (o : PipelineOutcome) :
  outcome_of (run' req) = Some o ->
  outcome_termination o = price_error ->
  outcome_classification o = unknown /\
  derive_classification (toRecord meta o) = mass_product.
Proof.
  unfold derive_classification, search_is_unique, toRecord;
    cbn [termination_point search].
  unfold outcome_of, last_reason, classify, last_reason, search_of.
  run_cases req; simpl.
  - destruct (status (lookupPriceRange req _)) eqn:Est; simpl;
      intros Ho Hp; inversion Ho; subst; clear Ho; simpl in *;
      try discriminate;
      unfold is_successful_price; simpl; rewrite ?Ecls, ?Est; simpl; auto.
  - intros Ho Hp; inversion Ho; subst; discriminate.
  - intros Ho Hp; inversion Ho; subst; discriminate.
  - intros Ho Hp; inversion Ho; subst; discriminate.
Qed.

(** C6. The persisted StageResult sequence of every run has one, two or
    three entries, in the fixed order vision, search, price without gaps:
    the record has a vision result; it has a search result only if vision
    continued; it has a price result only if search ran and continued; a
    terminal decision is always the last entry, and the last entry is
    always terminal. *)
Theorem persisted_stage_sequence (meta : RecordMeta) (req : PipelineRequest) :
  exists o,
    outcome_of (run' req) = Some o /\
    let doc := toRecord meta o in
    let rs := stages_of_record doc in
    rs = run' req /\
    (length rs = 1 \/ length rs = 2 \/ length rs = 3) /\
    map stage rs = firstn (length rs) fixed_order /\
    (exists v, vision doc = Some v) /\
    (search doc <> None ->
       exists v, vision doc = Some v /\ category_type v = cat_processable) /\
    (price doc <> None ->
       exists s, search doc = Some s /\ s_classification s = mc_mass_product) /\
    (forall pre r post,
       rs = pre ++ r :: post -> decision r = terminate -> post = []) /\
    (forall pre r, rs = pre ++ [r] -> decision r = terminate).
Proof.
  destruct (run_outcome req) as [o [Ho Hres]].
  exists o; split; [exact Ho|].
  cbv zeta. rewrite (stages_of_record_toRecord meta req Ho).
  split; [reflexivity|].
  unfold toRecord; cbn [vision search price]; rewrite Hres; clear Ho Hres o.
  unfold vision_of, search_of, price_of.
  run_cases req; simpl;
    (split; [auto|]); (split; [reflexivity|]);
    (split; [eexists; reflexivity|]);
    (split; [intros H; first [congruence | eexists; split; [reflexivity|assumption]]|]);
    (split; [intros H; first [congruence | eexists; split; [reflexivity|assumption]]|]);
    (split;
     [ intros pre r post E Hd;
       destruct pre as [|x1 [|x2 [|x3 pre]]]; simpl in E;
       inversion E; subst; simpl in Hd; try discriminate; try reflexivity;
       destruct pre; discriminate
     | intros pre r E;
       destruct pre as [|x1 [|x2 [|x3 pre]]]; simpl in E;
       inversion E; subst; try reflexivity;
       destruct pre; discriminate ]).
Qed.

End Runs.

(** C6, an instance: the run whose price lookup failed is stored with all
    three results, in order, and its price result comes with a
    mass-product search result. *)
Lemma persisted_sequence_of_failed_price_run :
  price failed_price_record <> None /\
  exists o,
    outcome_of failed_price_run = Some o /\
    toRecord sample_meta o = failed_price_record /\
    stages_of_record (toRecord sample_meta o) = failed_price_run /\
    List.length (stages_of_record (toRecord sample_meta o)) = 3%nat /\
    exists s, search (toRecord sample_meta o) = Some s /\
              s_classification s = mc_mass_product.
Proof.
  split; [discriminate|].
  destruct (@persisted_stage_sequence unit (fun _ => sample_vision)
              (fun _ _ => sample_search) (fun _ _ => failed_price)
              sample_meta tt)
    as [o [Ho [Hrs [Hlen [_ [_ [_ [Hprice _]]]]]]]].
  exists o. split; [exact Ho|].
  assert (Hdoc : toRecord sample_meta o = failed_price_record).
  { vm_compute in Ho. inversion Ho. reflexivity. }
  split; [exact Hdoc|]. split; [exact Hrs|].
  split; [rewrite Hrs; reflexivity|].
  apply Hprice. rewrite Hdoc. discriminate.
Defined.

(** C1. A run whose price lookup failed is classified [unknown] by the
    priority rule and stored with termination point [price_error]; read
    back through [toAnalyzeResponse] the record is classified
    [mass_product], so the round trip does not reproduce the
    classification. *)
Theorem price_failure_reconstructed_as_mass_product :
  outcome_of failed_price_run
    = Some {| results := failed_price_run;
              outcome_classification := unknown;
              outcome_termination := price_error |} /\
  toRecord sample_meta
    {| results := failed_price_run;
       outcome_classification := unknown;
       outcome_termination := price_error |} = failed_price_record /\
  classify (stages_of_record failed_price_record) = unknown /\
  option_map classification
    (match toAnalyzeResponse failed_price_record with
     | Ok r => Some r
     | TypeError => None
     end) = Some mass_product.
Proof. repeat split; reflexivity. Qed.

(** C2. A well-typed record with a processable vision result and a
    mass-product search result but no price result is read without
    raising, and is classified [mass_product], not [unknown]; the priority
    rule over its stored stages gives [unknown]. *)
Theorem priceless_record_reconstructed_as_mass_product :
  well_typed priceless_record /\
  price priceless_record = None /\
  classify (stages_of_record priceless_record) = unknown /\
  exists r, toAnalyzeResponse priceless_record = Ok r /\
            classification r = mass_product.
Proof.
  split; [unfold well_typed; simpl; discriminate|].
  split; [reflexivity|]. split; [reflexivity|].
  eexists; split; reflexivity.
Qed.

End RecordBuilder.

(* ===================================================================== *)
(** * JSON values and [JSON.parse] *)
(* ===================================================================== *)

Module Json.
Import JS.

Local Set Warnings "-register-all".

Local Open Scope N_scope.

(** A value produced by [JSON.parse]. A number is kept as the decimal
    [m * 10^e] that its literal denotes; an object keeps its members in
    source order. *)
Inductive JSON :=
| JNull
| JBool (b : bool)
| JNumber (m e : Z)
| JString (s : jsstring)
| JArray (items : list JSON)
| JObject (members : list (jsstring * JSON)).

(** The double nearest to [m * 10^e] is zero: the decimal is zero or its
    magnitude is at most [2^-1075], half of the least positive double. *)
Definition rounds_to_zero (m e : Z) : bool :=
  (m =? 0)%Z || ((e <? 0)%Z && (Z.abs m * 2 ^ 1075 <=? 10 ^ (- e))%Z).

(** [!!v] *)
Definition truthy (v : JSON) : bool :=
  match v with
  | JNull => false
  | JBool b => b
  | JNumber m e => negb (rounds_to_zero m e)
  | JString s => match s with [] => false | _ => true end
  | JArray _ => true
  | JObject _ => true
  end.

(** The member an object ends up with for a key: [JSON.parse] lets a later
    duplicate overwrite an earlier one. *)
Fixpoint lookup (key : jsstring) (members : list (jsstring * JSON)) : option JSON :=
  match members with
  | [] => None
  | (k, v) :: rest =>
      match lookup key rest with
      | Some v' => Some v'
      | None => if str_eqb k key then Some v else None
      end
  end.

(** [v.key] for one of the keys the client reads ([type], [result],
    [message], [detail]): none of them is inherited by a string, a number,
    a boolean or an array, so only an object can have it. [None] is
    [undefined]; reading a property of [null] raises. *)
Definition get (v : JSON) (key : jsstring) : Exc (option JSON) :=
  match v with
  | JNull => TypeError
  | JObject members => Ok (lookup key members)
  | _ => Ok None
  end.

(** [v.key] where [v] is known not to be [null]. *)
Definition prop (v : JSON) (key : jsstring) : option JSON :=
  match v with
  | JObject members => lookup key members
  | _ => None
  end.

(** [x === 'literal'] for a property value [x]. *)
Definition is_string (x : option JSON) (literal : jsstring) : bool :=
  match x with
  | Some (JString s) => str_eqb s literal
  | _ => false
  end.

(** ** A model of [JSON.parse] *)

(** JSON white space: tab, line feed, carriage return, space. *)
Definition is_json_ws (c : N) : bool :=
  (c =? 9) || (c =? 10) || (c =? 13) || (c =? 32).

Fixpoint skip_ws (s : jsstring) : jsstring :=
  match s with
  | c :: rest => if is_json_ws c then skip_ws rest else s
  | [] => []
  end.

Fixpoint strip_prefix (p s : jsstring) : option jsstring :=
  match p, s with
  | [], _ => Some s
  | x :: p', y :: s' => if x =? y then strip_prefix p' s' else None
  | _ :: _, [] => None
  end.

Definition is_digit (c : N) : bool := (48 <=? c) && (c <=? 57).

Definition hex_value (c : N) : option N :=
  if (48 <=? c) && (c <=? 57) then Some (c - 48)
  else if (65 <=? c) && (c <=? 70) then Some (c - 55)
  else if (97 <=? c) && (c <=? 102) then Some (c - 87)
  else None.

(** The character a two-character escape stands for. *)
Definition simple_escape (e : N) : option N :=
  if e =? 34 then Some 34
  else if e =? 92 then Some 92
  else if e =? 47 then Some 47
  else if e =? 98 then Some 8
  else if e =? 102 then Some 12
  else if e =? 110 then Some 10
  else if e =? 114 then Some 13
  else if e =? 116 then Some 9
  else None.

(** The digits at the head of [s], their count, the number they spell when
    appended to [acc], and the rest. *)
Fixpoint take_digits (s : jsstring) (acc : Z) (count : Z) : Z * Z * jsstring :=
  match s with
  | c :: rest =>
      if is_digit c
      then take_digits rest (acc * 10 + Z.of_N (c - 48))%Z (count + 1)%Z
      else (acc, count, s)
  | [] => (acc, count, [])
  end.

(** An optional sign at the head of [s]: whether it is a minus, and the
    rest. A plus is taken only where [plus] allows it. *)
Definition take_sign (plus : bool) (s : jsstring) : bool * jsstring :=
  match s with
  | c :: rest =>
      if c =? 45 then (true, rest)
      else if plus && (c =? 43) then (false, rest)
      else (false, s)
  | [] => (false, s)
  end.

(** The fraction of a number literal: a point and one or more digits, or
    nothing. Gives the mantissa with the digits appended, their count, and
    the rest. *)
Definition take_fraction (s : jsstring) (int_part : Z) : option (Z * Z * jsstring) :=
  match s with
  | c :: after_point =>
      if c =? 46 then
        let '(mant, count, rest) := take_digits after_point int_part 0 in
        if (count =? 0)%Z then None else Some (mant, count, rest)
      else Some (int_part, 0%Z, s)
  | [] => Some (int_part, 0%Z, s)
  end.

(** The exponent of a number literal: [e] or [E], an optional sign and one
    or more digits, or nothing. *)
Definition take_exponent (s : jsstring) : option (Z * jsstring) :=
  match s with
  | c :: after_e =>
      if (c =? 101) || (c =? 69) then
        let (negative, digits) := take_sign true after_e in
        let '(ev, count, rest) := take_digits digits 0 0 in
        if (count =? 0)%Z then None
        else Some ((if negative then - ev else ev)%Z, rest)
      else Some (0%Z, s)
  | [] => Some (0%Z, s)
  end.

(** A number literal: an optional minus sign; a zero, or a non-zero digit
    and further digits; an optional fraction; an optional exponent. *)
Definition parse_number (s : jsstring) : option (JSON * jsstring) :=
  let (negative, s1) := take_sign false s in
  match s1 with
  | [] => None
  | d :: after_first =>
      if negb (is_digit d) then None else
      let '(int_part, _, s2) :=
        if d =? 48 then (0%Z, 1%Z, after_first) else take_digits s1 0 0 in
      match take_fraction s2 int_part with
      | None => None
      | Some (mant, scale, s3) =>
          match take_exponent s3 with
          | None => None
          | Some (ev, rest) =>
              Some (JNumber (if negative then - mant else mant)%Z (ev - scale)%Z,
                    rest)
          end
      end
  end.

(** The body of a string literal, after its opening quote. *)
Fixpoint parse_string_body (s : jsstring) (acc : jsstring) : option (jsstring * jsstring) :=
  match s with
  | [] => None
  | c :: rest =>
      if c =? 34 then Some (rev acc, rest)
      else if c =? 92 then
        match rest with
        | [] => None
        | e :: rest1 =>
            if e =? 117 then
              match rest1 with
              | h1 :: h2 :: h3 :: h4 :: rest2 =>
                  match hex_value h1, hex_value h2, hex_value h3, hex_value h4 with
                  | Some a, Some b, Some c', Some d =>
                      parse_string_body rest2
                        (((a * 16 + b) * 16 + c') * 16 + d :: acc)
                  | _, _, _, _ => None
                  end
              | _ => None
              end
            else
              match simple_escape e with
              | Some x => parse_string_body rest1 (x :: acc)
              | None => None
              end
        end
      else if c <? 32 then None
      else parse_string_body rest (c :: acc)
  end.

(** One of the three literal names. *)
Definition parse_literal (s : jsstring) : option (JSON * jsstring) :=
  match strip_prefix (units "null") s with
  | Some r => Some (JNull, r)
  | None =>
      match strip_prefix (units "true") s with
      | Some r => Some (JBool true, r)
      | None =>
          match strip_prefix (units "false") s with
          | Some r => Some (JBool false, r)
          | None => None
          end
      end
  end.

Section Steps.

(** The parsers one level down. *)
Variable value : jsstring -> option (JSON * jsstring).
Variable elements : jsstring -> option (list JSON * jsstring).
Variable members : jsstring -> option (list (jsstring * JSON) * jsstring).

(** One value at the head of the text. *)
Definition value_step (s : jsstring) : option (JSON * jsstring) :=
  match skip_ws s with
  | [] => None
  | c :: rest =>
      if c =? 34 then
        match parse_string_body rest [] with
        | Some (str, r) => Some (JString str, r)
        | None => None
        end
      else if c =? 91 then
        match skip_ws rest with
        | c1 :: r =>
            if c1 =? 93 then Some (JArray [], r)
            else
              match elements rest with
              | Some (items, r') => Some (JArray items, r')
              | None => None
              end
        | [] => None
        end
      else if c =? 123 then
        match skip_ws rest with
        | c1 :: r =>
            if c1 =? 125 then Some (JObject [], r)
            else
              match members rest with
              | Some (ms, r') => Some (JObject ms, r')
              | None => None
              end
        | [] => None
        end
      else if (c =? 45) || is_digit c then parse_number (c :: rest)
      else parse_literal (c :: rest)
  end.

(** The elements of an array, up to and including its closing bracket. *)
Definition elements_step (s : jsstring) : option (list JSON * jsstring) :=
  match value s with
  | Some (v, r) =>
      match skip_ws r with
      | c :: r' =>
          if c =? 44 then
            match elements r' with
            | Some (vs, r'') => Some (v :: vs, r'')
            | None => None
            end
          else if c =? 93 then Some ([v], r')
          else None
      | [] => None
      end
  | None => None
  end.

(** The members of an object, up to and including its closing brace. *)
Definition members_step (s : jsstring)
    : option (list (jsstring * JSON) * jsstring) :=
  match skip_ws s with
  | c0 :: r0 =>
      if c0 =? 34 then
        match parse_string_body r0 [] with
        | Some (key, r1) =>
            match skip_ws r1 with
            | c1 :: r2 =>
                if c1 =? 58 then
                  match value r2 with
                  | Some (v, r3) =>
                      match skip_ws r3 with
                      | c2 :: r4 =>
                          if c2 =? 44 then
                            match members r4 with
                            | Some (ms, r5) => Some ((key, v) :: ms, r5)
                            | None => None
                            end
                          else if c2 =? 125 then Some ([(key, v)], r4)
                          else None
                      | [] => None
                      end
                  | None => None
                  end
                else None
            | [] => None
            end
        | None => None
        end
      else None
  | [] => None
  end.

End Steps.

(** The three parsers, by recursion on a bound of their nesting. *)
Fixpoint parse_value (fuel : nat) (s : jsstring) : option (JSON * jsstring) :=
  match fuel with
  | O => None
  | S fuel' => value_step (parse_elements fuel') (parse_members fuel') s
  end

with parse_elements (fuel : nat) (s : jsstring) : option (list JSON * jsstring) :=
  match fuel with
  | O => None
  | S fuel' => elements_step (parse_value fuel') (parse_elements fuel') s
  end

with parse_members (fuel : nat) (s : jsstring)
    : option (list (jsstring * JSON) * jsstring) :=
  match fuel with
  | O => None
  | S fuel' => members_step (parse_value fuel') (parse_members fuel') s
  end.

(** What [JSON.parse(text)] does on the text of the wire: the value the
    whole text spells, or [None] when the call throws a [SyntaxError].
    The bound is never reached, see [parse_value_enough_fuel]. *)
Definition JSON_parse_model (text : jsstring) : option JSON :=
  match parse_value (2 * List.length text + 1) text with
  | Some (v, rest) =>
      match skip_ws rest with
      | [] => Some v
      | _ => None
      end
  | None => None
  end.

(** Test text is written with an apostrophe wherever the wire has a double
    quote. *)
Definition wire (s : string) : jsstring :=
  map (fun c => if c =? 39 then 34 else c) (units s).

(** ** The parsers consume what they read *)

Lemma skip_ws_length (s : jsstring) :
  (List.length (skip_ws s) <= List.length s)%nat.
Proof.
  induction s as [|c s IH]; simpl; [lia|].
  destruct (is_json_ws c); simpl; lia.
Qed.

Lemma skip_ws_cons (s r : jsstring) (c : N) :
  skip_ws s = c :: r -> (List.length r < List.length s)%nat.
Proof.
  intros H. pose proof (skip_ws_length s) as Hl. rewrite H in Hl.
  simpl in Hl. lia.
Qed.

Lemma strip_prefix_length (p s r : jsstring) :
  strip_prefix p s = Some r ->
  List.length s = (List.length p + List.length r)%nat.
Proof.
  revert s; induction p as [|x p IH]; intros s; simpl.
  - intros H; inversion H; reflexivity.
  - destruct s as [|y s]; [discriminate|].
    destruct (x =? y); [|discriminate].
    intros H. apply IH in H. simpl. lia.
Qed.

Lemma take_digits_length (s : jsstring) (acc count : Z) :
  (List.length (snd (take_digits s acc count)) <= List.length s)%nat.
Proof.
  revert acc count; induction s as [|c s IH]; intros acc count; simpl; [lia|].
  destruct (is_digit c); simpl; [|lia].
  specialize (IH (acc * 10 + Z.of_N (c - 48))%Z (count + 1)%Z). lia.
Qed.

Lemma take_sign_length (plus : bool) (s : jsstring) :
  (List.length (snd (take_sign plus s)) <= List.length s)%nat.
Proof.
  destruct s as [|c s]; simpl; [lia|].
  destruct (c =? 45); simpl; [lia|].
  destruct (plus && (c =? 43)); simpl; lia.
Qed.

Lemma take_fraction_length (s : jsstring) (int_part mant scale : Z) (r : jsstring) :
  take_fraction s int_part = Some (mant, scale, r) ->
  (List.length r <= List.length s)%nat.
Proof.
  unfold take_fraction. destruct s as [|c s]; [intros H; inversion H; simpl; lia|].
  destruct (c =? 46).
  - pose proof (take_digits_length s int_part 0) as Hl.
    destruct (take_digits s int_part 0) as [[m k] r']. simpl in Hl.
    destruct (k =? 0)%Z; [discriminate|].
    intros H; inversion H; subst. simpl. lia.
  - intros H; inversion H; subst. lia.
Qed.

Lemma take_exponent_length (s : jsstring) (ev : Z) (r : jsstring) :
  take_exponent s = Some (ev, r) -> (List.length r <= List.length s)%nat.
Proof.
  unfold take_exponent. destruct s as [|c s]; [intros H; inversion H; simpl; lia|].
  destruct ((c =? 101) || (c =? 69)).
  - pose proof (take_sign_length true s) as Hs.
    destruct (take_sign true s) as [negative digits]. simpl in Hs.
    pose proof (take_digits_length digits 0 0) as Hl.
    destruct (take_digits digits 0 0) as [[m k] r']. simpl in Hl.
    destruct (k =? 0)%Z; [discriminate|].
    intros H; inversion H; subst. simpl. lia.
  - intros H; inversion H; subst. lia.
Qed.

Lemma parse_number_length (s : jsstring) (v : JSON) (r : jsstring) :
  parse_number s = Some (v, r) -> (List.length r < List.length s)%nat.
Proof.
  unfold parse_number.
  pose proof (take_sign_length false s) as Hs.
  destruct (take_sign false s) as [negative s1]. simpl in Hs.
  destruct s1 as [|d after_first]; [discriminate|].
  destruct (is_digit d) eqn:Hd; [|discriminate]. cbn [negb].
  assert (H2 : (List.length
                  (snd (if (d =? 48)%N then (0%Z, 1%Z, after_first)
                        else take_digits (d :: after_first) 0%Z 0%Z))
                <= List.length after_first)%nat).
  { destruct (d =? 48); [simpl; lia|].
    simpl. rewrite Hd. apply take_digits_length. }
  destruct (if d =? 48 then (0%Z, 1%Z, after_first)
            else take_digits (d :: after_first) 0 0) as [[int_part k] s2].
  simpl in H2.
  destruct (take_fraction s2 int_part) as [[[mant scale] s3]|] eqn:Hf;
    [|discriminate].
  apply take_fraction_length in Hf.
  destruct (take_exponent s3) as [[ev rest]|] eqn:He; [|discriminate].
  apply take_exponent_length in He.
  intros H; inversion H; subst. simpl in Hs. lia.
Qed.

Lemma parse_string_body_length (s acc str r : jsstring) :
  parse_string_body s acc = Some (str, r) ->
  (List.length r < List.length s)%nat.
Proof.
  remember (List.length s) as n eqn:Hn.
  assert (Hle : (List.length s <= n)%nat) by lia. clear Hn.
  revert s acc Hle.
  induction n as [|n IH]; intros s acc Hle.
  - destruct s; [discriminate|simpl in Hle; lia].
  - destruct s as [|c rest]; [discriminate|]. simpl in Hle.
    cbn [parse_string_body].
    destruct (c =? 34); [intros H; inversion H; subst; simpl; lia|].
    destruct (c =? 92).
    + destruct rest as [|e rest1]; [discriminate|].
      destruct (e =? 117).
      * destruct rest1 as [|h1 [|h2 [|h3 [|h4 rest2]]]]; try discriminate.
        destruct (hex_value h1), (hex_value h2), (hex_value h3), (hex_value h4);
          try discriminate.
        intros H. apply IH in H; simpl in *; lia.
      * destruct (simple_escape e); [|discriminate].
        intros H. apply IH in H; simpl in *; lia.
    + destruct (c <? 32); [discriminate|].
      intros H. apply IH in H; simpl in *; lia.
Qed.

Lemma parse_literal_length (s : jsstring) (v : JSON) (r : jsstring) :
  parse_literal s = Some (v, r) -> (List.length r < List.length s)%nat.
Proof.
  unfold parse_literal.
  destruct (strip_prefix (units "null") s) eqn:E1.
  { apply strip_prefix_length in E1. intros H; inversion H; subst.
    simpl in E1. lia. }
  destruct (strip_prefix (units "true") s) eqn:E2.
  { apply strip_prefix_length in E2. intros H; inversion H; subst.
    simpl in E2. lia. }
  destruct (strip_prefix (units "false") s) eqn:E3; [|discriminate].
  apply strip_prefix_length in E3. intros H; inversion H; subst.
  simpl in E3. lia.
Qed.

(** A parser is consuming when what it leaves is shorter than what it
    was given. *)
Definition consuming (A : Type) (p : jsstring -> option (A * jsstring)) : Prop :=
  forall s x r, p s = Some (x, r) -> (List.length r < List.length s)%nat.

Lemma value_step_consuming
    (elements : jsstring -> option (list JSON * jsstring))
    (members : jsstring -> option (list (jsstring * JSON) * jsstring)) :
  consuming elements -> consuming members ->
  consuming (value_step elements members).
Proof.
  intros He Hm s v r. unfold value_step.
  destruct (skip_ws s) as [|c rest] eqn:Es; [discriminate|].
  apply skip_ws_cons in Es.
  destruct (c =? 34).
  { destruct (parse_string_body rest []) as [[str r']|] eqn:E; [|discriminate].
    apply parse_string_body_length in E. intros H; inversion H; subst. lia. }
  destruct (c =? 91).
  { destruct (skip_ws rest) as [|c1 r1] eqn:E1; [discriminate|].
    apply skip_ws_cons in E1.
    destruct (c1 =? 93); [intros H; inversion H; subst; lia|].
    destruct (elements rest) as [[items r']|] eqn:E; [|discriminate].
    apply He in E. intros H; inversion H; subst. lia. }
  destruct (c =? 123).
  { destruct (skip_ws rest) as [|c1 r1] eqn:E1; [discriminate|].
    apply skip_ws_cons in E1.
    destruct (c1 =? 125); [intros H; inversion H; subst; lia|].
    destruct (members rest) as [[ms r']|] eqn:E; [|discriminate].
    apply Hm in E. intros H; inversion H; subst. lia. }
  destruct ((c =? 45) || is_digit c).
  - intros H. apply parse_number_length in H. simpl in H. lia.
  - intros H. apply parse_literal_length in H. simpl in H. lia.
Qed.

Lemma elements_step_consuming
    (value : jsstring -> option (JSON * jsstring))
    (elements : jsstring -> option (list JSON * jsstring)) :
  consuming value -> consuming elements ->
  consuming (elements_step value elements).
Proof.
  intros Hv He s vs r. unfold elements_step.
  destruct (value s) as [[v r0]|] eqn:E0; [|discriminate].
  apply Hv in E0.
  destruct (skip_ws r0) as [|c r1] eqn:E1; [discriminate|].
  apply skip_ws_cons in E1.
  destruct (c =? 44).
  { destruct (elements r1) as [[vs' r2]|] eqn:E2; [|discriminate].
    apply He in E2. intros H; inversion H; subst. lia. }
  destruct (c =? 93); [|discriminate].
  intros H; inversion H; subst. lia.
Qed.

Lemma members_step_consuming
    (value : jsstring -> option (JSON * jsstring))
    (members : jsstring -> option (list (jsstring * JSON) * jsstring)) :
  consuming value -> consuming members ->
  consuming (members_step value members).
Proof.
  intros Hv Hm s ms r. unfold members_step.
  destruct (skip_ws s) as [|c0 r0] eqn:E0; [discriminate|].
  apply skip_ws_cons in E0.
  destruct (c0 =? 34); [|discriminate].
  destruct (parse_string_body r0 []) as [[key r1]|] eqn:E1; [|discriminate].
  apply parse_string_body_length in E1.
  destruct (skip_ws r1) as [|c1 r2] eqn:E2; [discriminate|].
  apply skip_ws_cons in E2.
  destruct (c1 =? 58); [|discriminate].
  destruct (value r2) as [[v r3]|] eqn:E3; [|discriminate].
  apply Hv in E3.
  destruct (skip_ws r3) as [|c2 r4] eqn:E4; [discriminate|].
  apply skip_ws_cons in E4.
  destruct (c2 =? 44).
  { destruct (members r4) as [[ms' r5]|] eqn:E5; [|discriminate].
    apply Hm in E5. intros H; inversion H; subst. lia. }
  destruct (c2 =? 125); [|discriminate].
  intros H; inversion H; subst. lia.
Qed.

Lemma parsers_consuming (fuel : nat) :
  consuming (parse_value fuel) /\ consuming (parse_elements fuel)
  /\ consuming (parse_members fuel).
Proof.
  induction fuel as [|fuel [IHv [IHe IHm]]].
  - repeat split; intros s x r H; discriminate.
  - split; [|split].
    + exact (value_step_consuming IHe IHm).
    + exact (elements_step_consuming IHv IHe).
    + exact (members_step_consuming IHv IHm).
Qed.

(** ** The bound on the nesting is never reached *)

(** Two parsers agree on the texts shorter than [n]. *)
Definition agree_below (A : Type) (n : nat)
    (p q : jsstring -> option (A * jsstring)) : Prop :=
  forall s, (List.length s < n)%nat -> p s = q s.

Lemma value_step_agree
    (elements elements' : jsstring -> option (list JSON * jsstring))
    (members members' : jsstring -> option (list (jsstring * JSON) * jsstring))
    (s : jsstring) :
  agree_below (List.length s) elements elements' ->
  agree_below (List.length s) members members' ->
  value_step elements members s = value_step elements' members' s.
Proof.
  intros He Hm. unfold value_step.
  destruct (skip_ws s) as [|c rest] eqn:Es; [reflexivity|].
  apply skip_ws_cons in Es.
  rewrite (He rest Es), (Hm rest Es). reflexivity.
Qed.

Lemma elements_step_agree
    (value value' : jsstring -> option (JSON * jsstring))
    (elements elements' : jsstring -> option (list JSON * jsstring))
    (s : jsstring) :
  consuming value ->
  value s = value' s ->
  agree_below (List.length s - 1) elements elements' ->
  elements_step value elements s = elements_step value' elements' s.
Proof.
  intros Hc Hv He. unfold elements_step. rewrite <- Hv.
  destruct (value s) as [[v r0]|] eqn:E0; [|reflexivity].
  apply Hc in E0.
  destruct (skip_ws r0) as [|c r1] eqn:E1; [reflexivity|].
  apply skip_ws_cons in E1.
  rewrite (He r1) by lia. reflexivity.
Qed.

Lemma members_step_agree
    (value value' : jsstring -> option (JSON * jsstring))
    (members members' : jsstring -> option (list (jsstring * JSON) * jsstring))
    (s : jsstring) :
  consuming value ->
  agree_below (List.length s) value value' ->
  agree_below (List.length s - 1) members members' ->
  members_step value members s = members_step value' members' s.
Proof.
  intros Hc Hv Hm. unfold members_step.
  destruct (skip_ws s) as [|c0 r0] eqn:E0; [reflexivity|].
  apply skip_ws_cons in E0.
  destruct (c0 =? 34); [|reflexivity].
  destruct (parse_string_body r0 []) as [[key r1]|] eqn:E1; [|reflexivity].
  apply parse_string_body_length in E1.
  destruct (skip_ws r1) as [|c1 r2] eqn:E2; [reflexivity|].
  apply skip_ws_cons in E2.
  destruct (c1 =? 58); [|reflexivity].
  rewrite <- (Hv r2) by lia.
  destruct (value r2) as [[v r3]|] eqn:E3; [|reflexivity].
  apply Hc in E3.
  destruct (skip_ws r3) as [|c2 r4] eqn:E4; [reflexivity|].
  apply skip_ws_cons in E4.
  rewrite (Hm r4) by lia. reflexivity.
Qed.

(** With a bound of twice the length of the text plus one for a value,
    plus two for elements and members, more fuel changes nothing. *)
Lemma parsers_enough_fuel (len : nat) :
  forall s, (List.length s <= len)%nat ->
    (forall n m, (2 * List.length s + 1 <= n)%nat -> (n <= m)%nat ->
                 parse_value m s = parse_value n s)
    /\ (forall n m, (2 * List.length s + 2 <= n)%nat -> (n <= m)%nat ->
                    parse_elements m s = parse_elements n s)
    /\ (forall n m, (2 * List.length s + 2 <= n)%nat -> (n <= m)%nat ->
                    parse_members m s = parse_members n s).
Proof.
  induction len as [|len IH]; intros s Hs.
  - assert (Hv : forall n m, (2 * List.length s + 1 <= n)%nat -> (n <= m)%nat ->
                             parse_value m s = parse_value n s).
    { intros [|n] [|m] Hn Hm; try lia. cbn [parse_value].
      apply value_step_agree; intros r Hr; lia. }
    split; [exact Hv|]. split.
    + intros [|n] [|m] Hn Hm; try lia. cbn [parse_elements].
      apply elements_step_agree.
      * apply parsers_consuming.
      * apply Hv; lia.
      * intros r Hr; lia.
    + intros [|n] [|m] Hn Hm; try lia. cbn [parse_members].
      apply members_step_agree.
      * apply parsers_consuming.
      * intros r Hr; lia.
      * intros r Hr; lia.
  - assert (Hv : forall n m, (2 * List.length s + 1 <= n)%nat -> (n <= m)%nat ->
                             parse_value m s = parse_value n s).
    { intros [|n] [|m] Hn Hm; try lia. cbn [parse_value].
      apply value_step_agree; intros r Hr.
      - apply (proj1 (proj2 (IH r ltac:(lia)))); lia.
      - apply (proj2 (proj2 (IH r ltac:(lia)))); lia. }
    split; [exact Hv|]. split.
    + intros [|n] [|m] Hn Hm; try lia. cbn [parse_elements].
      apply elements_step_agree.
      * apply parsers_consuming.
      * apply Hv; lia.
      * intros r Hr. apply (proj1 (proj2 (IH r ltac:(lia)))); lia.
    + intros [|n] [|m] Hn Hm; try lia. cbn [parse_members].
      apply members_step_agree.
      * apply parsers_consuming.
      * intros r Hr. apply (proj1 (IH r ltac:(lia))); lia.
      * intros r Hr. apply (proj2 (proj2 (IH r ltac:(lia)))); lia.
Qed.

(** The fuel [JSON_parse_model] gives is enough: any larger bound yields
    the same result. *)
Lemma parse_value_enough_fuel (text : jsstring) (fuel : nat) :
  (2 * List.length text + 1 <= fuel)%nat ->
  parse_value fuel text = parse_value (2 * List.length text + 1) text.
Proof.
  intros H.
  apply (proj1 (@parsers_enough_fuel (List.length text) text (le_n _)));
    [lia|exact H].
Qed.

End Json.

(* ===================================================================== *)
(** * lib/streaming.ts : the SSE streaming client *)
(* ===================================================================== *)

Module Streaming.
Import JS Json.

Local Open Scope N_scope.

(** ** String operations of the platform *)

(** [s.startsWith(p)] *)
Definition startsWith (s p : jsstring) : bool :=
  match strip_prefix p s with
  | Some _ => true
  | None => false
  end.

(** [s.slice(n)] for a non-negative [n]. *)
Definition slice (n : nat) (s : jsstring) : jsstring := skipn n s.

(** [!s] for a string. *)
Definition is_empty (s : jsstring) : bool :=
  match s with
  | [] => true
  | _ => false
  end.

(** White space and line terminators, as [trim] understands them. *)
Definition is_white_space (c : N) : bool :=
  existsb (N.eqb c)
    [9; 10; 11; 12; 13; 32; 160; 5760; 8232; 8233; 8239; 8287; 12288; 65279]
  || ((8192 <=? c) && (c <=? 8202)).

Fixpoint trimStart (s : jsstring) : jsstring :=
  match s with
  | c :: rest => if is_white_space c then trimStart rest else s
  | [] => []
  end.

(** [s.trim()] *)
Definition trim (s : jsstring) : jsstring :=
  rev (trimStart (rev (trimStart s))).

(** [s.split('\n')]: the segments between line feeds, never an empty
    array. *)
Fixpoint split (s : jsstring) : list jsstring :=
  match s with
  | [] => [[]]
  | c :: rest =>
      if c =? 10 then [] :: split rest
      else match split rest with
           | seg :: segs => (c :: seg) :: segs
           | [] => [[c]]
           end
  end.

(** ** Errors and callbacks *)

(** [String(v)] returns for a value of the wire. The conversion raises a
    [TypeError] for an object that has a member [toString] of its own:
    the member hides the inherited method and is not a function, and the
    inherited [valueOf] gives back the object. An array is joined, so it
    converts when each of its items does; every other value has a string
    form. *)
Fixpoint has_string_form (v : JSON) : bool :=
  match v with
  | JArray items =>
      (fix all (l : list JSON) : bool :=
         match l with
         | [] => true
         | item :: rest => has_string_form item && all rest
         end) items
  | JObject members => negb (present (lookup (units "toString") members))
  | _ => true
  end.

(** An [Error] object: one the client builds with [new Error(v)] (its name
    is ['Error'], its message the string form of [v]); one the platform
    hands over, with its own name and message (a [DOMException] named
    ['AbortError'], the [TypeError] of a failed [fetch], ...); or the
    [TypeError] the engine raises while it evaluates an expression of the
    client, whose message is the engine's own text and is left open. *)
Inductive JSError :=
| NewError (message : option JSON)
| PlatformError (name message : jsstring)
| EngineTypeError.

(** [error.name] *)
Definition error_name (e : JSError) : jsstring :=
  match e with
  | NewError _ => units "Error"
  | PlatformError name _ => name
  | EngineTypeError => units "TypeError"
  end.

(** What a [catch] clause receives: an [Error] or any other value. *)
Inductive Thrown :=
| ThrownError (e : JSError)
| ThrownValue.

Definition AbortError : Thrown :=
  ThrownError (PlatformError (units "AbortError")
                 (units "The user aborted a request.")).

(** What is thrown when the engine raises a [TypeError]. *)
Definition raised : Thrown := ThrownError EngineTypeError.

(** [new Error(message)]: the constructor converts a message that is not
    [undefined] to a string, and raises when the conversion does. *)
Definition new_Error (message : option JSON) : Exc JSError :=
  match message with
  | Some v => if has_string_form v then Ok (NewError message) else TypeError
  | None => Ok (NewError None)
  end.

(** [throw new Error(message)]: what is thrown. *)
Definition throw_new_Error (message : option JSON) : Thrown :=
  match new_Error message with
  | Ok err => ThrownError err
  | TypeError => raised
  end.

(** One invocation of a member of [StreamingCallbacks]. *)
Inductive Callback :=
| onThinking (event : JSON)
| onComplete (result : option JSON)
| onError (error : JSError).

(** What a stretch of the [try] block does: the callbacks it invokes, in
    order, and, when it is left by a throw, what is thrown. *)
Definition Run : Type := list Callback * option Thrown.

(** One stretch and then, unless the first was left by a throw, another. *)
Definition and_then (a b : Run) : Run :=
  match a with
  | (calls, Some t) => (calls, Some t)
  | (calls, None) => (calls ++ fst b, snd b)
  end.

(** A step that invokes callbacks or raises a [TypeError]. *)
Definition once (step : Exc (list Callback)) : Run :=
  match step with
  | Ok calls => (calls, None)
  | TypeError => ([], Some raised)
  end.

(** ** What the network answers *)

(** How the reads of the response body end. *)
Inductive ReadEnd :=
| Done
| ReadThrows (e : Thrown).

(** [await response.json()] on a failed response: it resolves to a value
    or rejects. *)
Inductive ErrorBody :=
| ErrorJson (v : JSON)
| ErrorJsonThrows (e : Thrown).

(** The answer to [fetch]: it rejects; or the response is not ok; or it is
    ok without a body; or it is ok and the reader yields the given chunks
    of decoded text before the reads end. *)
Inductive Response :=
| FetchThrows (e : Thrown)
| NotOk (body : ErrorBody)
| NoBody
| Body (chunks : list jsstring) (ending : ReadEnd).

Section Client.

(** [JSON.parse], with [None] for a thrown [SyntaxError]. *)
Variable JSON_parse : jsstring -> option JSON.

(** [parseSSELine]; the [null] it returns is [JNull]. *)
Definition parseSSELine (line : jsstring) : JSON :=
  if negb (startsWith line (units "data: ")) then JNull
  else
    let jsonStr := slice 6 line in
    if is_empty jsonStr || str_eqb jsonStr (units "[DONE]") then JNull
    else
      match JSON_parse jsonStr with
      | Some v => v
      | None => JNull
      end.

(** The three-way branch on [event.type], for an event that is not falsy.
    The branch for [error] builds an [Error] from the message of the
    event, which may raise. *)
Definition dispatch (event : JSON) : Exc (list Callback) :=
  if is_string (prop event (units "type")) (units "complete") then
    Ok [onComplete (prop event (units "result"))]
  else if is_string (prop event (units "type")) (units "error") then
    err <- new_Error (prop event (units "message")) ;;
    Ok [onError err]
  else if negb (is_string (prop event (units "type")) (units "node_complete")) then
    Ok [onThinking event]
  else Ok [].

(** The body of the [for] loop over the complete lines. *)
Definition process_line (line : jsstring) : Exc (list Callback) :=
  let trimmedLine := trim line in
  if is_empty trimmedLine then Ok []
  else
    let event := parseSSELine trimmedLine in
    if negb (truthy event) then Ok []
    else dispatch event.

(** The block after the loop, for what is left in the buffer. *)
Definition process_rest (buffer : jsstring) : Exc (list Callback) :=
  if negb (is_empty (trim buffer)) then
    let event := parseSSELine (trim buffer) in
    if truthy event then dispatch event else Ok []
  else Ok [].

(** The [catch] clause of [fetchStream]. *)
Definition catch_handler (t : Thrown) : list Callback :=
  match t with
  | ThrownError e =>
      if str_eqb (error_name e) (units "AbortError") then []
      else [onError e]
  | ThrownValue => [onError (NewError (Some (JString (units "Unknown error"))))]
  end.

(** The [for] loop over the complete lines of the buffer: it is left at
    the first line that raises. *)
Fixpoint for_lines (lines : list jsstring) : Run :=
  match lines with
  | [] => ([], None)
  | line :: rest => and_then (once (process_line line)) (for_lines rest)
  end.

(** The [while (true)] loop over the reads, with the block that follows
    it. *)
Fixpoint read_loop (chunks : list jsstring) (buffer : jsstring) (ending : ReadEnd)
    : Run :=
  match chunks with
  | value :: rest =>
      let buffer1 := buffer ++ value in
      let lines := split buffer1 in
      let buffer2 := last lines [] in
      and_then (for_lines (removelast lines)) (read_loop rest buffer2 ending)
  | [] =>
      match ending with
      | Done => once (process_rest buffer)
      | ReadThrows e => ([], Some e)
      end
  end.

(** [errorData.detail || errorMessage] inside its own [try], whose [catch]
    swallows whatever [response.json()] or the property read throws. *)
Definition errorMessage (body : ErrorBody) : JSON :=
  let default := JString (units "API request failed") in
  match body with
  | ErrorJson errorData =>
      match get errorData (units "detail") with
      | Ok (Some detail) => if truthy detail then detail else default
      | Ok None => default
      | TypeError => default
      end
  | ErrorJsonThrows _ => default
  end.

(** The [try] block of [fetchStream], given what the network answers. The
    request it sends has no part in the callbacks and is left out; the
    callbacks themselves are taken to return normally. *)
Definition try_block (r : Response) : Run :=
  match r with
  | FetchThrows e => ([], Some e)
  | NotOk body => ([], Some (throw_new_Error (Some (errorMessage body))))
  | NoBody =>
      ([], Some (throw_new_Error (Some (JString (units "No response body")))))
  | Body chunks ending => read_loop chunks [] ending
  end.

(** A [try] block with the [catch] clause of [fetchStream]. *)
Definition caught (run : Run) : list Callback :=
  fst run ++ match snd run with
             | Some t => catch_handler t
             | None => []
             end.

(** [fetchStream]: the callbacks it invokes, in order. *)
Definition fetchStream (r : Response) : list Callback :=
  caught (try_block r).

(** [createAnalysisStream]: it makes an [AbortController], starts
    [fetchStream] with the signal of that controller, and returns the
    function that aborts it. With the controller named by a number, the
    call yields the callbacks of [fetchStream] and, as the function it
    returns, the name of the controller to abort. *)
Definition createAnalysisStream (controller : nat) (r : Response)
    : list Callback * nat :=
  (fetchStream r, controller).

(** ** The stream as a whole *)

(** The event a line stands for, if any: the line is trimmed, must not be
    blank, and must parse to a value that is not falsy. *)
Definition line_event (line : jsstring) : list JSON :=
  let trimmedLine := trim line in
  if is_empty trimmedLine then []
  else
    let event := parseSSELine trimmedLine in
    if truthy event then [event] else [].

(** The lines of the whole text that reach the client before the reads
    end: all of them when the stream ends normally, all but the unfinished
    last one when a read throws. *)
Definition stream_lines (chunks : list jsstring) (ending : ReadEnd) : list jsstring :=
  match ending with
  | Done => split (concat chunks)
  | ReadThrows _ => removelast (split (concat chunks))
  end.

(** The events of a response, in the order of the wire. *)
Definition stream_events (r : Response) : list JSON :=
  match r with
  | Body chunks ending => flat_map line_event (stream_lines chunks ending)
  | _ => []
  end.

(** What the request fails with, if it fails. *)
Definition failure (r : Response) : option Thrown :=
  match r with
  | FetchThrows e => Some e
  | NotOk body => Some (throw_new_Error (Some (errorMessage body)))
  | NoBody => Some (throw_new_Error (Some (JString (units "No response body"))))
  | Body _ (ReadThrows e) => Some e
  | Body _ Done => None
  end.

Definition failure_callbacks (r : Response) : list Callback :=
  match failure r with
  | Some t => catch_handler t
  | None => []
  end.

End Client.

(** The events of a list handled in order: the loop is left at the first
    event whose dispatch raises. *)
Fixpoint for_events (events : list JSON) : Run :=
  match events with
  | [] => ([], None)
  | e :: rest => and_then (once (dispatch e)) (for_events rest)
  end.

(** The callbacks for a list of events handled in order and, unless one
    of them raises, the failure that follows them. *)
Definition callbacks_of (events : list JSON) (failure : option Thrown)
    : list Callback :=
  caught (and_then (for_events events) ([], failure)).

(** Dispatching the event raises. *)
Definition raises (event : JSON) : bool :=
  match dispatch event with
  | Ok _ => false
  | TypeError => true
  end.

(** The events the client gets to: all of them, or those up to the first
    one that raises, that one included. *)
Fixpoint reached (events : list JSON) : list JSON :=
  match events with
  | [] => []
  | e :: rest => if raises e then [e] else e :: reached rest
  end.

(** [event.type === literal] *)
Definition has_type (event : JSON) (literal : string) : bool :=
  is_string (prop event (units "type")) (units literal).

(** A terminal event: [complete] or [error]. *)
Definition is_terminal_event (event : JSON) : bool :=
  has_type event "complete" || has_type event "error".

(** An event that is forwarded to [onThinking]. *)
Definition is_thinking_event (event : JSON) : bool :=
  negb (has_type event "complete") && negb (has_type event "error")
  && negb (has_type event "node_complete").

(** A terminal callback: [onComplete] or [onError]. *)
Definition is_terminal (c : Callback) : bool :=
  match c with
  | onThinking _ => false
  | onComplete _ => true
  | onError _ => true
  end.

(** The events handed to [onThinking], in the order of the calls. *)
Definition thinking_of (calls : list Callback) : list JSON :=
  flat_map (fun c => match c with onThinking e => [e] | _ => [] end) calls.

(** [error instanceof Error && error.name === 'AbortError'] *)
Definition is_abort (t : Thrown) : bool :=
  match t with
  | ThrownError e => str_eqb (error_name e) (units "AbortError")
  | ThrownValue => false
  end.

(** ** Lines and chunks *)

Lemma split_not_nil (s : jsstring) : split s <> [].
Proof.
  destruct s as [|c s]; simpl; [discriminate|].
  destruct (c =? 10); [discriminate|].
  destruct (split s); discriminate.
Qed.

(** A text without a line feed is its own single line. *)
Lemma split_no_lf (s : jsstring) : ~ In 10 s -> split s = [s].
Proof.
  induction s as [|c s IH]; simpl; intros H; [reflexivity|].
  destruct (N.eqb_spec c 10) as [->|Hc]; [exfalso; auto|].
  rewrite IH by tauto. reflexivity.
Qed.

(** No segment of a split holds a line feed. *)
Lemma split_segments_no_lf (s : jsstring) :
  Forall (fun seg => ~ In 10 seg) (split s).
Proof.
  induction s as [|c s IH]; simpl.
  - constructor; [intros []|constructor].
  - destruct (N.eqb_spec c 10) as [->|Hc].
    + constructor; [intros []|exact IH].
    + destruct (split s) as [|seg segs]; [constructor; [|constructor]|].
      * intros [H|[]]; congruence.
      * inversion IH; subst. constructor; [|assumption].
        intros [H|H]; [congruence|auto].
Qed.

Lemma last_split_no_lf (s : jsstring) : ~ In 10 (last (split s) []).
Proof.
  pose proof (split_segments_no_lf s) as H.
  pose proof (split_not_nil s) as Hn.
  induction (split s) as [|seg segs IH]; [congruence|].
  inversion H; subst.
  destruct segs as [|seg' segs']; [assumption|].
  apply IH; [assumption|discriminate].
Qed.

(** Splitting a text that arrives in two parts: the complete lines of the
    first part, then the split of its unfinished line followed by the
    second part. *)
Lemma split_app (a b : jsstring) :
  split (a ++ b) = removelast (split a) ++ split (last (split a) [] ++ b).
Proof.
  induction a as [|c a IH]; [reflexivity|].
  cbn [app split]. rewrite IH; clear IH.
  pose proof (split_not_nil a) as Hn.
  destruct (split a) as [|seg segs]; [congruence|]; clear Hn.
  destruct (N.eqb_spec c 10) as [->|Hc].
  - reflexivity.
  - destruct segs as [|seg' segs'].
    + cbn [removelast last app split].
      destruct (N.eqb_spec c 10); [congruence|]. reflexivity.
    + change (removelast (seg :: seg' :: segs'))
        with (seg :: removelast (seg' :: segs')).
      change (removelast ((c :: seg) :: seg' :: segs'))
        with ((c :: seg) :: removelast (seg' :: segs')).
      reflexivity.
Qed.

Lemma removelast_split_app (a b : jsstring) :
  removelast (split (a ++ b))
  = removelast (split a) ++ removelast (split (last (split a) [] ++ b)).
Proof.
  rewrite split_app. apply removelast_app, split_not_nil.
Qed.

(** ** Stretches of the [try] block *)

Lemma and_then_nil_l (b : Run) : and_then ([], None) b = b.
Proof. destruct b; reflexivity. Qed.

Lemma and_then_nil_r (a : Run) : and_then a ([], None) = a.
Proof. destruct a as [calls [t|]]; simpl; [|rewrite app_nil_r]; reflexivity. Qed.

Lemma and_then_assoc (a b c : Run) :
  and_then (and_then a b) c = and_then a (and_then b c).
Proof.
  destruct a as [ca [ta|]]; [reflexivity|].
  destruct b as [cb [tb|]]; simpl; [reflexivity|].
  rewrite app_assoc. reflexivity.
Qed.

Lemma for_events_app (a b : list JSON) :
  for_events (a ++ b) = and_then (for_events a) (for_events b).
Proof.
  induction a as [|e a IH]; cbn [app for_events].
  - symmetry; apply and_then_nil_l.
  - rewrite IH. symmetry; apply and_then_assoc.
Qed.

Section ClientFacts.

Variable JSON_parse : jsstring -> option JSON.

Local Abbreviation process_line' := (process_line JSON_parse).
Local Abbreviation line_event' := (line_event JSON_parse).
Local Abbreviation for_lines' := (for_lines JSON_parse).

(** The loop body and the block after the loop treat a line alike. *)
Lemma process_rest_line (buffer : jsstring) :
  process_rest JSON_parse buffer = process_line' buffer.
Proof.
  unfold process_rest, process_line.
  destruct (is_empty (trim buffer)); simpl; [reflexivity|].
  destruct (truthy (parseSSELine JSON_parse (trim buffer))); reflexivity.
Qed.

(** A line is processed by dispatching the event it stands for. *)
Lemma process_line_event (line : jsstring) :
  once (process_line' line) = for_events (line_event' line).
Proof.
  unfold process_line, line_event.
  destruct (is_empty (trim line)); simpl; [reflexivity|].
  destruct (truthy (parseSSELine JSON_parse (trim line))); simpl;
    [rewrite and_then_nil_r|]; reflexivity.
Qed.

Lemma for_lines_app (a b : list jsstring) :
  for_lines' (a ++ b) = and_then (for_lines' a) (for_lines' b).
Proof.
  induction a as [|l a IH]; cbn [app for_lines].
  - symmetry; apply and_then_nil_l.
  - rewrite IH. symmetry; apply and_then_assoc.
Qed.

Lemma for_lines_events (lines : list jsstring) :
  for_lines' lines = for_events (flat_map line_event' lines).
Proof.
  induction lines as [|l ls IH]; cbn [for_lines flat_map]; [reflexivity|].
  rewrite for_events_app, IH, process_line_event. reflexivity.
Qed.

(** The read loop, when the stream ends normally: the lines of the whole
    text are processed in order, however the text was cut into chunks. *)
Lemma read_loop_done (chunks : list jsstring) (buffer : jsstring) :
  ~ In 10 buffer ->
  read_loop JSON_parse chunks buffer Done
  = for_lines' (split (buffer ++ concat chunks)).
Proof.
  revert buffer; induction chunks as [|value rest IH]; intros buffer Hb.
  - cbn [read_loop concat]. rewrite app_nil_r, split_no_lf by assumption.
    cbn [for_lines]. rewrite and_then_nil_r, process_rest_line. reflexivity.
  - cbn [read_loop concat]. rewrite IH by apply last_split_no_lf.
    rewrite <- for_lines_app, app_assoc, <- split_app. reflexivity.
Qed.

(** The read loop, when a read throws: only the complete lines received
    so far are processed, then the read throws. *)
Lemma read_loop_throws (chunks : list jsstring) (buffer : jsstring) (e : Thrown) :
  ~ In 10 buffer ->
  read_loop JSON_parse chunks buffer (ReadThrows e)
  = and_then (for_lines' (removelast (split (buffer ++ concat chunks))))
             ([], Some e).
Proof.
  revert buffer; induction chunks as [|value rest IH]; intros buffer Hb.
  - cbn [read_loop concat]. rewrite app_nil_r, split_no_lf by assumption.
    reflexivity.
  - cbn [read_loop concat]. rewrite IH by apply last_split_no_lf.
    rewrite <- and_then_assoc, <- for_lines_app, app_assoc,
      <- removelast_split_app.
    reflexivity.
Qed.

(** The [try] block, in one equation: the events of the response are
    handled in the order of the wire, up to one that raises; if none
    does, the failure of the response, if there is one, is thrown. *)
Lemma try_block_events (r : Response) :
  try_block JSON_parse r
  = and_then (for_events (stream_events JSON_parse r)) ([], failure r).
Proof.
  destruct r as [e | body | | chunks [|e]]; try reflexivity.
  - cbn [try_block stream_events stream_lines failure].
    rewrite and_then_nil_r, read_loop_done by (intros []).
    apply for_lines_events.
  - cbn [try_block stream_events stream_lines failure].
    rewrite read_loop_throws by (intros []).
    rewrite for_lines_events. reflexivity.
Qed.

(** What [fetchStream] does, in one equation. *)
Lemma fetchStream_events (r : Response) :
  fetchStream JSON_parse r
  = callbacks_of (stream_events JSON_parse r) (failure r).
Proof. unfold fetchStream, callbacks_of. rewrite try_block_events. reflexivity. Qed.

End ClientFacts.

(** ** How one event is dispatched *)

(** An event has at most one type. *)
Lemma has_type_unique (e : JSON) (a b : string) :
  has_type e a = true -> has_type e b = true -> units a = units b.
Proof.
  unfold has_type, is_string.
  destruct (prop e (units "type")) as [[| | | s | |]|]; try discriminate.
  intros Ha Hb. apply str_eqb_eq in Ha, Hb. congruence.
Qed.

Lemma has_type_other (e : JSON) (a b : string) :
  has_type e a = true -> units a <> units b -> has_type e b = false.
Proof.
  intros Ha Hne. destruct (has_type e b) eqn:Hb; [|reflexivity].
  exfalso; apply Hne; eapply has_type_unique; eassumption.
Qed.

Ltac other_type H :=
  eapply has_type_other; [exact H | vm_compute; discriminate].

Lemma dispatch_complete (e : JSON) :
  has_type e "complete" = true ->
  dispatch e = Ok [onComplete (prop e (units "result"))].
Proof. unfold dispatch, has_type; intros ->; reflexivity. Qed.

Lemma dispatch_error (e : JSON) :
  has_type e "error" = true ->
  dispatch e = (err <- new_Error (prop e (units "message")) ;; Ok [onError err]).
Proof.
  intros H. assert (Hc : has_type e "complete" = false) by other_type H.
  unfold dispatch, has_type in *. rewrite Hc, H. reflexivity.
Qed.

Lemma dispatch_node_complete (e : JSON) :
  has_type e "node_complete" = true -> dispatch e = Ok [].
Proof.
  intros H.
  assert (Hc : has_type e "complete" = false) by other_type H.
  assert (He : has_type e "error" = false) by other_type H.
  unfold dispatch, has_type in *. rewrite Hc, He, H. reflexivity.
Qed.

Lemma dispatch_thinking (e : JSON) :
  is_thinking_event e = true -> dispatch e = Ok [onThinking e].
Proof.
  unfold is_thinking_event, dispatch, has_type.
  intros H. apply andb_true_iff in H as [H H3].
  apply andb_true_iff in H as [H1 H2].
  apply negb_true_iff in H1, H2, H3. rewrite H1, H2, H3. reflexivity.
Qed.

(** [new Error] returns the error of the message or raises. *)
Lemma new_Error_cases (message : option JSON) :
  new_Error message = Ok (NewError message) \/ new_Error message = TypeError.
Proof.
  destruct message as [v|]; simpl; [|left; reflexivity].
  destruct (has_string_form v); [left|right]; reflexivity.
Qed.

(** The five cases of [dispatch], by the type of the event. *)
Lemma dispatch_cases (e : JSON) :
  (has_type e "complete" = true /\ is_terminal_event e = true
   /\ is_thinking_event e = false /\ raises e = false
   /\ dispatch e = Ok [onComplete (prop e (units "result"))])
  \/ (has_type e "error" = true /\ is_terminal_event e = true
      /\ is_thinking_event e = false /\ raises e = false
      /\ new_Error (prop e (units "message"))
         = Ok (NewError (prop e (units "message")))
      /\ dispatch e = Ok [onError (NewError (prop e (units "message")))])
  \/ (has_type e "error" = true /\ is_terminal_event e = true
      /\ is_thinking_event e = false /\ raises e = true
      /\ new_Error (prop e (units "message")) = TypeError
      /\ dispatch e = TypeError)
  \/ (has_type e "node_complete" = true /\ is_terminal_event e = false
      /\ is_thinking_event e = false /\ raises e = false
      /\ dispatch e = Ok [])
  \/ (is_terminal_event e = false /\ is_thinking_event e = true
      /\ raises e = false /\ dispatch e = Ok [onThinking e]).
Proof.
  unfold raises.
  destruct (has_type e "complete") eqn:Hc.
  { left. unfold is_terminal_event, is_thinking_event.
    rewrite Hc, (dispatch_complete e Hc). repeat split. }
  destruct (has_type e "error") eqn:He.
  { right. unfold is_terminal_event, is_thinking_event.
    rewrite Hc, He, (dispatch_error e He).
    destruct (new_Error_cases (prop e (units "message"))) as [Hn|Hn];
      rewrite Hn; [left|right; left]; repeat split. }
  destruct (has_type e "node_complete") eqn:Hn.
  { right; right; right; left. unfold is_terminal_event, is_thinking_event.
    rewrite Hc, He, Hn, (dispatch_node_complete e Hn). repeat split. }
  right; right; right; right.
  assert (Ht : is_thinking_event e = true)
    by (unfold is_thinking_event; rewrite Hc, He, Hn; reflexivity).
  unfold is_terminal_event. rewrite Hc, He, (dispatch_thinking e Ht).
  repeat split. exact Ht.
Qed.

(** Only an [error] event whose message has no string form raises. *)
Lemma raises_spec (e : JSON) :
  raises e = true <->
  has_type e "error" = true /\
  exists v, prop e (units "message") = Some v /\ has_string_form v = false.
Proof.
  split.
  - intros H.
    destruct (dispatch_cases e) as [C|[C|[C|[C|C]]]];
      decompose [and] C; clear C; try congruence.
    split; [assumption|].
    match goal with Hn : new_Error _ = TypeError |- _ => revert Hn end.
    unfold new_Error. destruct (prop e (units "message")) as [v|]; [|discriminate].
    destruct (has_string_form v) eqn:Hv; [discriminate|]. eauto.
  - intros [He [v [Hm Hv]]]. unfold raises.
    rewrite (dispatch_error e He), Hm. simpl. rewrite Hv. reflexivity.
Qed.

(** ** The callbacks of a list of events *)

(** The [catch] clause reports a failure once, unless it is an abort. *)
Lemma catch_handler_cases (t : Thrown) :
  (is_abort t = true /\ catch_handler t = [])
  \/ (is_abort t = false /\ exists err, catch_handler t = [onError err]).
Proof.
  destruct t as [e|]; simpl.
  - destruct (str_eqb (error_name e) (units "AbortError"));
      [left|right]; split; eauto.
  - right; split; eauto.
Qed.

(** What follows the events when none of them raises. *)
Definition after (failure : option Thrown) : list Callback :=
  match failure with
  | Some t => catch_handler t
  | None => []
  end.

Lemma callbacks_of_nil (failure : option Thrown) :
  callbacks_of [] failure = after failure.
Proof. reflexivity. Qed.

Lemma callbacks_of_cons (e : JSON) (events : list JSON) (failure : option Thrown) :
  callbacks_of (e :: events) failure
  = match dispatch e with
    | Ok calls => calls ++ callbacks_of events failure
    | TypeError => [onError EngineTypeError]
    end.
Proof.
  unfold callbacks_of. cbn [for_events].
  destruct (dispatch e) as [calls|]; [|reflexivity].
  cbn [once]. rewrite and_then_assoc.
  destruct (and_then (for_events events) ([], failure)) as [later thrown].
  unfold caught. cbn [and_then fst snd]. symmetry; apply app_assoc.
Qed.

Lemma after_terminal (failure : option Thrown) :
  filter is_terminal (after failure) = after failure
  /\ thinking_of (after failure) = [].
Proof.
  unfold after. destruct failure as [t|]; [|split; reflexivity].
  destruct (catch_handler_cases t) as [[_ ->]|[_ [err ->]]]; split; reflexivity.
Qed.

Lemma failure_callbacks_terminal (r : Response) :
  filter is_terminal (failure_callbacks r) = failure_callbacks r
  /\ thinking_of (failure_callbacks r) = [].
Proof. apply (after_terminal (failure r)). Qed.

Lemma thinking_of_app (a b : list Callback) :
  thinking_of (a ++ b) = thinking_of a ++ thinking_of b.
Proof. apply flat_map_app. Qed.

(** The events handed to [onThinking] are the thinking events among those
    the client gets to, in order. *)
Lemma thinking_of_callbacks (events : list JSON) (failure : option Thrown) :
  thinking_of (callbacks_of events failure)
  = filter is_thinking_event (reached events).
Proof.
  induction events as [|e es IH].
  - rewrite callbacks_of_nil. apply after_terminal.
  - rewrite callbacks_of_cons. cbn [reached].
    destruct (dispatch_cases e) as [C|[C|[C|[C|C]]]];
      decompose [and] C; clear C;
      repeat match goal with
             | H : dispatch e = _ |- _ => rewrite H; clear H
             | H : raises e = _ |- _ => rewrite H; clear H
             end;
      cbn [filter];
      repeat match goal with
             | H : is_thinking_event e = _ |- _ => rewrite H; clear H
             end;
      rewrite ?thinking_of_app, ?IH; reflexivity.
Qed.

(** Removing the [node_complete] events changes no callback. *)
Lemma callbacks_of_without_node_complete
    (events : list JSON) (failure : option Thrown) :
  callbacks_of (filter (fun e => negb (has_type e "node_complete")) events) failure
  = callbacks_of events failure.
Proof.
  induction events as [|e es IH]; [reflexivity|].
  cbn [filter]. destruct (has_type e "node_complete") eqn:Hn; cbn [negb].
  - rewrite callbacks_of_cons, (dispatch_node_complete e Hn). exact IH.
  - rewrite !callbacks_of_cons, IH. reflexivity.
Qed.

(** There is a terminal callback exactly when there is a terminal event
    or a failure that is reported. *)
Lemma callbacks_of_has_terminal (events : list JSON) (failure : option Thrown) :
  existsb is_terminal (callbacks_of events failure)
  = existsb is_terminal_event events || existsb is_terminal (after failure).
Proof.
  induction events as [|e es IH]; [reflexivity|].
  rewrite callbacks_of_cons. cbn [existsb].
  destruct (dispatch_cases e) as [C|[C|[C|[C|C]]]];
    decompose [and] C; clear C;
    repeat match goal with
           | H : dispatch e = _ |- _ => rewrite H; clear H
           | H : is_terminal_event e = _ |- _ => rewrite H; clear H
           end;
    cbn [existsb app is_terminal orb]; try reflexivity; exact IH.
Qed.

(** Without a terminal event nothing raises: the events go to
    [onThinking] or nowhere, and the failure follows. *)
Lemma callbacks_of_no_terminal (events : list JSON) (failure : option Thrown) :
  filter is_terminal_event events = [] ->
  filter is_terminal (callbacks_of events failure) = after failure.
Proof.
  induction events as [|e es IH]; intros H.
  - rewrite callbacks_of_nil. apply after_terminal.
  - rewrite callbacks_of_cons. cbn [filter] in H.
    destruct (dispatch_cases e) as [C|[C|[C|[C|C]]]];
      decompose [and] C; clear C;
      match goal with
      | Ht : is_terminal_event e = _ |- _ => rewrite Ht in H
      end; try discriminate;
      match goal with
      | Hd : dispatch e = _ |- _ => rewrite Hd
      end; cbn [app filter is_terminal]; auto.
Qed.

(** With one terminal event there is one terminal callback for it; the
    failure follows unless the event raised. *)
Lemma callbacks_of_one_terminal
    (events : list JSON) (failure : option Thrown) (e : JSON) :
  filter is_terminal_event events = [e] ->
  filter is_terminal (callbacks_of events failure)
  = match dispatch e with
    | Ok calls => calls ++ after failure
    | TypeError => [onError EngineTypeError]
    end.
Proof.
  induction events as [|x xs IH]; intros H; [discriminate|].
  rewrite callbacks_of_cons. cbn [filter] in H.
  destruct (dispatch_cases x) as [C|[C|[C|[C|C]]]];
    decompose [and] C; clear C;
    match goal with
    | Ht : is_terminal_event x = _ |- _ => rewrite Ht in H
    end;
    try (injection H as -> H;
         match goal with
         | Hd : dispatch e = _ |- _ => rewrite Hd
         end; cbn [app filter is_terminal]; try reflexivity;
         f_equal; apply callbacks_of_no_terminal; exact H);
    match goal with
    | Hd : dispatch x = _ |- _ => rewrite Hd
    end; cbn [app filter is_terminal]; auto.
Qed.

(** The number of terminal signals of a response: its terminal events,
    and its failure unless that is an abort. *)
Definition terminal_signals (JSON_parse : jsstring -> option JSON) (r : Response) : nat :=
  (List.length (filter is_terminal_event (stream_events JSON_parse r))
   + match failure r with
     | Some t => if is_abort t then 0 else 1
     | None => 0
     end)%nat.

Lemma existsb_nil_iff (A : Type) (f : A -> bool) (l : list A) :
  existsb f l = false <-> filter f l = [].
Proof.
  induction l as [|x l IH]; simpl; [tauto|].
  destruct (f x); simpl; [split; discriminate|exact IH].
Qed.

(** A response has a terminal callback exactly when it has a terminal
    signal. *)
Lemma has_terminal_callback (JSON_parse : jsstring -> option JSON) (r : Response) :
  existsb is_terminal (fetchStream JSON_parse r)
  = negb (Nat.eqb (terminal_signals JSON_parse r) 0).
Proof.
  rewrite fetchStream_events, callbacks_of_has_terminal.
  unfold terminal_signals, after.
  destruct (filter is_terminal_event (stream_events JSON_parse r)) as [|e es] eqn:Ef.
  - apply existsb_nil_iff in Ef. rewrite Ef. cbn [orb List.length Nat.add].
    destruct (failure r) as [t|]; [|reflexivity].
    destruct (catch_handler_cases t) as [[-> ->]|[-> [err ->]]]; reflexivity.
  - assert (Hex : existsb is_terminal_event (stream_events JSON_parse r) = true).
    { destruct (existsb is_terminal_event (stream_events JSON_parse r)) eqn:Hx;
        [reflexivity|].
      apply existsb_nil_iff in Hx. congruence. }
    rewrite Hex. reflexivity.
Qed.

(** ** A stream that is cut short *)

(** An abort that ends the events adds no callback. *)
Lemma callbacks_of_abort (events : list JSON) (t : Thrown) :
  is_abort t = true -> callbacks_of events (Some t) = callbacks_of events None.
Proof.
  intros Ha. induction events as [|e es IH].
  - rewrite !callbacks_of_nil. unfold after.
    destruct (catch_handler_cases t) as [[_ ->]|[Hn _]]; [reflexivity|congruence].
  - rewrite !callbacks_of_cons, IH. reflexivity.
Qed.

(** The callbacks of the first events are the beginning of the callbacks
    of all of them. *)
Lemma callbacks_of_app_prefix (first rest : list JSON) (failure : option Thrown) :
  exists later,
    callbacks_of (first ++ rest) failure = callbacks_of first None ++ later.
Proof.
  induction first as [|e es [later IH]]; cbn [app].
  - exists (callbacks_of rest failure). reflexivity.
  - rewrite !callbacks_of_cons. destruct (dispatch e) as [calls|].
    + exists later. rewrite IH. apply app_assoc.
    + exists []. reflexivity.
Qed.

(** The lines that reach the client while the first chunks are read are
    the first lines that reach it in the end. *)
Lemma stream_lines_prefix (chunks : list jsstring) (ending : ReadEnd)
    (received : nat) :
  exists rest,
    stream_lines chunks ending
    = removelast (split (concat (firstn received chunks))) ++ rest.
Proof.
  assert (E : concat chunks
              = concat (firstn received chunks) ++ concat (skipn received chunks))
    by (rewrite <- concat_app, firstn_skipn; reflexivity).
  unfold stream_lines. rewrite E.
  destruct ending as [|e].
  - rewrite split_app. eexists; reflexivity.
  - rewrite removelast_split_app. eexists; reflexivity.
Qed.

(** Cutting a stream short by an abort only cuts its callbacks short:
    what the client invokes for the chunks received before the abort is
    the beginning of what it invokes for the whole stream. *)
Lemma aborted_stream_is_a_prefix (JSON_parse : jsstring -> option JSON)
    (chunks : list jsstring) (ending : ReadEnd) (received : nat) (t : Thrown) :
  is_abort t = true ->
  exists later,
    fetchStream JSON_parse (Body chunks ending)
    = fetchStream JSON_parse (Body (firstn received chunks) (ReadThrows t))
      ++ later.
Proof.
  intros Ha. rewrite !fetchStream_events.
  cbn [failure stream_events]. rewrite (@callbacks_of_abort _ t Ha).
  destruct (stream_lines_prefix chunks ending received) as [rest ->].
  cbn [stream_lines]. rewrite flat_map_app.
  apply callbacks_of_app_prefix.
Qed.

(** ** Which lines are events *)

Lemma strip_prefix_spec (p s r : jsstring) :
  strip_prefix p s = Some r <-> s = p ++ r.
Proof.
  revert s; induction p as [|x p IH]; intros s; simpl.
  - split; congruence.
  - destruct s as [|y s]; [split; discriminate|].
    destruct (N.eqb_spec x y) as [->|Hne].
    + rewrite IH. split; congruence.
    + split; [discriminate|congruence].
Qed.

Lemma startsWith_spec (s p : jsstring) :
  startsWith s p = true <-> exists rest, s = p ++ rest.
Proof.
  unfold startsWith. destruct (strip_prefix p s) as [r|] eqn:E.
  - apply strip_prefix_spec in E. split; eauto.
  - split; [discriminate|]. intros [rest H].
    apply strip_prefix_spec in H. congruence.
Qed.

Section Lines.

Variable JSON_parse : jsstring -> option JSON.

(** What [parseSSELine] returns for a line with the prefix. *)
Lemma parseSSELine_data (jsonStr : jsstring) :
  parseSSELine JSON_parse (units "data: " ++ jsonStr)
  = if is_empty jsonStr || str_eqb jsonStr (units "[DONE]") then JNull
    else match JSON_parse jsonStr with Some v => v | None => JNull end.
Proof.
  unfold parseSSELine.
  assert (H : startsWith (units "data: " ++ jsonStr) (units "data: ") = true)
    by (apply startsWith_spec; eauto).
  rewrite H. reflexivity.
Qed.

(** [parseSSELine] returns a value other than [null] exactly for a line
    that starts with the prefix and goes on with a text, not empty and not
    the end marker, that [JSON.parse] accepts with a value other than
    [null]. *)
Lemma parseSSELine_not_null (line : jsstring) (v : JSON) :
  v <> JNull ->
  (parseSSELine JSON_parse line = v <->
   exists jsonStr,
     line = units "data: " ++ jsonStr /\ jsonStr <> [] /\
     jsonStr <> units "[DONE]" /\ JSON_parse jsonStr = Some v).
Proof.
  intros Hv. split.
  - intros H. destruct (startsWith line (units "data: ")) eqn:Hs.
    + apply startsWith_spec in Hs as [jsonStr ->].
      rewrite parseSSELine_data in H. exists jsonStr.
      destruct (is_empty jsonStr) eqn:He; [simpl in H; congruence|].
      destruct (str_eqb jsonStr (units "[DONE]")) eqn:Hd; [simpl in H; congruence|].
      simpl in H. split; [reflexivity|]. split.
      { intros ->; discriminate. }
      split.
      { intros E; apply str_eqb_eq in E; congruence. }
      destruct (JSON_parse jsonStr); congruence.
    + unfold parseSSELine in H. rewrite Hs in H. simpl in H. congruence.
  - intros [jsonStr [-> [Hne [Hd Hp]]]].
    rewrite parseSSELine_data, Hp.
    destruct jsonStr as [|c rest]; [congruence|]. cbn [is_empty orb].
    destruct (str_eqb (c :: rest) (units "[DONE]")) eqn:E; [|reflexivity].
    apply str_eqb_eq in E; congruence.
Qed.

(** A line stands for the event [e] exactly when, once trimmed, it starts
    with the prefix and goes on with a text other than the end marker that
    [JSON.parse] accepts with the value [e], and [e] is not falsy. *)
Lemma line_event_spec (line : jsstring) (e : JSON) :
  In e (line_event JSON_parse line) <->
  exists jsonStr,
    trim line = units "data: " ++ jsonStr /\ jsonStr <> [] /\
    jsonStr <> units "[DONE]" /\ JSON_parse jsonStr = Some e /\
    truthy e = true.
Proof.
  assert (Hnull : forall v, truthy v = true -> v <> JNull)
    by (intros v H ->; discriminate).
  unfold line_event. split.
  - destruct (is_empty (trim line)); [intros []|].
    destruct (truthy (parseSSELine JSON_parse (trim line))) eqn:Ht; [|intros []].
    intros [<-|[]].
    destruct (proj1 (parseSSELine_not_null (trim line) (Hnull _ Ht)) eq_refl)
      as [jsonStr H].
    exists jsonStr; tauto.
  - intros [jsonStr [Hl [Hne [Hd [Hp Ht]]]]].
    assert (Hv : parseSSELine JSON_parse (trim line) = e).
    { apply parseSSELine_not_null; [auto|]. exists jsonStr; tauto. }
    rewrite Hl at 1. cbn [units list_ascii_of_string map app is_empty].
    rewrite Hv, Ht. left; reflexivity.
Qed.

End Lines.

(** ** Sample streams *)

(** A stream that carries a [complete] event and then an [error] event. *)
Definition two_terminal_events : Response :=
  Body [wire "data: {'type':'complete','result':{},'timestamp':1}";
        [10; 10];
        wire "data: {'type':'error','message':'late','timestamp':2}";
        [10; 10]]
       Done.

(** A stream whose [complete] event arrives, after which a read fails. *)
Definition connection_lost_after_complete : Response :=
  Body [wire "data: {'type':'complete','result':{},'timestamp':1}";
        [10; 10]]
       (ReadThrows
          (ThrownError (PlatformError (units "TypeError") (units "network error")))).

(** A stream of one run, cut into chunks in the middle of lines. *)
Definition priced_run_stream : Response :=
  Body [wire "data: {'type':'node_start','node':'vision','message':'a','timestamp':1}";
        [10; 10];
        wire "data: {'type':'thinking','node':'vision','mess";
        wire "age':'b','timestamp':2}";
        [10; 10];
        wire "data: {'type':'node_complete','node':'vision','message':'c','timestamp':3}";
        [10; 10];
        wire "data: {'type':'progress','node':'price','message':'d','timestamp':4}";
        [10];
        [10];
        wire "data: {'type':'complete','result':{'classification':'unknown'},'timestamp':5}";
        [10; 10];
        wire "data: [DONE]";
        [10; 10]]
       Done.

(** A stream with an [error] event whose message is an object with a
    member [toString], so that it has no string form, and a [thinking]
    event after it. *)
Definition unreadable_error_then_thinking : Response :=
  Body [wire "data: {'type':'error','message':{'toString':1},'timestamp':1}";
        [10; 10];
        wire "data: {'type':'thinking','node':'vision','message':'b','timestamp':2}";
        [10; 10]]
       Done.

(** C3. For every response with exactly one terminal signal (one
    [complete] or [error] event and no failure other than an abort, or no
    such event and one failure), the consumer receives exactly one
    terminal callback: [onComplete] with the result of the [complete]
    event; or [onError] for the [error] event, with the [Error] built
    from the message of the event or, when that message has no string
    form, with the [TypeError] that building it raises; or [onError] for
    the failure. *)
Theorem one_terminal_signal_one_terminal_callback
    (JSON_parse : jsstring -> option JSON) (r : Response) :
  terminal_signals JSON_parse r = 1%nat ->
  exists c,
    filter is_terminal (fetchStream JSON_parse r) = [c] /\
    match c with
    | onComplete result =>
        exists e, In e (stream_events JSON_parse r) /\
                  has_type e "complete" = true /\
                  result = prop e (units "result")
    | onError err =>
        (exists e, In e (stream_events JSON_parse r) /\
                   has_type e "error" = true /\
                   (new_Error (prop e (units "message")) = Ok err
                    \/ (new_Error (prop e (units "message")) = TypeError
                        /\ err = EngineTypeError)))
        \/ (exists t, failure r = Some t /\ is_abort t = false /\
                      catch_handler t = [onError err])
    | onThinking _ => False
    end.
Proof.
  intros H. rewrite fetchStream_events. unfold terminal_signals in H.
  destruct (filter is_terminal_event (stream_events JSON_parse r))
    as [|e [|e' es]] eqn:Ef; simpl in H.
  - rewrite (callbacks_of_no_terminal _ _ Ef). unfold after.
    destruct (failure r) as [t|]; [|discriminate].
    destruct (catch_handler_cases t) as [[Ha Hc]|[Ha [err Hc]]];
      rewrite Ha in H; [discriminate|].
    exists (onError err). rewrite Hc. split; [reflexivity|].
    right. exists t. auto.
  - assert (Hin : In e (filter is_terminal_event (stream_events JSON_parse r)))
      by (rewrite Ef; left; reflexivity).
    apply filter_In in Hin as [Hin Hterm].
    assert (Hf : after (failure r) = []).
    { unfold after. destruct (failure r) as [t|]; [|reflexivity].
      destruct (catch_handler_cases t) as [[Ha Hc]|[Ha _]];
        rewrite Ha in H; [assumption|discriminate]. }
    rewrite (callbacks_of_one_terminal _ _ Ef), Hf.
    destruct (dispatch_cases e) as [C|[C|[C|[C|C]]]];
      decompose [and] C; clear C; try congruence;
      match goal with
      | Hd : dispatch e = _ |- _ => rewrite Hd
      end; cbn [app].
    + eexists; split; [reflexivity|]. exists e. auto.
    + eexists; split; [reflexivity|]. left. exists e. auto.
    + eexists; split; [reflexivity|]. left. exists e. auto.
  - lia.
Qed.

(** C3, an instance: the stream of one run, cut into chunks in the middle
    of lines, carries one terminal event and yields one terminal callback. *)
Lemma one_terminal_callback_for_a_run :
  terminal_signals JSON_parse_model priced_run_stream = 1%nat /\
  exists c,
    filter is_terminal (fetchStream JSON_parse_model priced_run_stream) = [c] /\
    match c with
    | onComplete result =>
        exists e, In e (stream_events JSON_parse_model priced_run_stream) /\
                  has_type e "complete" = true /\
                  result = prop e (units "result")
    | onError err =>
        (exists e, In e (stream_events JSON_parse_model priced_run_stream) /\
                   has_type e "error" = true /\
                   (new_Error (prop e (units "message")) = Ok err
                    \/ (new_Error (prop e (units "message")) = TypeError
                        /\ err = EngineTypeError)))
        \/ (exists t, failure priced_run_stream = Some t /\ is_abort t = false /\
                      catch_handler t = [onError err])
    | onThinking _ => False
    end.
Proof.
  split; [vm_compute; reflexivity|].
  apply (one_terminal_signal_one_terminal_callback JSON_parse_model priced_run_stream).
  vm_compute; reflexivity.
Defined.

(** C3 as the specification states it fails: a stream whose connection
    breaks after its [complete] event gets [onComplete] and then
    [onError], and so does a stream that carries a [complete] event and
    then an [error] event. *)
Lemma complete_then_error_calls_both :
  fetchStream JSON_parse_model connection_lost_after_complete
  = [onComplete (Some (JObject []));
     onError (PlatformError (units "TypeError") (units "network error"))]
  /\ fetchStream JSON_parse_model two_terminal_events
     = [onComplete (Some (JObject []));
        onError (NewError (Some (JString (units "late"))))].
Proof. split; vm_compute; reflexivity. Qed.

(** A list in the order of another, with some of its items left out. *)
Inductive subsequence (A : Type) : list A -> list A -> Prop :=
| subsequence_nil : subsequence [] []
| subsequence_skip (x : A) (s l : list A) :
    subsequence s l -> subsequence s (x :: l)
| subsequence_keep (x : A) (s l : list A) :
    subsequence s l -> subsequence (x :: s) (x :: l).

Lemma subsequence_nil_l (A : Type) (l : list A) : subsequence [] l.
Proof. induction l; constructor; assumption. Qed.

Lemma filter_subsequence (A : Type) (f : A -> bool) (l : list A) :
  subsequence (filter f l) l.
Proof.
  induction l as [|x l IH]; simpl; [constructor|].
  destruct (f x); constructor; assumption.
Qed.

Lemma reached_subsequence (events : list JSON) :
  subsequence (reached events) events.
Proof.
  induction events as [|e es IH]; simpl; [constructor|].
  destruct (raises e); constructor; [apply subsequence_nil_l|assumption].
Qed.

Lemma subsequence_trans (A : Type) (a b c : list A) :
  subsequence a b -> subsequence b c -> subsequence a c.
Proof.
  intros Hab Hbc. revert a Hab.
  induction Hbc as [|x s l Hbc IH|x s l Hbc IH]; intros a Hab.
  - exact Hab.
  - constructor. apply IH, Hab.
  - inversion Hab; subst; constructor; apply IH; assumption.
Qed.

(** Where nothing raises, every event is reached. *)
Lemma reached_all (events : list JSON) :
  existsb raises events = false -> reached events = events.
Proof.
  induction events as [|e es IH]; simpl; [reflexivity|].
  destruct (raises e); simpl; [discriminate|]. intros H. rewrite IH by exact H.
  reflexivity.
Qed.

(** C4. The events handed to [onThinking] follow the wire: they are a
    subsequence of the parsed events of the stream, namely the thinking
    events among those the client gets to, in the order of the wire and
    each as often as it occurs; the client gets to every event unless an
    [error] event whose message has no string form stops it. A line
    stands for an event exactly when, once trimmed, it starts with the
    prefix followed by a text, not empty and not the end marker, that
    [JSON.parse] accepts with a value that is not falsy; [parseSSELine]
    returns a value other than [null] exactly when that text parses to
    it. *)
Theorem thinking_events_follow_the_wire
    (JSON_parse : jsstring -> option JSON) (r : Response) :
  subsequence (thinking_of (fetchStream JSON_parse r)) (stream_events JSON_parse r)
  /\ thinking_of (fetchStream JSON_parse r)
     = filter is_thinking_event (reached (stream_events JSON_parse r))
  /\ (existsb raises (stream_events JSON_parse r) = false ->
      thinking_of (fetchStream JSON_parse r)
      = filter is_thinking_event (stream_events JSON_parse r))
  /\ (forall e,
        raises e = true <->
        has_type e "error" = true /\
        exists v, prop e (units "message") = Some v /\ has_string_form v = false)
  /\ (forall line e,
        In e (line_event JSON_parse line) <->
        exists jsonStr,
          trim line = units "data: " ++ jsonStr /\ jsonStr <> [] /\
          jsonStr <> units "[DONE]" /\ JSON_parse jsonStr = Some e /\
          truthy e = true)
  /\ (forall line v,
        v <> JNull ->
        (parseSSELine JSON_parse line = v <->
         exists jsonStr,
           line = units "data: " ++ jsonStr /\ jsonStr <> [] /\
           jsonStr <> units "[DONE]" /\ JSON_parse jsonStr = Some v)).
Proof.
  assert (Heq : thinking_of (fetchStream JSON_parse r)
                = filter is_thinking_event (reached (stream_events JSON_parse r)))
    by (rewrite fetchStream_events; apply thinking_of_callbacks).
  split; [|split; [exact Heq|split; [|split; [|split]]]].
  - rewrite Heq.
    eapply subsequence_trans; [apply filter_subsequence|apply reached_subsequence].
  - intros Hn. rewrite Heq, reached_all by exact Hn. reflexivity.
  - exact raises_spec.
  - apply line_event_spec.
  - intros line v Hv. apply parseSSELine_not_null; assumption.
Qed.

(** C4 as the specification states it fails: the line [data: null]
    starts with the prefix and goes on with valid JSON, yet it is not an
    event. *)
Lemma null_payload_is_not_an_event :
  startsWith (wire "data: null") (units "data: ") = true /\
  JSON_parse_model (slice 6 (wire "data: null")) = Some JNull /\
  parseSSELine JSON_parse_model (wire "data: null") = JNull /\
  line_event JSON_parse_model (wire "data: null") = [] /\
  fetchStream JSON_parse_model (Body [wire "data: null"; [10; 10]] Done) = [].
Proof. vm_compute; repeat split; reflexivity. Qed.

(** A thinking event the client gets to is handed to [onThinking]. *)
Lemma reached_thinking_forwarded
    (events : list JSON) (failure : option Thrown) (e : JSON) :
  In e (reached events) ->
  is_thinking_event e = true ->
  In (onThinking e) (callbacks_of events failure).
Proof.
  induction events as [|x xs IH]; [intros []|].
  rewrite callbacks_of_cons. cbn [reached].
  destruct (dispatch_cases x) as [C|[C|[C|[C|C]]]];
    decompose [and] C; clear C;
    repeat match goal with
           | H : dispatch x = _ |- _ => rewrite H; clear H
           | H : raises x = _ |- _ => rewrite H; clear H
           end;
    intros [->|Hin] Hty; try congruence; try contradiction;
    try (apply in_or_app; right; apply IH; assumption).
  left; reflexivity.
Qed.

(** An [error] event the client gets to is answered by [onError]. *)
Lemma reached_error_reported
    (events : list JSON) (failure : option Thrown) (e : JSON) :
  In e (reached events) ->
  has_type e "error" = true ->
  exists err, In (onError err) (callbacks_of events failure).
Proof.
  induction events as [|x xs IH]; [intros []|].
  rewrite callbacks_of_cons. cbn [reached].
  destruct (dispatch_cases x) as [C|[C|[C|[C|C]]]];
    decompose [and] C; clear C;
    repeat match goal with
           | H : dispatch x = _ |- _ => rewrite H; clear H
           | H : raises x = _ |- _ => rewrite H; clear H
           end;
    intros [->|Hin] Hty; try contradiction;
    try (destruct (IH Hin Hty) as [err Herr]; exists err;
         apply in_or_app; right; exact Herr);
    try (eexists; left; reflexivity).
  - assert (Hx : units "complete" = units "error")
      by (eapply has_type_unique; eassumption). discriminate Hx.
  - assert (Hx : units "node_complete" = units "error")
      by (eapply has_type_unique; eassumption). discriminate Hx.
  - unfold is_terminal_event in *. rewrite Hty, orb_true_r in *. discriminate.
Qed.

(** C8. An event of type [node_complete] reaches no callback: dispatching
    it calls nothing, the callbacks of a response are those of its events
    with the [node_complete] events removed, and no event handed to
    [onThinking] has that type. Of the events the client gets to, those
    of type [thinking], [node_start] and [progress] go to [onThinking]
    and those of type [error] to [onError]; an [error] event whose
    message has no string form is reported by [onError] with the
    [TypeError] it raises, and no event after it reaches a callback. *)
Theorem node_complete_events_are_discarded
    (JSON_parse : jsstring -> option JSON) (r : Response) :
  (forall e, has_type e "node_complete" = true -> dispatch e = Ok [])
  /\ fetchStream JSON_parse r
     = callbacks_of
         (filter (fun e => negb (has_type e "node_complete"))
                 (stream_events JSON_parse r))
         (failure r)
  /\ Forall (fun e => has_type e "node_complete" = false)
            (thinking_of (fetchStream JSON_parse r))
  /\ (forall e,
        has_type e "thinking" = true \/ has_type e "node_start" = true
        \/ has_type e "progress" = true ->
        dispatch e = Ok [onThinking e])
  /\ (forall e,
        has_type e "error" = true ->
        (raises e = false /\
         dispatch e = Ok [onError (NewError (prop e (units "message")))])
        \/ (raises e = true /\
            forall later failure,
              callbacks_of (e :: later) failure = [onError EngineTypeError]))
  /\ (forall e,
        In e (reached (stream_events JSON_parse r)) ->
        is_thinking_event e = true ->
        In (onThinking e) (fetchStream JSON_parse r))
  /\ (forall e,
        In e (reached (stream_events JSON_parse r)) ->
        has_type e "error" = true ->
        exists err, In (onError err) (fetchStream JSON_parse r)).
Proof.
  split; [exact dispatch_node_complete|].
  split; [rewrite callbacks_of_without_node_complete;
          apply fetchStream_events|].
  split.
  { rewrite fetchStream_events, thinking_of_callbacks.
    apply Forall_forall. intros e He. apply filter_In in He as [_ He].
    unfold is_thinking_event in He. apply andb_true_iff in He as [_ He].
    apply negb_true_iff in He. exact He. }
  split.
  { intros e H. apply dispatch_thinking. unfold is_thinking_event.
    assert (Hc : has_type e "complete" = false)
      by (destruct H as [H|[H|H]];
          (eapply has_type_other; [exact H | vm_compute; discriminate])).
    assert (He : has_type e "error" = false)
      by (destruct H as [H|[H|H]];
          (eapply has_type_other; [exact H | vm_compute; discriminate])).
    assert (Hn : has_type e "node_complete" = false)
      by (destruct H as [H|[H|H]];
          (eapply has_type_other; [exact H | vm_compute; discriminate])).
    rewrite Hc, He, Hn. reflexivity. }
  split.
  { intros e He.
    destruct (dispatch_cases e) as [C|[C|[C|[C|C]]]];
      decompose [and] C; clear C;
      try (assert (Hx : units "error" = units "complete")
             by (eapply has_type_unique; eassumption); discriminate Hx);
      try (assert (Hx : units "error" = units "node_complete")
             by (eapply has_type_unique; eassumption); discriminate Hx).
    - left. split; assumption.
    - right. split; [assumption|]. intros later f.
      rewrite callbacks_of_cons.
      match goal with Hd : dispatch e = _ |- _ => rewrite Hd end. reflexivity.
    - unfold is_terminal_event in *. rewrite He, orb_true_r in *. discriminate. }
  rewrite fetchStream_events.
  split; intros e Hin Hty;
    [apply reached_thinking_forwarded|eapply reached_error_reported]; eassumption.
Qed.

(** C8 as the specification states it fails: in a stream with an [error]
    event whose message has no string form, the [thinking] event that
    follows is parsed and yet forwarded to no callback; the only callback
    is [onError] with the [TypeError]. *)
Lemma thinking_event_after_unreadable_error_is_lost :
  let lost := JObject [(units "type", JString (units "thinking"));
                       (units "node", JString (units "vision"));
                       (units "message", JString (units "b"));
                       (units "timestamp", JNumber 2 0)] in
  In lost (stream_events JSON_parse_model unreadable_error_then_thinking) /\
  has_type lost "thinking" = true /\
  fetchStream JSON_parse_model unreadable_error_then_thinking
  = [onError EngineTypeError].
Proof. vm_compute. repeat split. right; left; reflexivity. Qed.

(** C4, an instance: the line of a [thinking] event is an event, and it
    is what [parseSSELine] returns. *)
Lemma thinking_line_is_an_event :
  let line := wire "data: {'type':'thinking','message':'b'}" in
  let event := JObject [(units "type", JString (units "thinking"));
                        (units "message", JString (units "b"))] in
  event <> JNull /\
  parseSSELine JSON_parse_model line = event /\
  In event (line_event JSON_parse_model (line ++ [13]%N)) /\
  thinking_of (fetchStream JSON_parse_model priced_run_stream)
  = filter is_thinking_event (stream_events JSON_parse_model priced_run_stream).
Proof.
  cbv zeta.
  pose proof (thinking_events_follow_the_wire JSON_parse_model priced_run_stream)
    as [_ [_ [Hall [_ [Hline Hparse]]]]].
  split; [discriminate|]. split; [|split].
  - apply Hparse; [discriminate|].
    exists (wire "{'type':'thinking','message':'b'}").
    repeat split; try discriminate; vm_compute; reflexivity.
  - apply Hline.
    exists (wire "{'type':'thinking','message':'b'}").
    repeat split; try discriminate; vm_compute; reflexivity.
  - apply Hall. vm_compute. reflexivity.
Defined.

(** C8, an instance: in the stream of one run the [node_complete] event
    is dropped and the three other progress events reach [onThinking]. *)
Lemma node_complete_dropped_from_a_run :
  let dropped := JObject [(units "type", JString (units "node_complete"));
                          (units "node", JString (units "vision"));
                          (units "message", JString (units "c"));
                          (units "timestamp", JNumber 3 0)] in
  let kept := JObject [(units "type", JString (units "progress"));
                       (units "node", JString (units "price"));
                       (units "message", JString (units "d"));
                       (units "timestamp", JNumber 4 0)] in
  In dropped (stream_events JSON_parse_model priced_run_stream) /\
  dispatch dropped = Ok [] /\
  List.length (thinking_of (fetchStream JSON_parse_model priced_run_stream)) = 3%nat /\
  Forall (fun e => has_type e "node_complete" = false)
         (thinking_of (fetchStream JSON_parse_model priced_run_stream)) /\
  In (onThinking kept) (fetchStream JSON_parse_model priced_run_stream).
Proof.
  cbv zeta.
  pose proof (node_complete_events_are_discarded JSON_parse_model priced_run_stream)
    as [Hdrop [_ [Hall [_ [_ [Hkept _]]]]]].
  split; [vm_compute; tauto|].
  split; [apply Hdrop; vm_compute; reflexivity|].
  split; [vm_compute; reflexivity|].
  split; [exact Hall|].
  apply Hkept; [vm_compute; tauto|vm_compute; reflexivity].
Defined.

End Streaming.

(* ===================================================================== *)
(** * hooks/useStreamingAnalysis.ts *)
(* ===================================================================== *)

Module UseStreamingAnalysis.
Import JS Json Streaming.

(** [err.message]: the string form of the value the error was built from,
    the text of a platform error, or the text the engine gives a
    [TypeError] it raises. *)
Inductive Message :=
| MessageOf (v : option JSON)
| MessageText (s : jsstring)
| EngineText.

Definition error_message (e : JSError) : Message :=
  match e with
  | NewError v => MessageOf v
  | PlatformError _ m => MessageText m
  | EngineTypeError => EngineText
  end.

(** The state of the hook: its four [useState] cells and [cancelRef]. The
    cancel function of a stream is the [abort] of that stream's
    [AbortController]; a controller is named by a number. *)
Record State := {
  isLoading : bool;
  thinkingEvents : list JSON;
  result : option JSON;
  error : option Message;
  cancelRef : option nat;
}.

Definition initial : State :=
  {| isLoading := false;
     thinkingEvents := [];
     result := None;
     error := None;
     cancelRef := None |}.

(** What a call of the hook does to the outside. *)
Inductive Effect :=
| abort (controller : nat)
| stream_started (controller : nat) (imageBase64 : jsstring).

(** [if (cancelRef.current) { cancelRef.current(); cancelRef.current = null; }] *)
Definition run_cancelRef (st : State) : list Effect :=
  match cancelRef st with
  | Some controller => [abort controller]
  | None => []
  end.

Definition reset (st : State) : State * list Effect :=
  ({| isLoading := false;
      thinkingEvents := [];
      result := None;
      error := None;
      cancelRef := None |},
   run_cancelRef st).

Definition cancel (st : State) : State * list Effect :=
  ({| isLoading := false;
      thinkingEvents := thinkingEvents st;
      result := result st;
      error := error st;
      cancelRef := None |},
   run_cancelRef st).

(** [submitImage]; [controller] names the [AbortController] that
    [createAnalysisStream] makes for this call. *)
Definition submitImage (controller : nat) (imageBase64 : jsstring) (st : State)
    : State * list Effect :=
  let (st1, effects) := reset st in
  ({| isLoading := true;
      thinkingEvents := thinkingEvents st1;
      result := result st1;
      error := error st1;
      cancelRef := Some controller |},
   effects ++ [stream_started controller imageBase64]).

(** The three callbacks the hook passes to [createAnalysisStream]. *)
Definition handle (st : State) (c : Callback) : State :=
  match c with
  | onThinking event =>
      {| isLoading := isLoading st;
         thinkingEvents := thinkingEvents st ++ [event];
         result := result st;
         error := error st;
         cancelRef := cancelRef st |}
  | onComplete response =>
      {| isLoading := false;
         thinkingEvents := thinkingEvents st;
         result := response;
         error := error st;
         cancelRef := None |}
  | onError err =>
      {| isLoading := false;
         thinkingEvents := thinkingEvents st;
         result := result st;
         error := Some (error_message err);
         cancelRef := None |}
  end.

(** The callbacks of a stream, applied in order. *)
Definition deliver (calls : list Callback) (st : State) : State :=
  fold_left handle calls st.

(** The callbacks invoked in the loop while the given chunks are read and
    their complete lines processed; how the reads end has no part in
    them. *)
Definition received_callbacks (JSON_parse : jsstring -> option JSON)
    (chunks : list jsstring) : list Callback :=
  fst (read_loop JSON_parse chunks [] (ReadThrows ThrownValue)).

(** The hook holds the cancel function of a request until the first
    terminal callback. *)
Lemma deliver_cancelRef (calls : list Callback) (st : State) :
  cancelRef (deliver calls st)
  = if existsb is_terminal calls then None else cancelRef st.
Proof.
  unfold deliver. revert st.
  induction calls as [|c calls IH]; intros st; simpl; [reflexivity|].
  rewrite IH. destruct c; simpl; [reflexivity|..];
    destruct (existsb is_terminal calls); reflexivity.
Qed.

(** An abort that arrives while the body of a failed response is read is
    swallowed with every other failure of that read, and the failed
    response is reported. *)
Lemma abort_while_error_body_is_read_is_reported
    (JSON_parse : jsstring -> option JSON) (t : Thrown) :
  fetchStream JSON_parse (NotOk (ErrorJsonThrows t))
  = [onError (NewError (Some (JString (units "API request failed"))))].
Proof. reflexivity. Qed.

(** C5. [cancel] clears the loading state and leaves the other cells as
    they were. From [submitImage] until the first terminal callback the
    hook holds the cancel function of the request, and [cancel] aborts
    the controller that [createAnalysisStream] made for it; after a
    terminal callback the hook has dropped the function and [cancel]
    aborts nothing. An abort reaches the [catch] clause as an error named
    [AbortError], from [fetch] or from a read of the body, and the clause
    then calls nothing: a fetch that is aborted invokes no callback, and
    a stream that is aborted while it is read invokes the callbacks of
    the events received before and none for the abort; they are the
    beginning of those of the stream left alone. *)
Theorem cancellation_is_not_reported
    (JSON_parse : jsstring -> option JSON) (st : State)
    (controller : nat) (imageBase64 : jsstring) (calls : list Callback) :
  let st' := fst (cancel st) in
  let running := deliver calls (fst (submitImage controller imageBase64 st)) in
  isLoading st' = false
  /\ cancelRef st' = None
  /\ thinkingEvents st' = thinkingEvents st
  /\ result st' = result st
  /\ error st' = error st
  /\ (forall r, snd (createAnalysisStream JSON_parse controller r) = controller)
  /\ (existsb is_terminal calls = false ->
      snd (cancel running) = [abort controller])
  /\ (existsb is_terminal calls = true -> snd (cancel running) = [])
  /\ (forall t,
        is_abort t = true ->
        catch_handler t = []
        /\ fetchStream JSON_parse (FetchThrows t) = []
        /\ (forall chunks,
              fetchStream JSON_parse (Body chunks (ReadThrows t))
              = callbacks_of
                  (stream_events JSON_parse (Body chunks (ReadThrows t))) None)
        /\ (forall chunks ending received,
              exists later,
                fetchStream JSON_parse (Body chunks ending)
                = fetchStream JSON_parse
                    (Body (firstn received chunks) (ReadThrows t))
                  ++ later)
        /\ deliver (fetchStream JSON_parse (FetchThrows t)) st' = st').
Proof.
  cbv zeta.
  assert (Hc : forall t, is_abort t = true -> catch_handler t = []).
  { intros t Ha.
    destruct (catch_handler_cases t) as [[_ H]|[H _]]; [exact H|congruence]. }
  repeat (split; [reflexivity|]).
  split.
  { intros H. unfold cancel, run_cancelRef. cbn [snd].
    rewrite deliver_cancelRef, H. reflexivity. }
  split.
  { intros H. unfold cancel, run_cancelRef. cbn [snd].
    rewrite deliver_cancelRef, H. reflexivity. }
  intros t Ha.
  assert (Hf : fetchStream JSON_parse (FetchThrows t) = []).
  { unfold fetchStream, caught. cbn [try_block fst snd app]. apply Hc, Ha. }
  split; [apply Hc, Ha|]. split; [exact Hf|].
  split.
  { intros chunks. rewrite fetchStream_events. cbn [failure].
    apply callbacks_of_abort, Ha. }
  split.
  { intros chunks ending received. apply aborted_stream_is_a_prefix, Ha. }
  rewrite Hf. reflexivity.
Qed.

(** C5, an instance: an image is submitted and the request cancelled
    while the first event is still on its way. The controller of that
    request is aborted, the hook stops loading, and the aborted stream
    leaves no error behind. *)
Lemma cancelled_submission_shows_no_error :
  let submitted := fst (submitImage 7 (units "data:image/png;base64,AAAA") initial) in
  let cancelled := fst (cancel submitted) in
  let aborted :=
    Body [wire "data: {'type':'node_start','node':'vision','mess"]
         (ReadThrows AbortError) in
  isLoading submitted = true /\
  snd (createAnalysisStream JSON_parse_model 7 aborted) = 7%nat /\
  snd (cancel submitted) = [abort 7] /\
  isLoading cancelled = false /\
  fst (createAnalysisStream JSON_parse_model 7 aborted) = [] /\
  deliver (fst (createAnalysisStream JSON_parse_model 7 aborted)) cancelled
  = cancelled /\
  error cancelled = None.
Proof.
  cbv zeta.
  pose proof (cancellation_is_not_reported JSON_parse_model
                (fst (submitImage 7 (units "data:image/png;base64,AAAA") initial))
                7 (units "data:image/png;base64,AAAA") [])
    as [Hload [_ [_ [_ [_ [Hctl [_ [_ Habort]]]]]]]].
  pose proof (cancellation_is_not_reported JSON_parse_model initial
                7 (units "data:image/png;base64,AAAA") [])
    as [_ [_ [_ [_ [_ [_ [Heff _]]]]]]].
  destruct (Habort AbortError eq_refl) as [_ [_ [Hread _]]].
  split; [reflexivity|]. split; [apply Hctl|].
  split; [apply Heff; reflexivity|]. split; [exact Hload|].
  assert (Hnone : fst (createAnalysisStream JSON_parse_model 7
                         (Body [wire "data: {'type':'node_start','node':'vision','mess"]
                               (ReadThrows AbortError))) = []).
  { cbn [createAnalysisStream fst]. rewrite Hread. vm_compute. reflexivity. }
  split; [exact Hnone|]. split; [rewrite Hnone; reflexivity|reflexivity].
Defined.

(** A stream that stays open after its [complete] event: the end marker
    is still to come. *)
Definition open_after_complete : list jsstring :=
  [wire "data: {'type':'complete','result':{},'timestamp':1}";
   [10; 10]%N;
   wire "data: [DONE]";
   [10; 10]%N].

(** C5 as the specification states it fails: the consumer cancels after
    the [complete] event has arrived and while two chunks of the stream
    are still to come; the hook has dropped the cancel function and
    nothing is aborted. *)
Lemma cancel_after_complete_aborts_nothing :
  let submitted := fst (submitImage 7 (units "data:image/png;base64,AAAA") initial) in
  let early := received_callbacks JSON_parse_model (firstn 2 open_after_complete) in
  let running := deliver early submitted in
  cancelRef submitted = Some 7%nat /\
  early = [onComplete (Some (JObject []))] /\
  List.length (skipn 2 open_after_complete) = 2%nat /\
  snd (cancel running) = [].
Proof. vm_compute. repeat split. Qed.

End UseStreamingAnalysis.

(* ===================================================================== *)
(** * lib/api.ts : the API client *)
(* ===================================================================== *)

Module ApiClient.
Import JS Json Streaming.

(** ** Authentication *)

(** [auth.currentUser]: [getIdToken(forceRefresh)] resolves to a token or
    rejects ([None]). *)
Record User := {
  getIdToken : bool -> option jsstring;
}.

Record Auth := {
  isFirebaseConfigured : bool;
  currentUser : option User;
}.

(** ** Requests and responses *)

Definition Headers := list (jsstring * jsstring).

(** [headers[key] = value] *)
Fixpoint set_header (key value : jsstring) (headers : Headers) : Headers :=
  match headers with
  | [] => [(key, value)]
  | (k, v) :: rest =>
      if str_eqb k key then (k, value) :: rest
      else (k, v) :: set_header key value rest
  end.

(** The arguments of one call of [fetch]; [body] is the value that is
    passed through [JSON.stringify]. *)
Record Request := {
  url : jsstring;
  req_method : jsstring;
  headers : Headers;
  req_body : option JSON;
}.

(** [await response.json()] *)
Inductive JsonOutcome :=
| JsonValue (v : JSON)
| JsonThrows (e : Thrown).

Record HttpResponse := {
  status : Z;
  json : JsonOutcome;
}.

(** [response.ok]: the status is in the range 200 to 299. *)
Definition ok (r : HttpResponse) : bool :=
  (200 <=? status r)%Z && (status r <=? 299)%Z.

Inductive FetchOutcome :=
| FetchRejects (e : Thrown)
| Responds (r : HttpResponse).

(** What the client meets during one call of [apiRequest]: the state of
    authentication, the base URL of the build, and the answers to its
    first and, if it retries, its second [fetch]. *)
Record World := {
  auth : Auth;
  API_BASE_URL : jsstring;
  first_answer : FetchOutcome;
  retry_answer : FetchOutcome;
}.

(** [RequestOptions]: each field may be left out. *)
Record RequestOptions := {
  method : option jsstring;
  body : option JSON;
  requireAuth : option bool;
}.

(** What [apiRequest] does to the outside, in order. *)
Inductive Event :=
| GetIdToken (forceRefresh : bool)
| Fetch (request : Request) (answer : FetchOutcome).

(** How [apiRequest] ends: it resolves to a value, or rejects with an
    [ApiError] that carries [status] and [detail], or rejects with
    something else. *)
Inductive Outcome :=
| Returns (v : JSON)
| ThrowsApiError (status : Z) (detail : JSON)
| Throws (t : Thrown).

(** [!!token] for [string | null]. *)
Definition usable (token : option jsstring) : option jsstring :=
  match token with
  | Some (c :: rest) => Some (c :: rest)
  | _ => None
  end.

Definition getAuthToken (a : Auth) : list Event * option jsstring :=
  if negb (isFirebaseConfigured a) then ([], None)
  else
    match currentUser a with
    | None => ([], None)
    | Some user => ([GetIdToken false], getIdToken user false)
    end.

Definition refreshAuthToken (a : Auth) : list Event * option jsstring :=
  if negb (isFirebaseConfigured a) then ([], None)
  else
    match currentUser a with
    | None => ([], None)
    | Some user => ([GetIdToken true], getIdToken user true)
    end.

(** [body ? JSON.stringify(body) : undefined] *)
Definition sent_body (body : option JSON) : option JSON :=
  match body with
  | Some b => if truthy b then Some b else None
  | None => None
  end.

(** [throw new ApiError(status, response)]. The constructor reads
    [response.detail], which raises when [response] is [null], and hands
    the detail, or the default text in its place, to the constructor of
    [Error], which raises when the detail has no string form. In both
    cases what is thrown is the [TypeError] and not an [ApiError]. *)
Definition ApiError (status : Z) (response : JSON) : Outcome :=
  match get response (units "detail") with
  | Ok detail =>
      let message :=
        match detail with
        | Some d => if truthy d then d else JString (units "An error occurred")
        | None => JString (units "An error occurred")
        end in
      match new_Error (Some message) with
      | Ok _ => ThrowsApiError status message
      | TypeError => Throws raised
      end
  | TypeError => Throws raised
  end.

(** The end of [apiRequest], from [if (!response.ok)] on. *)
Definition settle (response : HttpResponse) : Outcome :=
  if negb (ok response) then
    let errorData :=
      match json response with
      | JsonValue v => v
      | JsonThrows _ =>
          JObject [(units "detail", JString (units "An error occurred"))]
      end in
    ApiError (status response) errorData
  else
    match json response with
    | JsonValue v => Returns v
    | JsonThrows e => Throws e
    end.

Definition apiRequest (w : World) (endpoint : jsstring) (options : RequestOptions)
    : list Event * Outcome :=
  let method := nullish (method options) (units "GET") in
  let requireAuth := nullish (requireAuth options) true in
  let headers0 := [(units "Content-Type", units "application/json")] in
  let '(events1, headers1) :=
    if requireAuth then
      let (events, token) := getAuthToken (auth w) in
      match usable token with
      | Some t => (events, set_header (units "Authorization") (units "Bearer " ++ t) headers0)
      | None => (events, headers0)
      end
    else ([], headers0) in
  let url := API_BASE_URL w ++ endpoint in
  let request1 :=
    {| url := url; req_method := method; headers := headers1;
       req_body := sent_body (body options) |} in
  match first_answer w with
  | FetchRejects e => (events1 ++ [Fetch request1 (first_answer w)], Throws e)
  | Responds response1 =>
      let events2 := events1 ++ [Fetch request1 (first_answer w)] in
      if (status response1 =? 401)%Z && requireAuth then
        let (events3, newToken) := refreshAuthToken (auth w) in
        match usable newToken with
        | Some t =>
            let headers2 :=
              set_header (units "Authorization") (units "Bearer " ++ t) headers1 in
            let request2 :=
              {| url := url; req_method := method; headers := headers2;
                 req_body := sent_body (body options) |} in
            let events4 := events2 ++ events3 ++ [Fetch request2 (retry_answer w)] in
            match retry_answer w with
            | FetchRejects e => (events4, Throws e)
            | Responds response2 => (events4, settle response2)
            end
        | None => (events2 ++ events3, settle response1)
        end
      else (events2, settle response1)
  end.

(** ** The history end point *)

(** [Number.MAX_SAFE_INTEGER] and [Number.isSafeInteger]. The numbers of
    the history query are integers; a number holds an integer of this
    range exactly, adds two of them exactly when the sum is in the range
    too, and a template literal prints it with all its digits. Beyond the
    range sums are rounded and the printed digits are shortened, which is
    outside this model: what is stated about limits and offsets is stated
    for safe integers. *)
Definition MAX_SAFE_INTEGER : Z := 2 ^ 53 - 1.

Definition isSafeInteger (n : Z) : bool :=
  (- MAX_SAFE_INTEGER <=? n)%Z && (n <=? MAX_SAFE_INTEGER)%Z.

(** The decimal form of a safe integer, as a template literal prints it. *)
Definition decimal (n : Z) : jsstring :=
  units (DecimalString.NilZero.string_of_int (Z.to_int n)).

(** [getAppraisalHistory]: the arguments it passes to [apiRequest]. *)
Definition getAppraisalHistory (limit offset : option Z) : jsstring * RequestOptions :=
  let limit := nullish limit 20%Z in
  let offset := nullish offset 0%Z in
  (units "/api/v1/appraisals?limit=" ++ decimal limit
     ++ units "&offset=" ++ decimal offset,
   {| method := None; body := None; requireAuth := Some true |}).

(** ** Reading a trace *)

Definition is_fetch (e : Event) : bool :=
  match e with Fetch _ _ => true | GetIdToken _ => false end.

Definition is_refresh (e : Event) : bool :=
  match e with GetIdToken true => true | _ => false end.

Definition fetches (trace : list Event) : nat :=
  List.length (filter is_fetch trace).

Definition refreshes (trace : list Event) : nat :=
  List.length (filter is_refresh trace).

(** The answer to the last [fetch] of a trace. *)
Definition last_answer (trace : list Event) : option FetchOutcome :=
  match rev (filter is_fetch trace) with
  | Fetch _ answer :: _ => Some answer
  | _ => None
  end.

(** The detail an [ApiError] carries for an error body. *)
Definition detail_of (errorBody : JsonOutcome) : JSON :=
  match errorBody with
  | JsonValue v =>
      match prop v (units "detail") with
      | Some d => if truthy d then d else JString (units "An error occurred")
      | None => JString (units "An error occurred")
      end
  | JsonThrows _ => JString (units "An error occurred")
  end.

(** ** Sample worlds *)

Definition unauthorized : HttpResponse :=
  {| status := 401;
     json := JsonValue (JObject [(units "detail", JString (units "Unauthorized"))]) |}.

Definition history_page : HttpResponse :=
  {| status := 200;
     json := JsonValue (JObject [(units "appraisals", JArray []);
                                 (units "total", JNumber 0 0)]) |}.

(** Firebase is configured but nobody is signed in; the server answers 401. *)
Definition signed_out_world : World :=
  {| auth := {| isFirebaseConfigured := true; currentUser := None |};
     API_BASE_URL := [];
     first_answer := Responds unauthorized;
     retry_answer := Responds history_page |}.

(** A failed response whose body is the JSON text [null]. *)
Definition null_error_world : World :=
  {| auth := {| isFirebaseConfigured := false; currentUser := None |};
     API_BASE_URL := [];
     first_answer := Responds {| status := 500; json := JsonValue JNull |};
     retry_answer := Responds history_page |}.

Definition history_call : jsstring * RequestOptions :=
  getAppraisalHistory (Some 20%Z) (Some 0%Z).

(** ** Facts *)

Lemma ApiError_not_Returns (status : Z) (response v : JSON) :
  ApiError status response <> Returns v.
Proof.
  unfold ApiError. destruct (get response (units "detail")) as [detail|];
    [|discriminate].
  cbv zeta. destruct (new_Error _); discriminate.
Qed.

Lemma settle_ok (r : HttpResponse) (v : JSON) :
  settle r = Returns v -> ok r = true /\ json r = JsonValue v.
Proof.
  unfold settle. destruct (ok r); simpl.
  - destruct (json r); intros H; inversion H; auto.
  - intros H. exfalso. exact (ApiError_not_Returns _ _ H).
Qed.

(** A failed response is reported by an [ApiError] when its body is not
    [null] and the detail the error is to carry has a string form. *)
Lemma settle_not_ok (r : HttpResponse) :
  ok r = false -> json r <> JsonValue JNull ->
  has_string_form (detail_of (json r)) = true ->
  settle r = ThrowsApiError (status r) (detail_of (json r)).
Proof.
  unfold settle, ApiError, detail_of, new_Error. intros -> Hn; simpl.
  destruct (json r) as [[]|]; simpl; try congruence; intros ->; reflexivity.
Qed.

(** With an error body that is [null], building the [ApiError] raises. *)
Lemma settle_null_body (r : HttpResponse) :
  ok r = false -> json r = JsonValue JNull -> settle r = Throws raised.
Proof. unfold settle. intros -> ->. reflexivity. Qed.

(** With a detail that has no string form, building the [ApiError]
    raises. *)
Lemma settle_unreadable_detail (r : HttpResponse) :
  ok r = false -> json r <> JsonValue JNull ->
  has_string_form (detail_of (json r)) = false ->
  settle r = Throws raised.
Proof.
  unfold settle, ApiError, detail_of, new_Error. intros -> Hn; simpl.
  destruct (json r) as [[]|]; simpl; try congruence; intros ->; reflexivity.
Qed.

Ltac api_cases w options :=
  unfold apiRequest, getAuthToken, refreshAuthToken;
  destruct (nullish (requireAuth options) true) eqn:?Hreq;
  destruct (isFirebaseConfigured (auth w)) eqn:?Hconf;
  destruct (currentUser (auth w)) as [?user|] eqn:?Huser;
  cbn [negb];
  try destruct (usable (getIdToken user false)) eqn:?Htok;
  destruct (first_answer w) as [?e|?r1] eqn:?Hfirst;
  try destruct (status r1 =? 401)%Z eqn:?H401;
  cbn [andb negb];
  try destruct (usable (getIdToken user true)) eqn:?Hnew;
  try destruct (retry_answer w) as [?e|?r2] eqn:?Hretry;
  cbn [fst snd usable].

(** C10. [apiRequest] sends the request once and, only when that answer
    has status 401, the call requires authentication and a forced refresh
    yields a token, once more; it never sends it a third time. With a
    signed-in user such a 401 always leads to a forced refresh, and to a
    second request exactly when the refresh yields a token. It
    resolves only to the parsed body of a last response that is ok; for a
    last response that is not ok, whose error body is not [null] and
    whose detail has a string form, it rejects with an [ApiError] that
    carries the status of that response and the detail of its body. *)
Theorem apiRequest_refreshes_and_retries_once
    (w : World) (endpoint : jsstring) (options : RequestOptions) :
  let trace := fst (apiRequest w endpoint options) in
  let outcome := snd (apiRequest w endpoint options) in
  (1 <= fetches trace <= 2)%nat
  /\ (refreshes trace <= 1)%nat
  /\ (fetches trace = 2%nat ->
      nullish (requireAuth options) true = true /\ refreshes trace = 1%nat /\
      exists r1, first_answer w = Responds r1 /\ status r1 = 401%Z)
  /\ (forall r1 user,
        nullish (requireAuth options) true = true ->
        first_answer w = Responds r1 -> status r1 = 401%Z ->
        isFirebaseConfigured (auth w) = true ->
        currentUser (auth w) = Some user ->
        refreshes trace = 1%nat /\
        (fetches trace = 2%nat <-> usable (getIdToken user true) <> None))
  /\ (forall v,
        outcome = Returns v ->
        exists r, last_answer trace = Some (Responds r) /\
                  ok r = true /\ json r = JsonValue v)
  /\ (forall r,
        last_answer trace = Some (Responds r) ->
        ok r = false -> json r <> JsonValue JNull ->
        has_string_form (detail_of (json r)) = true ->
        outcome = ThrowsApiError (status r) (detail_of (json r))).
Proof.
  cbv zeta.
  split; [|split; [|split; [|split; [|split]]]].
  - api_cases w options;
      unfold fetches; rewrite ?filter_app; simpl; lia.
  - api_cases w options;
      unfold refreshes; rewrite ?filter_app; simpl; lia.
  - api_cases w options;
      unfold fetches, refreshes; rewrite ?filter_app; simpl;
      intros H; try discriminate H;
      (split; [reflexivity|]; split; [reflexivity|];
       eexists; split; [reflexivity|]; apply Z.eqb_eq; assumption).
  - intros r1' user' Hr Hf Hs Hc Hu.
    revert Hr Hf Hc Hu.
    api_cases w options; intros Hr Hf Hc Hu;
      try discriminate; inversion Hf; subst;
      try match goal with
          | H : (status _ =? 401)%Z = false |- _ =>
              apply Z.eqb_neq in H; congruence
          end;
      match goal with
      | H : Some _ = Some _ |- _ => inversion H; subst
      end;
      (split;
       [ unfold refreshes; rewrite ?filter_app; reflexivity
       | unfold fetches; rewrite ?filter_app; simpl;
         split; intros H; congruence ]).
  - intros v.
    api_cases w options;
      unfold last_answer; rewrite ?filter_app, ?rev_app_distr; simpl;
      intros H; try discriminate H;
      apply settle_ok in H; destruct H as [H1 H2];
      (eexists; split; [reflexivity|]; split; assumption).
  - intros r.
    api_cases w options;
      unfold last_answer; rewrite ?filter_app, ?rev_app_distr; simpl;
      intros H Hok Hn Hs; inversion H; subst;
      apply settle_not_ok; assumption.
Qed.

(** C10 as the specification states it fails: with nobody signed in, a
    request that requires authentication and is answered 401 is settled
    without any forced refresh of a token. *)
Lemma signed_out_401_is_not_refreshed :
  apiRequest signed_out_world (fst history_call) (snd history_call)
  = ([Fetch {| url := units "/api/v1/appraisals?limit=20&offset=0";
               req_method := units "GET";
               headers := [(units "Content-Type", units "application/json")];
               req_body := None |}
            (Responds unauthorized)],
     ThrowsApiError 401 (JString (units "Unauthorized"))).
Proof. vm_compute; reflexivity. Qed.

(** A failed response whose body is [null] makes [apiRequest] reject with
    a [TypeError] instead of an [ApiError]. *)
Lemma null_error_body_raises_TypeError :
  snd (apiRequest null_error_world (fst history_call) (snd history_call))
  = Throws raised.
Proof. vm_compute; reflexivity. Qed.

(** A failed response whose detail is an object with a member [toString]
    of its own. *)
Definition unreadable_detail_world : World :=
  {| auth := {| isFirebaseConfigured := false; currentUser := None |};
     API_BASE_URL := [];
     first_answer :=
       Responds {| status := 500;
                   json := JsonValue
                             (JObject [(units "detail",
                                        JObject [(units "toString", JNumber 1 0)])]) |};
     retry_answer := Responds history_page |}.

(** A failed response whose detail has no string form makes [apiRequest]
    reject with a [TypeError] instead of an [ApiError]. *)
Lemma unreadable_detail_raises_TypeError :
  snd (apiRequest unreadable_detail_world (fst history_call) (snd history_call))
  = Throws raised.
Proof. vm_compute; reflexivity. Qed.

(** A signed-in user whose first token has expired: the server answers
    401, the forced refresh yields a new token, the retry succeeds. *)
Definition expired_token_world : World :=
  {| auth := {| isFirebaseConfigured := true;
                currentUser :=
                  Some {| getIdToken := fun forceRefresh =>
                            if forceRefresh then Some (units "new")
                            else Some (units "old") |} |};
     API_BASE_URL := units "https://api.example";
     first_answer := Responds unauthorized;
     retry_answer := Responds history_page |}.

(** C10, an instance: with an expired token the request is refreshed
    once, sent twice, and resolves to the body of the second response. *)
Lemma expired_token_is_refreshed_once :
  let run := apiRequest expired_token_world (fst history_call) (snd history_call) in
  refreshes (fst run) = 1%nat /\
  fetches (fst run) = 2%nat /\
  last_answer (fst run) = Some (Responds history_page) /\
  snd run = Returns (JObject [(units "appraisals", JArray []);
                              (units "total", JNumber 0 0)]) /\
  exists r, last_answer (fst run) = Some (Responds r) /\ ok r = true.
Proof.
  cbv zeta.
  pose proof (apiRequest_refreshes_and_retries_once expired_token_world
                (fst history_call) (snd history_call))
    as [_ [_ [_ [Hrefresh [Hreturn _]]]]].
  split.
  { eapply (Hrefresh unauthorized); reflexivity. }
  split.
  { eapply (Hrefresh unauthorized); try reflexivity. discriminate. }
  split; [vm_compute; reflexivity|].
  split; [vm_compute; reflexivity|].
  destruct (Hreturn (JObject [(units "appraisals", JArray []);
                              (units "total", JNumber 0 0)]))
    as [r [Hr [Hok _]]]; [vm_compute; reflexivity|].
  exists r. split; assumption.
Defined.

End ApiClient.

(* ===================================================================== *)
(** * hooks/useAppraisalHistory.ts *)
(* ===================================================================== *)

Module UseAppraisalHistory.
Import JS Json Api Streaming ApiClient.

(** The cells of the hook. The total, the offset and the page size are
    integers (see [isSafeInteger] for the range in which the sums and the
    printed forms below are those of the code). *)
Record State := {
  appraisals : list AppraisalDocument;
  total : Z;
  loading : bool;
  error : option JSError;
  offset : Z;
}.

Definition initial : State :=
  {| appraisals := []; total := 0; loading := true; error := None; offset := 0 |}.

(** What [getAppraisalHistory] resolves to; either field may be missing. *)
Record AppraisalHistoryResponse := {
  r_appraisals : option (list AppraisalDocument);
  r_total : option Z;
}.

(** How the awaited call ends. *)
Inductive Answer :=
| Resolves (data : AppraisalHistoryResponse)
| Rejects (t : Thrown).

(** [err instanceof Error ? err : new Error('Unknown error')] *)
Definition as_error (t : Thrown) : JSError :=
  match t with
  | ThrownError e => e
  | ThrownValue => NewError (Some (JString (units "Unknown error")))
  end.

Definition setOffset (o : Z) (st : State) : State :=
  {| appraisals := appraisals st; total := total st; loading := loading st;
     error := error st; offset := o |}.

Section Hook.

(** The page size the hook was called with, and the signed-in user. *)
Variable limit : Z.
Variable user : option User.

(** [fetchHistory(reset)]: the state once the call has settled, and the
    calls of [getAppraisalHistory] it made. The new offset [prev + limit]
    is the exact sum, as it is in the code while the sum is a safe
    integer. *)
Definition fetchHistory (reset : bool) (answer : Answer) (st : State)
    : State * list (jsstring * RequestOptions) :=
  match user with
  | None =>
      ({| appraisals := []; total := 0; loading := false;
          error := error st; offset := offset st |}, [])
  | Some _ =>
      let currentOffset := if reset then 0%Z else offset st in
      let call := getAppraisalHistory (Some limit) (Some currentOffset) in
      match answer with
      | Resolves data =>
          let appraisalList := nullish (r_appraisals data) [] in
          ({| appraisals :=
                if reset then appraisalList else appraisals st ++ appraisalList;
              total := nullish (r_total data) 0%Z;
              loading := false;
              error := None;
              offset := if reset then limit else (offset st + limit)%Z |},
           [call])
      | Rejects t =>
          ({| appraisals := appraisals st; total := total st; loading := false;
              error := Some (as_error t); offset := offset st |},
           [call])
      end
  end.

Definition refresh (answer : Answer) (st : State)
    : State * list (jsstring * RequestOptions) :=
  fetchHistory true answer (setOffset 0 st).

Definition loadMore (answer : Answer) (st : State)
    : State * list (jsstring * RequestOptions) :=
  if loading st || (Z.of_nat (List.length (appraisals st)) >=? total st)%Z
  then (st, [])
  else fetchHistory false answer st.

Definition hasMore (st : State) : bool :=
  (Z.of_nat (List.length (appraisals st)) <? total st)%Z.

(** C7. The history is read page by page, for a page size and offsets
    that are safe integers. Every request of [fetchHistory] is one call
    of [getAppraisalHistory] for [/api/v1/appraisals] with the page size
    and the current offset (0 on a reset). A [loadMore] that is answered
    moves the offset on by exactly the page size and puts the records of
    the answer after those already loaded. [loadMore] makes no request
    once as many records are loaded as the total says, and [hasMore]
    holds exactly when fewer are. *)
Theorem history_is_paginated (answer : Answer) (st : State) :
  (isSafeInteger limit = true ->
   isSafeInteger (offset st) = true ->
   forall reset,
     snd (fetchHistory reset answer st) = []
     \/ snd (fetchHistory reset answer st)
        = [(units "/api/v1/appraisals?limit=" ++ decimal limit
              ++ units "&offset=" ++ decimal (if reset then 0 else offset st),
            {| method := None; body := None; requireAuth := Some true |})])
  /\ (forall u reset,
        user = Some u -> snd (fetchHistory reset answer st) <> [])
  /\ (forall u data,
        user = Some u -> answer = Resolves data ->
        loading st = false ->
        (Z.of_nat (List.length (appraisals st)) < total st)%Z ->
        isSafeInteger limit = true ->
        isSafeInteger (offset st) = true ->
        isSafeInteger (offset st + limit) = true ->
        offset (fst (loadMore answer st)) = (offset st + limit)%Z /\
        appraisals (fst (loadMore answer st))
        = appraisals st ++ nullish (r_appraisals data) [] /\
        List.length (snd (loadMore answer st)) = 1%nat)
  /\ ((Z.of_nat (List.length (appraisals st)) >= total st)%Z ->
      loadMore answer st = (st, []))
  /\ (hasMore st = true <->
      (Z.of_nat (List.length (appraisals st)) < total st)%Z).
Proof.
  split; [|split; [|split; [|split]]].
  - intros Hlimit Hoffset reset. unfold fetchHistory, getAppraisalHistory.
    destruct user; [right|left; reflexivity].
    destruct answer; reflexivity.
  - intros u reset Hu. unfold fetchHistory. rewrite Hu.
    destruct answer; discriminate.
  - intros u data Hu Ha Hl Hlt Hlimit Hoffset Hsum. unfold loadMore. rewrite Hl.
    destruct (Z.geb_spec (Z.of_nat (List.length (appraisals st))) (total st));
      [lia|].
    simpl. unfold fetchHistory. rewrite Hu, Ha. simpl. auto.
  - intros Hge. unfold loadMore.
    destruct (Z.geb_spec (Z.of_nat (List.length (appraisals st))) (total st));
      [|lia].
    rewrite orb_true_r. reflexivity.
  - unfold hasMore. apply Z.ltb_lt.
Qed.

End Hook.

(** A signed-in user, one record loaded out of three, and an answer that
    brings one more. *)
Definition some_user : User := {| getIdToken := fun _ => Some (units "token") |}.

Definition one_of_three : State :=
  {| appraisals := [RecordBuilder.priceless_record];
     total := 3; loading := false; error := None; offset := 20 |}.

Definition next_page : AppraisalHistoryResponse :=
  {| r_appraisals := Some [RecordBuilder.failed_price_record];
     r_total := Some 3%Z |}.

(** C7, an instance: the second page is asked for at offset 20, moves the
    offset to 40 and lands after the first page. *)
Lemma second_page_is_appended :
  let after := loadMore 20 (Some some_user) (Resolves next_page) one_of_three in
  hasMore one_of_three = true /\
  snd after
  = [(units "/api/v1/appraisals?limit=20&offset=20",
      {| method := None; body := None; requireAuth := Some true |})] /\
  offset (fst after) = 40%Z /\
  appraisals (fst after)
  = [RecordBuilder.priceless_record; RecordBuilder.failed_price_record].
Proof.
  cbv zeta.
  pose proof (history_is_paginated 20 (Some some_user) (Resolves next_page)
                one_of_three)
    as [_ [_ [Hmore [_ Hhas]]]].
  split; [apply Hhas; simpl; lia|].
  split; [vm_compute; reflexivity|].
  destruct (Hmore some_user next_page eq_refl eq_refl eq_refl)
    as [Hoff [Happ _]]; [simpl; lia|reflexivity|reflexivity|reflexivity|].
  split; [rewrite Hoff; reflexivity|rewrite Happ; reflexivity].
Defined.

End UseAppraisalHistory.

(* ===================================================================== *)
(** * components/features/ImagePicker *)
(* ===================================================================== *)

Module ImagePicker.
Import JS.

Definition VALID_TYPES : list jsstring :=
  [units "image/jpeg"; units "image/png"; units "image/webp"].

Definition MAX_SIZE : Z := 10 * 1024 * 1024.

(** The two properties of a [File] that [processFile] reads. *)
Record File := {
  type : jsstring;
  size : Z;
}.

(** The cells of the component that [processFile] writes. *)
Record State := {
  preview : option jsstring;
  error : option jsstring;
}.

(** How [reader.readAsDataURL(file)] ends: [onload] with the data URL, or
    [onerror]. *)
Inductive ReadOutcome :=
| Loaded (result : jsstring)
| Failed.

(** [VALID_TYPES.includes(t)] *)
Definition includes (l : list jsstring) (t : jsstring) : bool :=
  existsb (fun x => str_eqb x t) l.

(** The three messages, as UTF-16 code units: "choose an image in JPEG,
    PNG or WebP format", "keep the file size at 10MB or less", "reading
    the image failed". *)
Definition type_message : jsstring :=
  [74; 80; 69; 71; 12289; 80; 78; 71; 12289; 87; 101; 98; 80; 24418; 24335;
   12398; 30011; 20687; 12434; 36984; 25246; 12375; 12390; 12367; 12384;
   12373; 12356]%N.

Definition size_message : jsstring :=
  [12501; 12449; 12452; 12523; 12469; 12452; 12474; 12399; 49; 48; 77; 66;
   20197; 19979; 12395; 12375; 12390; 12367; 12384; 12373; 12356]%N.

Definition read_message : jsstring :=
  [30011; 20687; 12398; 35501; 12415; 36796; 12415; 12395; 22833; 25943;
   12375; 12414; 12375; 12383]%N.

(** [processFile]: the state once the reader has settled, and the values
    [onImageSelect] was invoked with. *)
Definition processFile (file : File) (read : ReadOutcome) (st : State)
    : State * list jsstring :=
  if negb (includes VALID_TYPES (type file)) then
    ({| preview := preview st; error := Some type_message |}, [])
  else if (size file >? MAX_SIZE)%Z then
    ({| preview := preview st; error := Some size_message |}, [])
  else
    match read with
    | Loaded base64 => ({| preview := Some base64; error := None |}, [base64])
    | Failed => ({| preview := preview st; error := Some read_message |}, [])
    end.

Lemma includes_In (l : list jsstring) (t : jsstring) :
  includes l t = true <-> In t l.
Proof.
  unfold includes. rewrite existsb_exists. split.
  - intros [x [Hin Heq]]. apply str_eqb_eq in Heq. congruence.
  - intros Hin. exists t. split; [assumption|apply str_eqb_refl].
Qed.

(** C9. [onImageSelect] is invoked only for a file whose type is one of
    [image/jpeg], [image/png], [image/webp] and whose size is at most
    10485760 bytes; for a file that fails either check [processFile] sets
    an error message and does not invoke [onImageSelect]. *)
Theorem only_valid_images_are_submitted
    (file : File) (read : ReadOutcome) (st : State) :
  MAX_SIZE = 10485760%Z
  /\ (snd (processFile file read st) <> [] ->
      (type file = units "image/jpeg" \/ type file = units "image/png"
       \/ type file = units "image/webp")
      /\ (size file <= 10485760)%Z)
  /\ ((~ In (type file) VALID_TYPES \/ (size file > 10485760)%Z) ->
      snd (processFile file read st) = []
      /\ exists msg, error (fst (processFile file read st)) = Some msg).
Proof.
  split; [reflexivity|].
  unfold processFile.
  destruct (includes VALID_TYPES (type file)) eqn:Hi; cbn [negb].
  - apply includes_In in Hi.
    destruct (Z.gtb_spec (size file) MAX_SIZE) as [Hgt|Hle].
    + split; [intros H; exfalso; apply H; reflexivity|].
      intros _. split; [reflexivity|eexists; reflexivity].
    + split.
      * intros _. split.
        { simpl in Hi. intuition (symmetry; assumption). }
        { exact Hle. }
      * intros [Hn|Hgt]; [contradiction|].
        change MAX_SIZE with 10485760%Z in Hle. lia.
  - split; [intros H; exfalso; apply H; reflexivity|].
    intros _. split; [reflexivity|eexists; reflexivity].
Qed.

(** C9, an instance: a small PNG is handed to [onImageSelect]; the same
    file one byte over the limit is refused with a message. *)
Lemma png_accepted_oversized_refused :
  let small := {| type := units "image/png"; size := 1024 |} in
  let large := {| type := units "image/png"; size := 10485761 |} in
  let st := {| preview := None; error := None |} in
  snd (processFile small (Loaded (units "data:image/png;base64,AAAA")) st)
  = [units "data:image/png;base64,AAAA"] /\
  (size small <= 10485760)%Z /\
  snd (processFile large (Loaded (units "data:image/png;base64,AAAA")) st) = [] /\
  exists msg,
    error (fst (processFile large (Loaded (units "data:image/png;base64,AAAA")) st))
    = Some msg.
Proof.
  cbv zeta.
  pose proof (only_valid_images_are_submitted
                {| type := units "image/png"; size := 1024 |}
                (Loaded (units "data:image/png;base64,AAAA"))
                {| preview := None; error := None |})
    as [_ [Hvalid _]].
  pose proof (only_valid_images_are_submitted
                {| type := units "image/png"; size := 10485761 |}
                (Loaded (units "data:image/png;base64,AAAA"))
                {| preview := None; error := None |})
    as [_ [_ Hinvalid]].
  split; [reflexivity|].
  split; [apply Hvalid; discriminate|].
  apply Hinvalid. right. simpl. lia.
Defined.

End ImagePicker.

(* ===================================================================== *)
(** * Further properties of the reconstruction *)
(* ===================================================================== *)

Module ReconstructionFacts.
Import JS Api HistoryPage.

(** X1. [toAnalyzeResponse] returns for every record, also for one that
    lacks its vision result. The result carries the record's id, has a
    price exactly when the record has a price result and a confidence
    exactly when it has a vision result, and never has a message or a
    recommendation. *)
Theorem reconstruction_never_raises (doc : AppraisalDocument) :
  exists r,
    toAnalyzeResponse doc = Ok r /\
    appraisal_id r = Some (id doc) /\
    (ar_price r = None <-> price doc = None) /\
    (ar_confidence r = None <-> vision doc = None) /\
    message r = None /\
    recommendation r = None.
Proof.
  unfold toAnalyzeResponse.
  destruct (price doc) as [p|], (vision doc) as [v|], (search doc) as [s|];
    simpl; eexists; (split; [reflexivity|]); simpl;
    repeat split; intros; congruence.
Qed.

(** X2. The reconstruction answers [unknown] exactly for the termination
    point [vision_unknown] and [prohibited] exactly for
    [vision_prohibited]; for every other termination point it answers
    [unique_item] when the search result says so and [mass_product]
    otherwise. *)
Theorem reconstructed_classification_cases (doc : AppraisalDocument) :
  exists r,
    toAnalyzeResponse doc = Ok r /\
    (classification r = prohibited <-> termination_point doc = vision_prohibited) /\
    (classification r = unknown <-> termination_point doc = vision_unknown) /\
    (classification r = unique_item <->
     termination_point doc <> vision_prohibited /\
     termination_point doc <> vision_unknown /\
     exists s, search doc = Some s /\ s_classification s = mc_unique_item) /\
    (classification r = mass_product <->
     termination_point doc <> vision_prohibited /\
     termination_point doc <> vision_unknown /\
     ~ (exists s, search doc = Some s /\ s_classification s = mc_unique_item)).
Proof.
  destruct (toAnalyzeResponse_total doc) as [r Hr]. exists r.
  split; [exact Hr|].
  rewrite (toAnalyzeResponse_classification _ Hr).
  unfold derive_classification, search_is_unique.
  destruct (termination_point doc); simpl;
    destruct (search doc) as [[[] ? ? ?]|]; simpl;
    repeat split; try congruence; try discriminate;
    try (intros [? [? ?]]; congruence);
    try (intros [? [? [s [Hs Hc]]]]; inversion Hs; subst; discriminate);
    try (intros [s [Hs Hc]]; inversion Hs; subst; discriminate);
    try (eexists; split; [reflexivity|reflexivity]);
    try (intros [_ [_ H]]; exfalso; apply H; eexists; split; reflexivity).
Qed.

(** X3. The reconstructed classification depends on the termination point
    and on the class the search result gives, and on nothing else: two
    records that agree on these get the same classification, whatever
    their vision and price results are. *)
Theorem classification_ignores_price_and_vision
    (d1 d2 : AppraisalDocument) (r1 r2 : AnalyzeResponse) :
  termination_point d1 = termination_point d2 ->
  option_map s_classification (search d1) = option_map s_classification (search d2) ->
  toAnalyzeResponse d1 = Ok r1 ->
  toAnalyzeResponse d2 = Ok r2 ->
  classification r1 = classification r2.
Proof.
  intros Ht Hs H1 H2.
  rewrite (toAnalyzeResponse_classification _ H1),
          (toAnalyzeResponse_classification _ H2).
  unfold derive_classification, search_is_unique. rewrite Ht, Hs. reflexivity.
Qed.

(** A record like [RecordBuilder.failed_price_record] whose price lookup
    succeeded. *)
Definition priced_record : AppraisalDocument :=
  {| id := units "c3";
     created_at := units "2025-03-01T00:00:00Z";
     updated_at := units "2025-03-01T00:00:09Z";
     image_url := Some (units "https://img.example/c3.jpg");
     user_comment := None;
     vision := Some RecordBuilder.sample_vision;
     search := Some RecordBuilder.sample_search;
     price := Some {| status := status_complete;
                      min_price := 12000%Z;
                      max_price := 18000%Z;
                      currency := units "JPY";
                      p_confidence := high;
                      display_message := units "steady demand";
                      price_factors := Some [units "condition"] |};
     overall_status := completed;
     termination_point := price_error |}.

(** X3, an instance: a record without a price result and one with a
    priced result get the same classification. *)
Lemma classification_same_with_and_without_price :
  exists r1 r2,
    toAnalyzeResponse RecordBuilder.priceless_record = Ok r1 /\
    toAnalyzeResponse priced_record = Ok r2 /\
    ar_price r1 = None /\ ar_price r2 <> None /\
    classification r1 = classification r2.
Proof.
  destruct (toAnalyzeResponse_total RecordBuilder.priceless_record) as [r1 H1].
  destruct (toAnalyzeResponse_total priced_record) as [r2 H2].
  exists r1, r2. split; [exact H1|]. split; [exact H2|].
  split; [vm_compute in H1; inversion H1; reflexivity|].
  split; [vm_compute in H2; inversion H2; discriminate|].
  apply (classification_ignores_price_and_vision
           RecordBuilder.priceless_record priced_record);
    [reflexivity | reflexivity | exact H1 | exact H2].
Defined.

End ReconstructionFacts.

(* ===================================================================== *)
(** * Further properties of the streaming client and its hook *)
(* ===================================================================== *)

Module StreamingFacts.
Import JS Json Streaming UseStreamingAnalysis.

(** X4. The callbacks of a stream depend on its text alone, not on how
    the network cut the text into chunks: two streams with the same text
    and the same ending invoke the same callbacks in the same order. *)
Theorem callbacks_do_not_depend_on_chunking
    (JSON_parse : jsstring -> option JSON)
    (chunks1 chunks2 : list jsstring) (ending : ReadEnd) :
  concat chunks1 = concat chunks2 ->
  fetchStream JSON_parse (Body chunks1 ending)
  = fetchStream JSON_parse (Body chunks2 ending).
Proof.
  intros H. rewrite !fetchStream_events.
  unfold stream_events, stream_lines. cbn [failure].
  rewrite H. reflexivity.
Qed.

(** X4, an instance: one event in one chunk, and the same event cut
    inside its prefix, inside a string and before its line feed. *)
Lemma one_chunk_or_four :
  let whole :=
    [wire "data: {'type':'progress','message':'half way'}"; [10; 10]%N] in
  let pieces :=
    [wire "da"; wire "ta: {'type':'progress','mess"; wire "age':'half way'}";
     [10]%N; [10]%N] in
  concat whole = concat pieces /\
  fetchStream JSON_parse_model (Body whole Done)
  = fetchStream JSON_parse_model (Body pieces Done) /\
  List.length (fetchStream JSON_parse_model (Body pieces Done)) = 1%nat.
Proof.
  cbv zeta. split; [reflexivity|]. split.
  - apply callbacks_do_not_depend_on_chunking. reflexivity.
  - vm_compute. reflexivity.
Defined.

(** X5. A request that fails before any event is reported by exactly one
    [onError] and nothing else. For a response that is not ok the error
    is built from the [detail] of its JSON body when that is not falsy,
    and from ['API request failed'] in every other case: no [detail], a
    body that is [null], a body whose read fails. When the detail has no
    string form, building the error raises and [onError] gets that
    [TypeError] instead. A response without a body is reported as
    ['No response body'], a thrown value that is not an [Error] as
    ['Unknown error']. *)
Theorem early_failures_are_reported_once
    (JSON_parse : jsstring -> option JSON) (body : ErrorBody) :
  (exists m,
     m = match body with
         | ErrorJson v =>
             match prop v (units "detail") with
             | Some d => if truthy d then d else JString (units "API request failed")
             | None => JString (units "API request failed")
             end
         | ErrorJsonThrows _ => JString (units "API request failed")
         end /\
     fetchStream JSON_parse (NotOk body)
     = [onError (if has_string_form m then NewError (Some m)
                 else EngineTypeError)])
  /\ fetchStream JSON_parse (NotOk (ErrorJson JNull))
     = [onError (NewError (Some (JString (units "API request failed"))))]
  /\ fetchStream JSON_parse NoBody
     = [onError (NewError (Some (JString (units "No response body"))))]
  /\ fetchStream JSON_parse (FetchThrows ThrownValue)
     = [onError (NewError (Some (JString (units "Unknown error"))))].
Proof.
  split; [|repeat split].
  eexists; split; [reflexivity|].
  unfold fetchStream, caught, try_block, throw_new_Error, new_Error.
  destruct body as [[| | | | |members]|t]; cbn [errorMessage get prop];
    try reflexivity.
  destruct (lookup (units "detail") members) as [d|]; [|reflexivity].
  destruct (truthy d); [|reflexivity].
  destruct (has_string_form d); reflexivity.
Qed.

(** The events of a list of calls reach the hook's list in order. *)
Lemma deliver_thinkingEvents (calls : list Callback) (st : State) :
  thinkingEvents (deliver calls st) = thinkingEvents st ++ thinking_of calls.
Proof.
  unfold deliver. revert st.
  induction calls as [|c calls IH]; intros st; simpl.
  - symmetry; apply app_nil_r.
  - rewrite IH. destruct c; simpl; [rewrite <- app_assoc|..]; reflexivity.
Qed.

(** The hook stops loading at the first terminal callback and never
    starts again by itself. *)
Lemma deliver_isLoading (calls : list Callback) (st : State) :
  isLoading (deliver calls st)
  = if existsb is_terminal calls then false else isLoading st.
Proof.
  unfold deliver. revert st.
  induction calls as [|c calls IH]; intros st; simpl; [reflexivity|].
  rewrite IH. destruct c; simpl; [reflexivity|..];
    destruct (existsb is_terminal calls); reflexivity.
Qed.

(** X6. After [submitImage], once the callbacks of the stream have run,
    the hook's [thinkingEvents] are exactly the thinking events among the
    events of that stream the client got to, in the order of the wire:
    all thinking events of the stream, unless an [error] event whose
    message has no string form stopped the client before. What an earlier
    run left there is gone. *)
Theorem hook_shows_the_thinking_events_of_the_stream
    (JSON_parse : jsstring -> option JSON) (r : Response)
    (controller : nat) (imageBase64 : jsstring) (st : State) :
  thinkingEvents
    (deliver (fetchStream JSON_parse r)
             (fst (submitImage controller imageBase64 st)))
  = filter is_thinking_event (reached (stream_events JSON_parse r))
  /\ (existsb raises (stream_events JSON_parse r) = false ->
      thinkingEvents
        (deliver (fetchStream JSON_parse r)
                 (fst (submitImage controller imageBase64 st)))
      = filter is_thinking_event (stream_events JSON_parse r)).
Proof.
  assert (H : thinkingEvents
                (deliver (fetchStream JSON_parse r)
                         (fst (submitImage controller imageBase64 st)))
              = filter is_thinking_event (reached (stream_events JSON_parse r))).
  { rewrite deliver_thinkingEvents.
    cbn [submitImage reset fst thinkingEvents app].
    rewrite fetchStream_events. apply thinking_of_callbacks. }
  split; [exact H|].
  intros Hn. rewrite H, reached_all by exact Hn. reflexivity.
Qed.

(** X6, an instance: the three thinking events of a run, and none of a
    stream that an unreadable [error] event stops. *)
Lemma thinking_events_of_two_streams :
  existsb raises (stream_events JSON_parse_model priced_run_stream) = false /\
  List.length
    (thinkingEvents
       (deliver (fetchStream JSON_parse_model priced_run_stream)
                (fst (submitImage 1 (units "a") initial)))) = 3%nat /\
  thinkingEvents
    (deliver (fetchStream JSON_parse_model priced_run_stream)
             (fst (submitImage 1 (units "a") initial)))
  = filter is_thinking_event (stream_events JSON_parse_model priced_run_stream) /\
  thinkingEvents
    (deliver (fetchStream JSON_parse_model unreadable_error_then_thinking)
             (fst (submitImage 1 (units "a") initial))) = [].
Proof.
  split; [vm_compute; reflexivity|].
  split; [vm_compute; reflexivity|].
  split.
  - apply (@hook_shows_the_thinking_events_of_the_stream JSON_parse_model
             priced_run_stream 1 (units "a") initial).
    vm_compute. reflexivity.
  - vm_compute. reflexivity.
Defined.

(** X7. After [submitImage], once the callbacks of the stream have run,
    the hook is still loading exactly when the response carried no
    terminal signal: a stream that ends, or is aborted, without a
    [complete] or [error] event leaves the hook loading. *)
Theorem hook_keeps_loading_without_a_terminal_signal
    (JSON_parse : jsstring -> option JSON) (r : Response)
    (controller : nat) (imageBase64 : jsstring) (st : State) :
  isLoading
    (deliver (fetchStream JSON_parse r)
             (fst (submitImage controller imageBase64 st))) = true
  <-> terminal_signals JSON_parse r = 0%nat.
Proof.
  rewrite deliver_isLoading. cbn [submitImage reset fst isLoading].
  rewrite has_terminal_callback.
  destruct (terminal_signals JSON_parse r); simpl; split; congruence.
Qed.

End StreamingFacts.

(* ===================================================================== *)
(** * Sequences of operations on the streaming hook *)
(* ===================================================================== *)

Module HookTraces.
Import JS Json Streaming UseStreamingAnalysis.

(** What can happen to the hook: its three functions are called, or a
    callback it passed to a stream is invoked. *)
Inductive Op :=
| Submit (controller : nat) (imageBase64 : jsstring)
| Cancel
| Reset
| Deliver (c : Callback).

Definition step (op : Op) (st : State) : State * list Effect :=
  match op with
  | Submit controller imageBase64 => submitImage controller imageBase64 st
  | Cancel => cancel st
  | Reset => reset st
  | Deliver c => (handle st c, [])
  end.

(** The state after a sequence of operations, and all its effects. *)
Fixpoint run (ops : list Op) (st : State) : State * list Effect :=
  match ops with
  | [] => (st, [])
  | op :: rest =>
      let (st1, effects1) := step op st in
      let (st2, effects2) := run rest st1 in
      (st2, effects1 ++ effects2)
  end.

(** The controllers made by the submissions of a sequence. *)
Definition submitted (ops : list Op) : list nat :=
  flat_map (fun op => match op with Submit c _ => [c] | _ => [] end) ops.

(** The controllers aborted by a list of effects. *)
Definition aborted (effects : list Effect) : list nat :=
  flat_map (fun e => match e with abort c => [c] | _ => [] end) effects.

Lemma aborted_app (a b : list Effect) :
  aborted (a ++ b) = aborted a ++ aborted b.
Proof. apply flat_map_app. Qed.

Lemma aborted_run_cancelRef (st : State) :
  aborted (run_cancelRef st)
  = match cancelRef st with Some c => [c] | None => [] end.
Proof. unfold run_cancelRef. destruct (cancelRef st); reflexivity. Qed.

(** From any state: no controller is aborted twice, and an aborted
    controller is the one in flight at the start or one submitted since. *)
Lemma run_aborts (ops : list Op) :
  forall st,
    NoDup (submitted ops) ->
    (forall c, cancelRef st = Some c -> ~ In c (submitted ops)) ->
    NoDup (aborted (snd (run ops st))) /\
    (forall c, In c (aborted (snd (run ops st))) ->
               cancelRef st = Some c \/ In c (submitted ops)).
Proof.
  induction ops as [|op rest IH]; intros st Hnd Hfresh.
  - simpl. split; [constructor|intros c []].
  - cbn [run]. destruct (step op st) as [st1 effects1] eqn:Estep.
    destruct (run rest st1) as [st2 effects2] eqn:Erun. cbn [snd].
    rewrite aborted_app.
    destruct op as [controller imageBase64| | |c0]; cbn [step] in Estep.
    + (* Submit *)
      unfold submitImage, reset in Estep. inversion Estep; subst; clear Estep.
      cbn [submitted flat_map app] in Hnd, Hfresh |- *.
      inversion Hnd as [|x l Hnotin Hnd']; subst.
      destruct (IH {| isLoading := true; thinkingEvents := []; result := None;
                      error := None; cancelRef := Some controller |} Hnd')
        as [IHnd IHin].
      { intros c Hc. inversion Hc; subst. exact Hnotin. }
      rewrite Erun in IHnd, IHin. cbn [snd] in IHnd, IHin.
      rewrite aborted_app, aborted_run_cancelRef. cbn [aborted flat_map app].
      destruct (cancelRef st) as [c0|] eqn:Ec; cbn [app].
      * split.
        { constructor; [|exact IHnd].
          intros Hin. apply IHin in Hin. cbn [cancelRef] in Hin.
          destruct Hin as [Hin|Hin].
          - inversion Hin; subst.
            eapply Hfresh; [reflexivity|left; reflexivity].
          - apply (Hfresh c0 eq_refl). right; exact Hin. }
        { intros c [Hc|Hc]; [left; congruence|].
          apply IHin in Hc. cbn [cancelRef] in Hc.
          destruct Hc as [Hc|Hc]; [inversion Hc; right; left; reflexivity|].
          right; right; exact Hc. }
      * split; [exact IHnd|].
        intros c Hc. apply IHin in Hc. cbn [cancelRef] in Hc.
        destruct Hc as [Hc|Hc]; [inversion Hc; right; left; reflexivity|].
        right; right; exact Hc.
    + (* Cancel *)
      unfold cancel in Estep. inversion Estep; subst; clear Estep.
      cbn [submitted flat_map app] in Hnd, Hfresh |- *.
      match type of Erun with
      | run rest ?s = _ => destruct (IH s Hnd) as [IHnd IHin]
      end.
      { intros c Hc; discriminate. }
      rewrite Erun in IHnd, IHin. cbn [snd cancelRef] in IHnd, IHin.
      rewrite aborted_run_cancelRef.
      destruct (cancelRef st) as [c0|] eqn:Ec; cbn [app].
      * split.
        { constructor; [|exact IHnd].
          intros Hin. apply IHin in Hin. destruct Hin as [Hin|Hin];
            [discriminate|]. exact (Hfresh c0 eq_refl Hin). }
        { intros c [Hc|Hc]; [left; congruence|].
          apply IHin in Hc. destruct Hc as [Hc|Hc]; [discriminate|].
          right; exact Hc. }
      * split; [exact IHnd|].
        intros c Hc. apply IHin in Hc. destruct Hc as [Hc|Hc]; [discriminate|].
        right; exact Hc.
    + (* Reset *)
      unfold reset in Estep. inversion Estep; subst; clear Estep.
      cbn [submitted flat_map app] in Hnd, Hfresh |- *.
      match type of Erun with
      | run rest ?s = _ => destruct (IH s Hnd) as [IHnd IHin]
      end.
      { intros c Hc; discriminate. }
      rewrite Erun in IHnd, IHin. cbn [snd cancelRef] in IHnd, IHin.
      rewrite aborted_run_cancelRef.
      destruct (cancelRef st) as [c0|] eqn:Ec; cbn [app].
      * split.
        { constructor; [|exact IHnd].
          intros Hin. apply IHin in Hin. destruct Hin as [Hin|Hin];
            [discriminate|]. exact (Hfresh c0 eq_refl Hin). }
        { intros c [Hc|Hc]; [left; congruence|].
          apply IHin in Hc. destruct Hc as [Hc|Hc]; [discriminate|].
          right; exact Hc. }
      * split; [exact IHnd|].
        intros c Hc. apply IHin in Hc. destruct Hc as [Hc|Hc]; [discriminate|].
        right; exact Hc.
    + (* Deliver *)
      inversion Estep; subst; clear Estep.
      cbn [submitted flat_map app] in Hnd, Hfresh |- *.
      cbn [aborted flat_map app].
      assert (Hsub : forall c, cancelRef (handle st c0) = Some c ->
                               cancelRef st = Some c)
        by (intros c; destruct c0; simpl; congruence).
      destruct (IH (handle st c0) Hnd) as [IHnd IHin].
      { intros c Hc. apply Hfresh, Hsub, Hc. }
      rewrite Erun in IHnd, IHin. cbn [snd] in IHnd, IHin.
      split; [exact IHnd|].
      intros c Hc. apply IHin in Hc. destruct Hc as [Hc|Hc]; [left|right]; auto.
Qed.

(** X8. Along any sequence of submissions, cancellations, resets and
    callbacks, starting from the initial state, in which every submission
    makes a controller of its own: the hook never aborts a request twice,
    and never aborts one that was not submitted. *)
Theorem hook_aborts_each_request_at_most_once (ops : list Op) :
  NoDup (submitted ops) ->
  NoDup (aborted (snd (run ops initial))) /\
  incl (aborted (snd (run ops initial))) (submitted ops).
Proof.
  intros Hnd.
  destruct (@run_aborts ops initial Hnd) as [H1 H2].
  { intros c Hc; discriminate. }
  split; [exact H1|].
  intros c Hc. apply H2 in Hc. destruct Hc as [Hc|Hc]; [discriminate|exact Hc].
Qed.

(** X8, an instance: an image is submitted and cancelled twice, a second
    one is submitted and replaced by a third, which completes before a
    last reset. Only the first two requests are aborted, once each. *)
Lemma three_submissions_two_aborts :
  let ops :=
    [Submit 1 (units "a"); Cancel; Cancel;
     Submit 2 (units "b"); Deliver (onThinking (JString (units "e")));
     Submit 3 (units "c"); Deliver (onComplete None); Reset] in
  NoDup (submitted ops) /\
  aborted (snd (run ops initial)) = [1; 2]%nat /\
  NoDup (aborted (snd (run ops initial))).
Proof.
  cbv zeta.
  assert (Hnd : NoDup (submitted
            [Submit 1 (units "a"); Cancel; Cancel;
             Submit 2 (units "b"); Deliver (onThinking (JString (units "e")));
             Submit 3 (units "c"); Deliver (onComplete None); Reset])).
  { simpl. repeat constructor; simpl; intuition discriminate. }
  split; [exact Hnd|]. split; [reflexivity|].
  apply (hook_aborts_each_request_at_most_once _ Hnd).
Defined.

(** X9. Once the callbacks of a response with a terminal signal have run,
    the request is over for the hook: [cancel], [reset] and the next
    [submitImage] abort nothing. *)
Theorem finished_request_is_not_aborted
    (JSON_parse : jsstring -> option JSON) (r : Response) (st : State)
    (controller : nat) (imageBase64 : jsstring) :
  terminal_signals JSON_parse r <> 0%nat ->
  let finished := deliver (fetchStream JSON_parse r) st in
  snd (cancel finished) = [] /\
  snd (reset finished) = [] /\
  snd (submitImage controller imageBase64 finished)
  = [stream_started controller imageBase64].
Proof.
  intros H. cbv zeta.
  assert (Hc : cancelRef (deliver (fetchStream JSON_parse r) st) = None).
  { rewrite deliver_cancelRef, has_terminal_callback.
    destruct (terminal_signals JSON_parse r); [congruence|reflexivity]. }
  unfold cancel, reset, submitImage, reset, run_cancelRef; cbn [snd fst].
  rewrite Hc. repeat split.
Qed.

(** X9, an instance: after the stream of a priced run, a new submission
    aborts nothing. *)
Lemma resubmission_after_a_finished_run :
  let submitted := fst (submitImage 4 (units "a") initial) in
  let finished := deliver (fetchStream JSON_parse_model priced_run_stream) submitted in
  terminal_signals JSON_parse_model priced_run_stream <> 0%nat /\
  cancelRef submitted = Some 4%nat /\
  snd (cancel finished) = [] /\
  snd (submitImage 5 (units "b") finished) = [stream_started 5 (units "b")].
Proof.
  cbv zeta.
  assert (H : terminal_signals JSON_parse_model priced_run_stream <> 0%nat)
    by (vm_compute; discriminate).
  split; [exact H|]. split; [reflexivity|].
  destruct (@finished_request_is_not_aborted JSON_parse_model priced_run_stream
              (fst (submitImage 4 (units "a") initial)) 5 (units "b") H)
    as [Hcancel [_ Hsubmit]].
  split; [exact Hcancel|exact Hsubmit].
Defined.

End HookTraces.

(* ===================================================================== *)
(** * Further properties of the API client *)
(* ===================================================================== *)

Module ApiClientFacts.
Import JS Json Streaming ApiClient.

(** The requests of a trace, in order. *)
Definition requests (trace : list Event) : list Request :=
  flat_map (fun e => match e with Fetch r _ => [r] | _ => [] end) trace.

(** The calls of [getIdToken] of a trace, in order. *)
Definition token_calls (trace : list Event) : list bool :=
  flat_map (fun e => match e with GetIdToken f => [f] | _ => [] end) trace.

(** [headers[key]] *)
Fixpoint header (key : jsstring) (h : Headers) : option jsstring :=
  match h with
  | [] => None
  | (k, v) :: rest => if str_eqb k key then Some v else header key rest
  end.

(** How many entries a header object has for a key. *)
Definition entries (key : jsstring) (h : Headers) : nat :=
  List.length (filter (fun kv => str_eqb (fst kv) key) h).

(** X10. A call that does not require authentication never asks for a
    token, sends the request once with the content type as its only
    header, and does not send it again, whatever the answer is. *)
Theorem unauthenticated_request_is_sent_once
    (w : World) (endpoint : jsstring) (options : RequestOptions) :
  requireAuth options = Some false ->
  fst (apiRequest w endpoint options)
  = [Fetch {| url := API_BASE_URL w ++ endpoint;
              req_method := nullish (method options) (units "GET");
              headers := [(units "Content-Type", units "application/json")];
              req_body := sent_body (body options) |}
           (first_answer w)].
Proof.
  intros H. unfold apiRequest. rewrite H. cbn [nullish].
  destruct (first_answer w) as [e|r1]; [reflexivity|].
  rewrite andb_false_r. reflexivity.
Qed.

(** A server that answers 401 to a call made without authentication. *)
Definition public_call : RequestOptions :=
  {| method := Some (units "POST");
     body := Some (JObject [(units "q", JNumber 1 0)]);
     requireAuth := Some false |}.

(** X10, an instance: a signed-in user, a 401, and yet one request and no
    token. *)
Lemma public_call_is_not_retried :
  requireAuth public_call = Some false /\
  token_calls (fst (apiRequest expired_token_world (units "/api/v1/ping") public_call)) = [] /\
  List.length (requests (fst (apiRequest expired_token_world (units "/api/v1/ping") public_call)))
  = 1%nat.
Proof.
  split; [reflexivity|].
  rewrite (@unauthenticated_request_is_sent_once expired_token_world
             (units "/api/v1/ping") public_call eq_refl).
  split; reflexivity.
Defined.

(** X11. When [apiRequest] sends the request a second time, it is the same
    request (same URL, the base URL followed by the end point, same
    method, same body) with one [Authorization] header, which carries the
    token of the forced refresh and not the first one. *)
Theorem retry_repeats_the_request_with_the_new_token
    (w : World) (endpoint : jsstring) (options : RequestOptions)
    (first second : Request) :
  requests (fst (apiRequest w endpoint options)) = [first; second] ->
  url first = API_BASE_URL w ++ endpoint /\
  url second = url first /\
  req_method second = req_method first /\
  req_body second = req_body first /\
  entries (units "Authorization") (headers second) = 1%nat /\
  header (units "Content-Type") (headers second) = Some (units "application/json") /\
  exists user token,
    currentUser (auth w) = Some user /\
    usable (getIdToken user true) = Some token /\
    header (units "Authorization") (headers second)
    = Some (units "Bearer " ++ token).
Proof.
  api_cases w options;
    unfold requests; rewrite ?flat_map_app; simpl;
    intros H; inversion H; subst; clear H; simpl;
    (repeat (split; [reflexivity|]));
    (eexists; eexists; split; [reflexivity|]; split; [eassumption|reflexivity]).
Qed.

(** X11, an instance: the expired token is replaced in the second request. *)
Lemma retry_of_the_history_call :
  exists first second,
    requests (fst (apiRequest expired_token_world (fst history_call) (snd history_call)))
    = [first; second] /\
    header (units "Authorization") (headers first) = Some (units "Bearer old") /\
    header (units "Authorization") (headers second) = Some (units "Bearer new") /\
    url second = url first /\
    entries (units "Authorization") (headers second) = 1%nat.
Proof.
  eexists; eexists.
  pose proof (@retry_repeats_the_request_with_the_new_token expired_token_world
                (fst history_call) (snd history_call) _ _ eq_refl)
    as [_ [Hurl [_ [_ [Hone _]]]]].
  split; [reflexivity|]. split; [reflexivity|]. split; [reflexivity|].
  split; [exact Hurl|exact Hone].
Defined.

(** X12. [apiRequest] does not catch a rejected [fetch]: when the last
    [fetch] of a call rejects, the call rejects with the same value, be it
    the first request or the retry. *)
Theorem network_failure_is_passed_on
    (w : World) (endpoint : jsstring) (options : RequestOptions) (e : Thrown) :
  last_answer (fst (apiRequest w endpoint options)) = Some (FetchRejects e) ->
  snd (apiRequest w endpoint options) = Throws e.
Proof.
  api_cases w options;
    unfold last_answer; rewrite ?filter_app, ?rev_app_distr; simpl;
    intros H; inversion H; subst; reflexivity.
Qed.

(** The server answers 401, and the connection is lost on the retry. *)
Definition lost_on_retry_world : World :=
  {| auth := auth expired_token_world;
     API_BASE_URL := [];
     first_answer := Responds unauthorized;
     retry_answer :=
       FetchRejects (ThrownError (PlatformError (units "TypeError")
                                    (units "Failed to fetch"))) |}.

(** X12, an instance: the retry is lost, and the call rejects with the
    network error, not with the 401. *)
Lemma lost_retry_rejects_with_the_network_error :
  last_answer (fst (apiRequest lost_on_retry_world (fst history_call) (snd history_call)))
  = Some (retry_answer lost_on_retry_world) /\
  snd (apiRequest lost_on_retry_world (fst history_call) (snd history_call))
  = Throws (ThrownError (PlatformError (units "TypeError") (units "Failed to fetch"))).
Proof.
  split; [reflexivity|].
  apply network_failure_is_passed_on. reflexivity.
Defined.

(** X13. A last response that is not ok and whose body is the JSON value
    [null] makes [apiRequest] reject with a [TypeError], the one raised
    by the property read of [null], and not with an [ApiError]: the
    status of the response is lost. *)
Theorem null_error_body_is_a_TypeError
    (w : World) (endpoint : jsstring) (options : RequestOptions)
    (r : HttpResponse) :
  last_answer (fst (apiRequest w endpoint options)) = Some (Responds r) ->
  ok r = false ->
  json r = JsonValue JNull ->
  exists err,
    snd (apiRequest w endpoint options) = Throws (ThrownError err) /\
    error_name err = units "TypeError" /\
    forall status detail,
      snd (apiRequest w endpoint options) <> ThrowsApiError status detail.
Proof.
  intros Hlast Hok Hnull.
  assert (H : snd (apiRequest w endpoint options) = Throws raised).
  { revert Hlast Hok Hnull.
    api_cases w options;
      unfold last_answer; rewrite ?filter_app, ?rev_app_distr; simpl;
      intros H Hok Hnull; inversion H; subst;
      apply settle_null_body; assumption. }
  exists EngineTypeError. rewrite H.
  split; [reflexivity|]. split; [reflexivity|]. discriminate.
Qed.

(** X13, an instance: a 500 with the body [null]. *)
Lemma server_error_with_null_body :
  exists r err,
    last_answer (fst (apiRequest null_error_world (fst history_call) (snd history_call)))
    = Some (Responds r) /\
    status r = 500%Z /\ ok r = false /\ json r = JsonValue JNull /\
    snd (apiRequest null_error_world (fst history_call) (snd history_call))
    = Throws (ThrownError err) /\
    error_name err = units "TypeError".
Proof.
  destruct (@null_error_body_is_a_TypeError null_error_world (fst history_call)
              (snd history_call) {| status := 500; json := JsonValue JNull |}
              eq_refl eq_refl eq_refl) as [err [Hthrows [Hname _]]].
  exists {| status := 500; json := JsonValue JNull |}, err.
  split; [reflexivity|]. split; [reflexivity|]. split; [reflexivity|].
  split; [reflexivity|]. split; [exact Hthrows|exact Hname].
Defined.

End ApiClientFacts.

(* ===================================================================== *)
(** * Further properties of the history hook *)
(* ===================================================================== *)

Module HistoryFacts.
Import JS Json Api Streaming ApiClient UseAppraisalHistory.

(** X14. With nobody signed in the hook asks the server nothing, whatever
    is called: [fetchHistory], [refresh] and [loadMore] make no request.
    [refresh] then leaves an empty list, a total of 0, nothing more to
    load and no loading state; it does not clear the error an earlier
    request has left. *)
Theorem signed_out_hook_asks_nothing
    (limit : Z) (reset : bool) (answer : Answer) (st : State) :
  snd (fetchHistory limit None reset answer st) = []
  /\ snd (refresh limit None answer st) = []
  /\ snd (loadMore limit None answer st) = []
  /\ appraisals (fst (refresh limit None answer st)) = []
  /\ total (fst (refresh limit None answer st)) = 0%Z
  /\ hasMore (fst (refresh limit None answer st)) = false
  /\ loading (fst (refresh limit None answer st)) = false
  /\ error (fst (refresh limit None answer st)) = error st.
Proof.
  repeat split.
  unfold loadMore.
  destruct (loading st || _); reflexivity.
Qed.

(** X15. A [loadMore] whose request fails keeps the records, the total and
    the offset, and records the error; [loadMore] called again asks for
    the same page. *)
Theorem failed_loadMore_can_be_repeated
    (limit : Z) (u : User) (t : Thrown) (answer : Answer) (st : State) :
  loading st = false ->
  hasMore st = true ->
  let failed := loadMore limit (Some u) (Rejects t) st in
  appraisals (fst failed) = appraisals st
  /\ total (fst failed) = total st
  /\ offset (fst failed) = offset st
  /\ error (fst failed) = Some (as_error t)
  /\ loading (fst failed) = false
  /\ snd failed = [getAppraisalHistory (Some limit) (Some (offset st))]
  /\ snd (loadMore limit (Some u) answer (fst failed)) = snd failed.
Proof.
  intros Hl Hm. unfold hasMore in Hm. apply Z.ltb_lt in Hm.
  assert (Hge : (Z.of_nat (List.length (appraisals st)) >=? total st)%Z = false).
  { destruct (Z.geb_spec (Z.of_nat (List.length (appraisals st))) (total st));
      [lia|reflexivity]. }
  cbv zeta. unfold loadMore. rewrite Hl, Hge. cbn [orb fetchHistory fst snd].
  repeat (split; [reflexivity|]).
  cbn [loading appraisals total]. rewrite Hge. cbn [orb offset].
  destruct answer; reflexivity.
Qed.

(** X15, an instance: the second page fails with a network error and is
    asked for again at offset 20. *)
Lemma second_page_is_asked_again :
  let failure :=
    ThrownError (PlatformError (units "TypeError") (units "Failed to fetch")) in
  let failed := loadMore 20 (Some some_user) (Rejects failure) one_of_three in
  hasMore one_of_three = true /\
  appraisals (fst failed) = appraisals one_of_three /\
  snd (loadMore 20 (Some some_user) (Resolves next_page) (fst failed))
  = [(units "/api/v1/appraisals?limit=20&offset=20",
      {| method := None; body := None; requireAuth := Some true |})].
Proof.
  cbv zeta.
  pose proof (@failed_loadMore_can_be_repeated 20 some_user
                (ThrownError (PlatformError (units "TypeError")
                                (units "Failed to fetch")))
                (Resolves next_page) one_of_three eq_refl eq_refl)
    as [Happ [_ [_ [_ [_ [Hreq Hagain]]]]]].
  split; [reflexivity|]. split; [exact Happ|].
  rewrite Hagain, Hreq. vm_compute. reflexivity.
Defined.

(** X16. [refresh] sets the offset to 0 before it asks. When its request
    fails the records already loaded stay, with the offset at 0: a
    [loadMore] that follows asks for the first page and puts it after the
    records that were kept. *)
Theorem failed_refresh_rewinds_the_offset
    (limit : Z) (u : User) (t : Thrown) (data : AppraisalHistoryResponse)
    (st : State) :
  hasMore st = true ->
  let failed := fst (refresh limit (Some u) (Rejects t) st) in
  let more := loadMore limit (Some u) (Resolves data) failed in
  appraisals failed = appraisals st
  /\ total failed = total st
  /\ offset failed = 0%Z
  /\ snd more = [getAppraisalHistory (Some limit) (Some 0%Z)]
  /\ appraisals (fst more) = appraisals st ++ nullish (r_appraisals data) []
  /\ offset (fst more) = limit.
Proof.
  intros Hm. unfold hasMore in Hm. apply Z.ltb_lt in Hm.
  assert (Hge : (Z.of_nat (List.length (appraisals st)) >=? total st)%Z = false).
  { destruct (Z.geb_spec (Z.of_nat (List.length (appraisals st))) (total st));
      [lia|reflexivity]. }
  cbv zeta. unfold refresh, loadMore, setOffset.
  cbn [fetchHistory fst snd loading appraisals total offset orb].
  rewrite Hge. cbn [fetchHistory fst snd loading appraisals total offset orb].
  repeat split.
Qed.

(** The first page, answered a second time. *)
Definition first_page : AppraisalHistoryResponse :=
  {| r_appraisals := Some [RecordBuilder.priceless_record];
     r_total := Some 3%Z |}.

(** X16, an instance: after a failed refresh the first record is loaded a
    second time. *)
Lemma first_page_loaded_twice :
  let failure :=
    ThrownError (PlatformError (units "TypeError") (units "Failed to fetch")) in
  let failed := fst (refresh 20 (Some some_user) (Rejects failure) one_of_three) in
  let more := loadMore 20 (Some some_user) (Resolves first_page) failed in
  hasMore one_of_three = true /\
  snd more
  = [(units "/api/v1/appraisals?limit=20&offset=0",
      {| method := None; body := None; requireAuth := Some true |})] /\
  appraisals (fst more)
  = [RecordBuilder.priceless_record; RecordBuilder.priceless_record].
Proof.
  cbv zeta.
  pose proof (@failed_refresh_rewinds_the_offset 20 some_user
                (ThrownError (PlatformError (units "TypeError")
                                (units "Failed to fetch")))
                first_page one_of_three eq_refl)
    as [_ [_ [_ [Hreq [Happ _]]]]].
  split; [reflexivity|]. split.
  - rewrite Hreq. vm_compute. reflexivity.
  - rewrite Happ. reflexivity.
Defined.

(** X17. A [refresh] that is answered forgets what the hook held: the
    state it leaves and the request it makes are the same from any two
    states. The list is the page of the answer, the offset the page size,
    the error gone. *)
Theorem answered_refresh_forgets_the_state
    (limit : Z) (u : User) (data : AppraisalHistoryResponse) (st1 st2 : State) :
  refresh limit (Some u) (Resolves data) st1
  = refresh limit (Some u) (Resolves data) st2
  /\ appraisals (fst (refresh limit (Some u) (Resolves data) st1))
     = nullish (r_appraisals data) []
  /\ offset (fst (refresh limit (Some u) (Resolves data) st1)) = limit
  /\ error (fst (refresh limit (Some u) (Resolves data) st1)) = None
  /\ snd (refresh limit (Some u) (Resolves data) st1)
     = [getAppraisalHistory (Some limit) (Some 0%Z)].
Proof. repeat split. Qed.

(** ** Sequences of calls *)

(** A call of the hook by its consumer, with the answer its request gets
    if it makes one. *)
Inductive Op :=
| Refresh (answer : Answer)
| LoadMore (answer : Answer).

Section Traces.

Variable limit : Z.
Variable user : option User.

Definition step (op : Op) (st : State) : State * list (jsstring * RequestOptions) :=
  match op with
  | Refresh answer => refresh limit user answer st
  | LoadMore answer => loadMore limit user answer st
  end.

(** The calls in order: the last state and all requests made. *)
Fixpoint run (ops : list Op) (st : State)
    : State * list (jsstring * RequestOptions) :=
  match ops with
  | [] => (st, [])
  | op :: rest =>
      let (st1, requests1) := step op st in
      let (st2, requests2) := run rest st1 in
      (st2, requests1 ++ requests2)
  end.

(** An offset that is a whole number of pages, at most [n] of them. *)
Definition whole_pages (n : nat) (o : Z) : Prop :=
  exists k : Z, (0 <= k <= Z.of_nat n)%Z /\ o = (k * limit)%Z.

Lemma whole_pages_more (n m : nat) (o : Z) :
  (n <= m)%nat -> whole_pages n o -> whole_pages m o.
Proof. intros Hle [k [Hk Ho]]. exists k. split; [lia|exact Ho]. Qed.

Lemma step_whole_pages (op : Op) (st : State) (n : nat) :
  whole_pages n (offset st) ->
  whole_pages (S n) (offset (fst (step op st)))
  /\ forall request, In request (snd (step op st)) ->
       exists o, whole_pages n o /\
                 request = getAppraisalHistory (Some limit) (Some o).
Proof.
  intros [k [Hk Ho]].
  assert (Hst : whole_pages n (offset st)) by (exists k; split; assumption).
  assert (H0 : forall m, whole_pages m 0) by (intros m; exists 0%Z; split; lia).
  assert (H1 : whole_pages (S n) limit) by (exists 1%Z; split; lia).
  assert (Hs : whole_pages (S n) (offset st + limit)%Z)
    by (exists (k + 1)%Z; split; lia).
  assert (Hk' : whole_pages (S n) (offset st))
    by (apply (@whole_pages_more n); [lia|exact Hst]).
  destruct op as [answer|answer]; cbn [step].
  - unfold refresh, setOffset, fetchHistory. cbn [offset error].
    destruct user; [destruct answer|]; cbn [fst snd offset].
    + split; [exact H1|]. intros request [<-|[]].
      exists 0%Z. split; [apply H0|reflexivity].
    + split; [apply H0|]. intros request [<-|[]].
      exists 0%Z. split; [apply H0|reflexivity].
    + split; [apply H0|]. intros request [].
  - unfold loadMore.
    destruct (loading st || _).
    + cbn [fst snd]. split; [exact Hk'|]. intros request [].
    + unfold fetchHistory.
      destruct user; [destruct answer|]; cbn [fst snd offset].
      * split; [exact Hs|]. intros request [<-|[]].
        exists (offset st). split; [exact Hst|reflexivity].
      * split; [exact Hk'|]. intros request [<-|[]].
        exists (offset st). split; [exact Hst|reflexivity].
      * split; [exact Hk'|]. intros request [].
Qed.

Lemma run_whole_pages (ops : list Op) (st : State) (n : nat) :
  whole_pages n (offset st) ->
  whole_pages (n + List.length ops) (offset (fst (run ops st)))
  /\ forall request, In request (snd (run ops st)) ->
       exists o, whole_pages (n + List.length ops) o /\
                 request = getAppraisalHistory (Some limit) (Some o).
Proof.
  revert st n. induction ops as [|op rest IH]; intros st n Hst; cbn [run].
  - split; [apply (@whole_pages_more n); [simpl; lia|exact Hst]|].
    intros request [].
  - destruct (step_whole_pages op st Hst) as [H1 H2].
    destruct (step op st) as [st1 requests1]. cbn [fst snd] in H1, H2.
    destruct (IH st1 (S n) H1) as [H3 H4].
    destruct (run rest st1) as [st2 requests2]. cbn [fst snd] in *.
    replace (n + List.length (op :: rest))%nat
      with (S n + List.length rest)%nat by (simpl; lia).
    split; [exact H3|].
    intros request Hin. apply in_app_or in Hin as [Hin|Hin]; [|auto].
    destruct (H2 request Hin) as [o [Ho Hr]].
    exists o. split; [|exact Hr].
    apply (@whole_pages_more n); [lia|exact Ho].
Qed.

End Traces.

(** X18. Whatever the consumer calls, in whatever order, and however the
    requests are answered, the hook only ever asks for a whole number of
    pages, as long as the page size times the number of calls is a safe
    integer: every request it makes from its initial state is a call of
    [getAppraisalHistory] with the page size and an offset that is a
    multiple of the page size and a safe integer, and so is the offset it
    ends with. *)
Theorem hook_asks_for_whole_pages
    (limit : Z) (user : option User) (ops : list Op) :
  isSafeInteger limit = true ->
  (Z.abs limit * Z.of_nat (List.length ops) <= MAX_SAFE_INTEGER)%Z ->
  (exists k : Z, (0 <= k <= Z.of_nat (List.length ops))%Z /\
     isSafeInteger (k * limit) = true /\
     offset (fst (run limit user ops initial)) = (k * limit)%Z)
  /\ forall request, In request (snd (run limit user ops initial)) ->
       exists k : Z, (0 <= k <= Z.of_nat (List.length ops))%Z /\
         isSafeInteger (k * limit) = true /\
         request = (units "/api/v1/appraisals?limit=" ++ decimal limit
                      ++ units "&offset=" ++ decimal (k * limit),
                    {| method := None; body := None; requireAuth := Some true |}).
Proof.
  intros Hlimit Hbound.
  assert (Hsafe : forall k : Z,
             (0 <= k <= Z.of_nat (List.length ops))%Z ->
             isSafeInteger (k * limit) = true).
  { intros k Hk. unfold isSafeInteger.
    assert (Habs : (Z.abs (k * limit) <= MAX_SAFE_INTEGER)%Z).
    { rewrite Z.abs_mul, (Z.abs_eq k) by lia.
      eapply Z.le_trans; [|exact Hbound].
      rewrite (Z.mul_comm (Z.abs limit)).
      apply Z.mul_le_mono_nonneg_r; [apply Z.abs_nonneg|lia]. }
    apply andb_true_iff. split; apply Z.leb_le; lia. }
  assert (H0 : whole_pages limit 0 (offset initial))
    by (exists 0%Z; split; [lia|reflexivity]).
  destruct (@run_whole_pages limit user ops initial 0 H0) as [H1 H2].
  cbn [Nat.add] in H1, H2.
  split.
  - destruct H1 as [k [Hk Ho]]. exists k.
    split; [exact Hk|]. split; [apply Hsafe, Hk|exact Ho].
  - intros request Hin. destruct (H2 request Hin) as [o [[k [Hk ->]] ->]].
    exists k. split; [exact Hk|]. split; [apply Hsafe, Hk|reflexivity].
Qed.

(** X18, an instance: the mount, then one more page; the two requests ask
    for the offsets 0 and 20. *)
Lemma two_pages_are_asked_in_order :
  let ops := [Refresh (Resolves first_page); LoadMore (Resolves next_page)] in
  isSafeInteger 20 = true /\
  (Z.abs 20 * Z.of_nat (List.length ops) <= MAX_SAFE_INTEGER)%Z /\
  List.length (snd (run 20 (Some some_user) ops initial)) = 2%nat /\
  In (units "/api/v1/appraisals?limit=20&offset=20",
      {| method := None; body := None; requireAuth := Some true |})
     (snd (run 20 (Some some_user) ops initial)) /\
  exists k : Z, (0 <= k <= Z.of_nat (List.length ops))%Z /\
    isSafeInteger (k * 20) = true /\
    (units "/api/v1/appraisals?limit=20&offset=20",
     {| method := None; body := None; requireAuth := Some true |})
    = (units "/api/v1/appraisals?limit=" ++ decimal 20
         ++ units "&offset=" ++ decimal (k * 20),
       {| method := None; body := None; requireAuth := Some true |}).
Proof.
  cbv zeta.
  assert (Hin : In (units "/api/v1/appraisals?limit=20&offset=20",
                    {| method := None; body := None; requireAuth := Some true |})
                   (snd (run 20 (Some some_user)
                           [Refresh (Resolves first_page);
                            LoadMore (Resolves next_page)] initial)))
    by (right; left; reflexivity).
  assert (Hb : (Z.abs 20 * Z.of_nat (List.length
                   [Refresh (Resolves first_page); LoadMore (Resolves next_page)])
                <= MAX_SAFE_INTEGER)%Z) by (vm_compute; discriminate).
  split; [reflexivity|]. split; [exact Hb|].
  split; [reflexivity|]. split; [exact Hin|].
  exact (proj2 (@hook_asks_for_whole_pages 20 (Some some_user)
                  [Refresh (Resolves first_page); LoadMore (Resolves next_page)]
                  eq_refl Hb)
               _ Hin).
Defined.

End HistoryFacts.

(* ===================================================================== *)
(** * components/features/AppraisalResult : the history list and the cards *)
(* ===================================================================== *)

Module HistoryView.
Import JS Json Api HistoryPage Streaming ApiClient UseAppraisalHistory.

(** [a || b] on values that are a string, null or undefined: the left
    operand unless it is falsy, and the empty string is. *)
Definition or_else (a b : option jsstring) : option jsstring :=
  match a with
  | Some (_ :: _) => a
  | _ => b
  end.

(** [a || 'literal'] *)
Definition or_literal (a : option jsstring) (b : jsstring) : jsstring :=
  match a with
  | Some (c :: s) => c :: s
  | _ => b
  end.

(** [{s && <p>{s}</p>}]: the text of a block that is rendered only for a
    string that is not falsy. *)
Definition shown (s : option jsstring) : option jsstring :=
  or_else s None.

(** The literals of the components, as UTF-16 code units: "unknown
    product", "appraisal result", "one of a kind", "not covered", "cannot
    be appraised", "use an image that shows only the product", and the
    four icons (gem, amphora, no entry, question mark). *)
Definition unknown_product : jsstring := [19981; 26126; 12394; 21830; 21697]%N.
Definition detail_title : jsstring := [26619; 23450; 32080; 26524]%N.
Definition unique_label : jsstring := [19968; 28857; 29289]%N.
Definition excluded_label : jsstring := [23550; 35937; 22806]%N.
Definition unappraisable_label : jsstring := [26619; 23450; 19981; 21487]%N.
Definition prohibited_default : jsstring :=
  [21830; 21697; 12398; 12415; 12364; 20889; 12387; 12383; 30011; 20687;
   12434; 20351; 29992; 12375; 12390; 12367; 12384; 12373; 12356]%N.
Definition gem : jsstring := [55357; 56462]%N.
Definition amphora : jsstring := [55356; 57338]%N.
Definition no_entry : jsstring := [9940]%N.
Definition question_mark : jsstring := [10067]%N.

(** [doc.vision?.category_type === 'prohibited'] *)
Definition vision_is_prohibited (doc : AppraisalDocument) : bool :=
  match option_map category_type (vision doc) with
  | Some cat_prohibited => true
  | _ => false
  end.

(** [doc.search?.identified_product] and [doc.vision?.item_name] *)
Definition search_identified_product (doc : AppraisalDocument) : option jsstring :=
  match search doc with Some s => identified_product s | None => None end.

Definition vision_item_name (doc : AppraisalDocument) : option jsstring :=
  match vision doc with Some v => item_name v | None => None end.

(** ** The history list *)

(** What [AppraisalHistory] renders: one of four states. The list state
    carries its records and, when there are more to load, the button with
    its [loading] flag. *)
Inductive View :=
| LoadingView
| ErrorView
| EmptyView
| ListView (items : list AppraisalDocument) (loadMoreButton : option bool).

Definition is_nil (A : Type) (l : list A) : bool :=
  match l with [] => true | _ => false end.

Definition AppraisalHistory (appraisals : list AppraisalDocument)
    (loading : bool) (error : option JSError) (hasMore : bool) : View :=
  if loading && is_nil appraisals then LoadingView
  else if present error then ErrorView
  else if is_nil appraisals then EmptyView
  else ListView appraisals (if hasMore then Some loading else None).

(** The list view of [HistoryPage]: the component over the cells of the
    hook. *)
Definition list_view (st : State) : View :=
  AppraisalHistory (appraisals st) (loading st) (error st) (hasMore st).

Section Locale.

(** [n.toLocaleString()] and [n.toLocaleString('ja-JP')], functions of the
    platform, and the date of a time stamp as
    [new Date(s).toLocaleDateString('ja-JP', options)] prints it. *)
Variable toLocaleString : number -> jsstring.
Variable toLocaleString_ja : number -> jsstring.
Variable toLocaleDateString : jsstring -> jsstring.

(** The name of a list entry, in [AppraisalHistoryItem]. *)
Definition item_displayName (appraisal : AppraisalDocument) : jsstring :=
  or_literal (or_else (search_identified_product appraisal)
                      (vision_item_name appraisal))
             unknown_product.

Definition getPriceDisplay (appraisal : AppraisalDocument) : jsstring :=
  match price appraisal with
  | Some p => [165%N] ++ toLocaleString (min_price p) ++ [12316%N]
  | None =>
      if search_is_unique appraisal then unique_label
      else if vision_is_prohibited appraisal then excluded_label
      else unappraisable_label
  end.

Definition getStatusIcon (appraisal : AppraisalDocument) : jsstring :=
  if present (price appraisal) then gem
  else if search_is_unique appraisal then amphora
  else if vision_is_prohibited appraisal then no_entry
  else question_mark.

Definition formatDate (dateStr : jsstring) : jsstring :=
  toLocaleDateString dateStr.

(** The thumbnail of a list entry: the image of the record, or, for a
    record without an image, its status icon. *)
Inductive Thumbnail :=
| Image (src alt : jsstring)
| Icon (statusIcon : jsstring).

(** What a list entry shows. *)
Record Entry := {
  thumbnail : Thumbnail;
  itemName : jsstring;
  itemDate : jsstring;
  itemPrice : jsstring;
}.

Definition AppraisalHistoryItem (appraisal : AppraisalDocument) : Entry :=
  let displayName := item_displayName appraisal in
  let priceDisplay := getPriceDisplay appraisal in
  let dateStr := formatDate (created_at appraisal) in
  let statusIcon := getStatusIcon appraisal in
  {| thumbnail :=
       match image_url appraisal with
       | Some (c :: src) => Image (c :: src) displayName
       | _ => Icon statusIcon
       end;
     itemName := displayName;
     itemDate := dateStr;
     itemPrice := priceDisplay |}.

(** ** The cards *)

Definition formatPrice (price : number) : jsstring :=
  [165%N] ++ toLocaleString_ja price.

Definition formatPriceRange (min max : number) : jsstring :=
  if (min =? max)%Z then formatPrice min
  else formatPrice min ++ [32; 12316; 32]%N ++ formatPrice max.

(** What a card shows, block by block; [None] or an empty list is a block
    that is not rendered. *)
Inductive Card :=
| MassProductCard (displayName : jsstring)
    (priceSection : option (jsstring * jsstring))
    (factors : list jsstring) (confidence : option ConfidenceInfo)
    (tags : list jsstring)
| UniqueItemCard (displayName : jsstring)
    (message recommendation : option jsstring)
    (confidence : option ConfidenceInfo) (tags : list jsstring)
| UnknownCard (message advice : option jsstring) (retryButton : bool)
| ProhibitedCard (message : jsstring) (retryButton : bool).

Definition MassProductResult (result : AnalyzeResponse) : Card :=
  MassProductCard
    (or_literal (or_else (ar_identified_product result) (ar_item_name result))
                unknown_product)
    (option_map (fun p => (formatPriceRange (pi_min_price p) (pi_max_price p),
                           pi_display_message p))
                (ar_price result))
    (nullish (ar_price_factors result) [])
    (ar_confidence result)
    (ar_visual_features result).

Definition UniqueItemResult (result : AnalyzeResponse) : Card :=
  UniqueItemCard
    (or_literal (ar_item_name result) unique_label)
    (shown (message result))
    (shown (recommendation result))
    (ar_confidence result)
    (ar_visual_features result).

Definition UnknownResult (result : AnalyzeResponse) (onRetry : bool) : Card :=
  UnknownCard (shown (message result)) (shown (ar_retry_advice result)) onRetry.

Definition ProhibitedResult (result : AnalyzeResponse) (onRetry : bool) : Card :=
  ProhibitedCard (or_literal (message result) prohibited_default) onRetry.

(** [AppraisalResult]: the card of the classification; [onRetry] tells
    whether the caller passed a retry handler. *)
Definition AppraisalResult (result : AnalyzeResponse) (onRetry : bool) : Card :=
  match classification result with
  | mass_product => MassProductResult result
  | unique_item => UniqueItemResult result
  | unknown => UnknownResult result onRetry
  | prohibited => ProhibitedResult result onRetry
  end.

(** The headline of the detail view of [HistoryPage]. *)
Definition detail_displayName (selectedAppraisal : AppraisalDocument) : jsstring :=
  or_literal (or_else (search_identified_product selectedAppraisal)
                      (vision_item_name selectedAppraisal))
             detail_title.

(** The card of the detail view of [HistoryPage], which passes no retry
    handler. *)
Definition detail_card (selectedAppraisal : AppraisalDocument) : Exc Card :=
  result <- toAnalyzeResponse selectedAppraisal ;;
  Ok (AppraisalResult result false).

(** X21. [getStatusIcon] and [getPriceDisplay] choose by the same four
    cases, and they go by the presence of a price result alone, whatever
    its status; [getStatusIcon] answers the gem exactly when the response
    rebuilt for the detail view carries a price. A list entry always
    shows the price text, which is the lower price for a record with a
    price result; it shows the icon only for a record without an image,
    so its thumbnail is the gem exactly when the record has a price
    result and no image. *)
Theorem list_icon_and_price_text_agree (doc : AppraisalDocument) :
  ((exists p, price doc = Some p /\
      getStatusIcon doc = gem /\
      getPriceDisplay doc = [165%N] ++ toLocaleString (min_price p) ++ [12316%N])
   \/ (price doc = None /\ search_is_unique doc = true /\
       getStatusIcon doc = amphora /\ getPriceDisplay doc = unique_label)
   \/ (price doc = None /\ search_is_unique doc = false /\
       vision_is_prohibited doc = true /\
       getStatusIcon doc = no_entry /\ getPriceDisplay doc = excluded_label)
   \/ (price doc = None /\ search_is_unique doc = false /\
       vision_is_prohibited doc = false /\
       getStatusIcon doc = question_mark /\
       getPriceDisplay doc = unappraisable_label))
  /\ (getStatusIcon doc = gem <->
      exists r, toAnalyzeResponse doc = Ok r /\ ar_price r <> None)
  /\ (forall p,
        price doc = Some p ->
        itemPrice (AppraisalHistoryItem doc)
        = [165%N] ++ toLocaleString (min_price p) ++ [12316%N])
  /\ (thumbnail (AppraisalHistoryItem doc) = Icon gem <->
      price doc <> None /\ or_else (image_url doc) None = None)
  /\ (forall icon,
        thumbnail (AppraisalHistoryItem doc) = Icon icon ->
        icon = getStatusIcon doc /\ or_else (image_url doc) None = None).
Proof.
  split; [|split; [|split; [|split]]].
  - unfold getStatusIcon, getPriceDisplay.
    destruct (price doc) as [p|]; cbn [present].
    + left. exists p. repeat split.
    + right. destruct (search_is_unique doc); [left; repeat split|right].
      destruct (vision_is_prohibited doc); [left|right]; repeat split.
  - unfold getStatusIcon, toAnalyzeResponse.
    destruct (price doc) as [p|]; cbn [present].
    + split; [intros _|reflexivity].
      destruct (vision doc) as [v|], (search doc) as [s|]; simpl;
        eexists; (split; [reflexivity|discriminate]).
    + split.
      * destruct (search_is_unique doc); [discriminate|].
        destruct (vision_is_prohibited doc); discriminate.
      * intros [r [Hr Hp]]. exfalso. apply Hp.
        destruct (vision doc) as [v|], (search doc) as [s|]; simpl in Hr;
          inversion Hr; reflexivity.
  - intros p Hp. unfold AppraisalHistoryItem, getPriceDisplay. cbn [itemPrice].
    rewrite Hp. reflexivity.
  - unfold AppraisalHistoryItem, getStatusIcon, or_else. cbn [thumbnail].
    destruct (image_url doc) as [[|c src]|];
      destruct (price doc) as [p|]; cbn [present];
      try (split; [discriminate|intros [H1 H2]; congruence]);
      try (split; [intros _; split; [discriminate|reflexivity]|reflexivity]);
      (split; [|intros [H _]; congruence]);
      destruct (search_is_unique doc); try discriminate;
      destruct (vision_is_prohibited doc); discriminate.
  - intros icon. unfold AppraisalHistoryItem, or_else. cbn [thumbnail].
    destruct (image_url doc) as [[|c src]|]; try discriminate;
      intros H; injection H as <-; split; reflexivity.
Qed.

(** X22. The card of the detail view of a stored record, in each of the
    four cases. A mass product is shown under the name of its list entry,
    with a price section exactly when the record has a price result, made
    of that result's two prices and message. A one-of-a-kind item is shown
    under the item name of the vision result and never with a message or
    a recommendation. An unknown item never has a message, and a
    prohibited one always has the default message. No card of the detail
    view has a retry button. *)
Theorem detail_card_of_a_record (doc : AppraisalDocument) (card : Card) :
  detail_card doc = Ok card ->
  match card with
  | MassProductCard name priceSection factors _ _ =>
      derive_classification doc = mass_product
      /\ name = item_displayName doc
      /\ priceSection
         = option_map (fun p => (formatPriceRange (min_price p) (max_price p),
                                 display_message p))
                      (price doc)
  | UniqueItemCard name message recommendation _ _ =>
      derive_classification doc = unique_item
      /\ name = or_literal (vision_item_name doc) unique_label
      /\ message = None /\ recommendation = None
  | UnknownCard message advice retryButton =>
      termination_point doc = vision_unknown
      /\ message = None
      /\ advice = shown (match vision doc with
                         | Some v => retry_advice v
                         | None => None
                         end)
      /\ retryButton = false
  | ProhibitedCard message retryButton =>
      termination_point doc = vision_prohibited
      /\ message = prohibited_default
      /\ retryButton = false
  end.
Proof.
  unfold detail_card, toAnalyzeResponse, AppraisalResult, item_displayName,
    search_identified_product, vision_item_name.
  destruct (price doc) as [p|], (vision doc) as [v|], (search doc) as [s|];
    cbn [present deref bind nullish_lazy option_map classification];
    unfold derive_classification;
    destruct (termination_point doc); cbn [TerminationPoint_eqb];
    try (destruct (search_is_unique doc));
    intros H; inversion H; subst; clear H; repeat split.
Qed.

End Locale.

(** A number format that writes the decimal digits without separators
    and a date format that prints the time stamp as it is; the instances
    below do not depend on the formats. *)
Definition plain_digits : number -> jsstring := decimal.

Definition plain_dates : jsstring -> jsstring := fun dateStr => dateStr.

(** X21, an instance: a record with a price result and an image shows the
    image, not the gem, and beside it the lower price. *)
Lemma priced_record_with_image_shows_no_icon :
  let doc := ReconstructionFacts.priced_record in
  exists p src alt,
    price doc = Some p /\
    thumbnail (AppraisalHistoryItem plain_digits plain_dates doc) = Image src alt /\
    getStatusIcon doc = gem /\
    itemPrice (AppraisalHistoryItem plain_digits plain_dates doc)
    = [165%N] ++ plain_digits (min_price p) ++ [12316%N].
Proof.
  cbv zeta.
  pose proof (@list_icon_and_price_text_agree plain_digits plain_dates
                ReconstructionFacts.priced_record) as [_ [_ [Hprice _]]].
  do 3 eexists.
  split; [reflexivity|]. split; [reflexivity|]. split; [reflexivity|].
  apply Hprice. reflexivity.
Defined.


(** X22, an instance: the record of a failed price lookup is shown as a
    mass product with the prices of the failed lookup. *)
Lemma failed_price_record_is_shown_with_a_price :
  exists name priceSection factors confidence tags,
    detail_card plain_digits RecordBuilder.failed_price_record
    = Ok (MassProductCard name priceSection factors confidence tags) /\
    name = item_displayName RecordBuilder.failed_price_record /\
    priceSection <> None.
Proof.
  do 5 eexists.
  split; [reflexivity|].
  pose proof (@detail_card_of_a_record plain_digits
                RecordBuilder.failed_price_record _ eq_refl) as [_ [Hname Hprice]].
  split; [exact Hname|rewrite Hprice; discriminate].
Defined.

(** X19. A request that fails hides the records the hook holds: after a
    [loadMore] that was rejected the list view is the error state, though
    the records are still in the hook; after a [refresh] that is answered
    it is the list of the page received, or the empty state. *)
Theorem failed_request_hides_the_loaded_records
    (limit : Z) (u : User) (t : Thrown) (data : AppraisalHistoryResponse)
    (st : State) :
  loading st = false ->
  hasMore st = true ->
  let failed := fst (loadMore limit (Some u) (Rejects t) st) in
  let refreshed := fst (refresh limit (Some u) (Resolves data) failed) in
  list_view failed = ErrorView
  /\ appraisals failed = appraisals st
  /\ list_view refreshed
     = match nullish (r_appraisals data) [] with
       | [] => EmptyView
       | page =>
           ListView page
             (if (Z.of_nat (List.length page) <? nullish (r_total data) 0)%Z
              then Some false else None)
       end.
Proof.
  intros Hl Hm. unfold hasMore in Hm.
  assert (Hge : (Z.of_nat (List.length (appraisals st)) >=? total st)%Z = false).
  { apply Z.ltb_lt in Hm.
    destruct (Z.geb_spec (Z.of_nat (List.length (appraisals st))) (total st));
      [lia|reflexivity]. }
  cbv zeta. unfold loadMore. rewrite Hl, Hge. cbn [orb fetchHistory fst].
  split; [|split; [reflexivity|]].
  - unfold list_view, AppraisalHistory. cbn [loading error andb present].
    reflexivity.
  - unfold list_view, AppraisalHistory, refresh, hasMore.
    cbn [fetchHistory fst loading error appraisals total andb present].
    destruct (nullish (r_appraisals data) []); reflexivity.
Qed.

(** X19, an instance: the second page fails and the first record is no
    longer listed. *)
Lemma failed_second_page_shows_the_error_state :
  let failure :=
    ThrownError (PlatformError (units "TypeError") (units "Failed to fetch")) in
  list_view one_of_three
  = ListView [RecordBuilder.priceless_record] (Some false) /\
  list_view (fst (loadMore 20 (Some some_user) (Rejects failure) one_of_three))
  = ErrorView /\
  appraisals (fst (loadMore 20 (Some some_user) (Rejects failure) one_of_three))
  = [RecordBuilder.priceless_record].
Proof.
  cbv zeta.
  pose proof (@failed_request_hides_the_loaded_records 20 some_user
                (ThrownError (PlatformError (units "TypeError")
                                (units "Failed to fetch")))
                next_page one_of_three eq_refl eq_refl) as [Hview [Happ _]].
  split; [reflexivity|]. split; [exact Hview|exact Happ].
Defined.

(** X20. The list state is rendered only without an error and with at
    least one record, and it shows the records of the hook. Its button
    for more is there, and not in its loading form, exactly when
    [loadMore] would ask the server; when the button is missing
    [loadMore] does nothing. *)
Theorem load_more_button_matches_the_guard
    (limit : Z) (u : User) (answer : Answer) (st : State)
    (items : list AppraisalDocument) (button : option bool) :
  list_view st = ListView items button ->
  items = appraisals st
  /\ items <> []
  /\ error st = None
  /\ (button = Some false <-> snd (loadMore limit (Some u) answer st) <> [])
  /\ (button = None -> loadMore limit (Some u) answer st = (st, [])).
Proof.
  unfold list_view, AppraisalHistory, loadMore, hasMore.
  remember (Z.of_nat (List.length (appraisals st))) as n eqn:Hn. clear Hn.
  destruct (appraisals st) as [|a l] eqn:Ha.
  - cbn [is_nil]. rewrite andb_true_r.
    destruct (loading st); [discriminate|].
    destruct (error st); discriminate.
  - cbn [is_nil]. rewrite andb_false_r.
    destruct (error st) as [e|] eqn:He; cbn [present]; [discriminate|].
    intros H. injection H as <- <-.
    split; [reflexivity|]. split; [discriminate|]. split; [reflexivity|].
    destruct (Z.ltb_spec n (total st)) as [Hlt|Hge];
      destruct (Z.geb_spec n (total st)); try lia.
    + rewrite orb_false_r. destruct (loading st); cbn [fetchHistory].
      * split; [split; [discriminate|intros Hn; exfalso; apply Hn; reflexivity]
               |discriminate].
      * split; [split; [intros _|reflexivity]|discriminate].
        unfold fetchHistory. destruct answer; discriminate.
    + rewrite orb_true_r.
      split; [split; [discriminate|intros Hn; exfalso; apply Hn; reflexivity]
             |reflexivity].
Qed.

(** X20, an instance: one record out of three, the button is there and
    [loadMore] asks for the second page. *)
Lemma button_and_request_for_the_second_page :
  list_view one_of_three
  = ListView [RecordBuilder.priceless_record] (Some false) /\
  snd (loadMore 20 (Some some_user) (Resolves next_page) one_of_three) <> [].
Proof.
  split; [reflexivity|].
  apply (@load_more_button_matches_the_guard 20 some_user (Resolves next_page)
           one_of_three [RecordBuilder.priceless_record] (Some false) eq_refl).
  reflexivity.
Defined.

End HistoryView.

(* ===================================================================== *)
(** * Further properties of the image picker *)
(* ===================================================================== *)

Module ImagePickerFacts.
Import JS ImagePicker.

(** The cells of the component: the drag highlight beside those that
    [processFile] writes. *)
Record Picker := {
  isDragging : bool;
  cells : State;
}.

Definition handleDragOver (disabled : bool) (p : Picker) : Picker :=
  {| isDragging := if negb disabled then true else isDragging p;
     cells := cells p |}.

Definition handleDragLeave (p : Picker) : Picker :=
  {| isDragging := false; cells := cells p |}.

(** [handleDrop]; [files] is [e.dataTransfer.files]. *)
Definition handleDrop (disabled : bool) (files : list File) (read : ReadOutcome)
    (p : Picker) : Picker * list jsstring :=
  if disabled then ({| isDragging := false; cells := cells p |}, [])
  else
    match files with
    | file :: _ =>
        let (st, calls) := processFile file read (cells p) in
        ({| isDragging := false; cells := st |}, calls)
    | [] => ({| isDragging := false; cells := cells p |}, [])
    end.

(** [handleFileChange]; [files] is [e.target.files], which may be null. *)
Definition handleFileChange (files : option (list File)) (read : ReadOutcome)
    (p : Picker) : Picker * list jsstring :=
  match files with
  | Some (file :: _) =>
      let (st, calls) := processFile file read (cells p) in
      ({| isDragging := isDragging p; cells := st |}, calls)
  | _ => (p, [])
  end.

Definition handleClear (p : Picker) : Picker :=
  {| isDragging := isDragging p;
     cells := {| preview := None; error := None |} |}.

(** X23. A file that fails a check is refused before it is read: the
    outcome does not depend on the reader, the preview stays as it was
    and nothing is submitted. The type is checked first: a file of a
    wrong type gets the message about the type even when it is too large
    as well, and a file of a right type that is too large the message
    about the size. *)
Theorem refused_file_is_not_read
    (file : File) (read1 read2 : ReadOutcome) (st : State) :
  ~ In (type file) VALID_TYPES \/ (size file > MAX_SIZE)%Z ->
  processFile file read1 st = processFile file read2 st
  /\ preview (fst (processFile file read1 st)) = preview st
  /\ snd (processFile file read1 st) = []
  /\ (~ In (type file) VALID_TYPES ->
      error (fst (processFile file read1 st)) = Some type_message)
  /\ (In (type file) VALID_TYPES ->
      error (fst (processFile file read1 st)) = Some size_message).
Proof.
  intros H. unfold processFile.
  destruct (includes VALID_TYPES (type file)) eqn:Hi; cbn [negb].
  - apply includes_In in Hi.
    destruct H as [H|H]; [contradiction|].
    destruct (Z.gtb_spec (size file) MAX_SIZE) as [Hgt|Hle]; [|lia].
    repeat split. intros Hn. contradiction.
  - assert (Hn : ~ In (type file) VALID_TYPES).
    { intros Hin. apply includes_In in Hin. congruence. }
    repeat split. intros Hin. contradiction.
Qed.

(** X23, an instance: a text file of 20 MB is refused for its type, with
    the preview of the image chosen before still in place. *)
Lemma large_text_file_is_refused_for_its_type :
  let file := {| type := units "text/plain"; size := 20971520 |} in
  let st := {| preview := Some (units "data:image/png;base64,AAAA");
               error := None |} in
  (size file > MAX_SIZE)%Z /\
  processFile file (Loaded (units "data:text/plain;base64,AAAA")) st
  = processFile file Failed st /\
  preview (fst (processFile file Failed st))
  = Some (units "data:image/png;base64,AAAA") /\
  error (fst (processFile file Failed st)) = Some type_message.
Proof.
  cbv zeta.
  assert (Hn : ~ In (units "text/plain") VALID_TYPES).
  { intros Hin. apply includes_In in Hin. discriminate. }
  pose proof (@refused_file_is_not_read
                {| type := units "text/plain"; size := 20971520 |}
                Failed (Loaded (units "data:text/plain;base64,AAAA"))
                {| preview := Some (units "data:image/png;base64,AAAA");
                   error := None |}
                (or_introl Hn))
    as [Hsame [Hpreview [_ [Htype _]]]].
  split; [reflexivity|].
  split; [symmetry; exact Hsame|].
  split; [exact Hpreview|exact (Htype Hn)].
Defined.

(** X24. A drop submits at most one image, however many files are
    dropped: that of the first file, and only when the picker is enabled,
    the file passes both checks and its read succeeds. A disabled picker
    leaves its preview and its error as they are. Every drop ends the
    drag highlight, which a disabled picker does not start. *)
Theorem drop_submits_at_most_the_first_file
    (disabled : bool) (files : list File) (read : ReadOutcome) (p : Picker) :
  (List.length (snd (handleDrop disabled files read p)) <= 1)%nat
  /\ isDragging (fst (handleDrop disabled files read p)) = false
  /\ (snd (handleDrop disabled files read p) <> [] ->
      disabled = false /\
      exists file rest base64,
        files = file :: rest /\ read = Loaded base64 /\
        snd (handleDrop disabled files read p) = [base64] /\
        preview (cells (fst (handleDrop disabled files read p))) = Some base64 /\
        In (type file) VALID_TYPES /\ (size file <= MAX_SIZE)%Z)
  /\ (disabled = true ->
      cells (fst (handleDrop disabled files read p)) = cells p /\
      handleDragOver disabled p = p).
Proof.
  unfold handleDrop, handleDragOver.
  destruct disabled; cbn [negb].
  - split; [simpl; lia|]. split; [reflexivity|].
    split; [intros H; exfalso; apply H; reflexivity|].
    intros _. split; [reflexivity|]. destruct p; reflexivity.
  - destruct files as [|file rest].
    + split; [simpl; lia|]. split; [reflexivity|].
      split; [intros H; exfalso; apply H; reflexivity|discriminate].
    + unfold processFile.
      destruct (includes VALID_TYPES (type file)) eqn:Hi; cbn [negb].
      * apply includes_In in Hi.
        destruct (Z.gtb_spec (size file) MAX_SIZE) as [Hgt|Hle].
        { split; [simpl; lia|]. split; [reflexivity|].
          split; [intros H; exfalso; apply H; reflexivity|discriminate]. }
        destruct read as [base64|].
        { split; [simpl; lia|]. split; [reflexivity|].
          split; [|discriminate].
          intros _. split; [reflexivity|].
          exists file, rest, base64. repeat split; assumption. }
        { split; [simpl; lia|]. split; [reflexivity|].
          split; [intros H; exfalso; apply H; reflexivity|discriminate]. }
      * split; [simpl; lia|]. split; [reflexivity|].
        split; [intros H; exfalso; apply H; reflexivity|discriminate].
Qed.

(** X24, an instance: two files dropped, the first one submitted. *)
Lemma first_of_two_dropped_files :
  let png := {| type := units "image/png"; size := 1024 |} in
  let webp := {| type := units "image/webp"; size := 2048 |} in
  let p := {| isDragging := true;
              cells := {| preview := None; error := None |} |} in
  let dropped :=
    handleDrop false [png; webp] (Loaded (units "data:image/png;base64,AAAA")) p in
  snd dropped = [units "data:image/png;base64,AAAA"] /\
  (exists file rest, [png; webp] = file :: rest /\ In (type file) VALID_TYPES) /\
  snd (handleDrop true [png; webp]
         (Loaded (units "data:image/png;base64,AAAA")) p) = [].
Proof.
  cbv zeta.
  pose proof (@drop_submits_at_most_the_first_file false
                [{| type := units "image/png"; size := 1024 |};
                 {| type := units "image/webp"; size := 2048 |}]
                (Loaded (units "data:image/png;base64,AAAA"))
                {| isDragging := true;
                   cells := {| preview := None; error := None |} |})
    as [_ [_ [Hsub _]]].
  destruct Hsub as [_ [file [rest [base64 [Hfiles [_ [Hcalls [_ [Hin _]]]]]]]]];
    [discriminate|].
  split; [reflexivity|].
  split; [exists file, rest; split; assumption|reflexivity].
Defined.

End ImagePickerFacts.

(* ===================================================================== *)
(** * pages/AppraisalPage : the sections the page returns *)
(* ===================================================================== *)

Module AppraisalPage.
Import JS Json Streaming UseStreamingAnalysis.

(** [String(v)] is the empty string, for a value that has a string form:
    the message of [new Error(v)]. An array is joined with commas, its
    [null] items as empty strings. *)
Fixpoint string_is_empty (v : JSON) : bool :=
  match v with
  | JString s => is_empty s
  | JArray [] => true
  | JArray [JNull] => true
  | JArray [item] => string_is_empty item
  | _ => false
  end.

(** The elements [AppraisalPage] puts into its sections, with the props it
    hands them. The page function builds these elements and returns; the
    components behind them are called by React afterwards and are not
    part of it (a component that throws while it renders takes the page
    down with it, as there is no error boundary). *)
Inductive Element :=
| PickerSection (disabled : bool)
| ProgressSection (isLoading : bool) (thinkingEvents : list JSON)
| ErrorSection (error : Message)
| ResultSection (result : JSON)
| NewAppraisalSection.

(** One [{condition && <section>...</section>}] of the page: the section,
    or the falsy value the condition leaves in its place ([false],
    [null] or [undefined] as [None], the empty string, a zero), of which
    React renders nothing but the digit of a zero. *)
Inductive Slot :=
| Section (e : Element)
| Leftover (v : option JSON).

Inductive Page :=
| Preparing
| Appraisal (slots : list Slot).

Section Engine.

(** The text the engine gives the [TypeError] it raises. *)
Variable TypeError_message : jsstring.

(** [!!error] for the text in the hook's error cell; the message of
    [new Error()] without an argument is the empty string. *)
Definition message_is_empty (m : Message) : bool :=
  match m with
  | MessageOf None => true
  | MessageOf (Some v) => string_is_empty v
  | MessageText s => is_empty s
  | EngineText => is_empty TypeError_message
  end.

(** [error && ...] *)
Definition error_slot (st : State) : Slot :=
  match error st with
  | None => Leftover None
  | Some m =>
      if message_is_empty m then Leftover (Some (JString []))
      else Section (ErrorSection m)
  end.

(** [result && e] *)
Definition result_slot (st : State) (e : JSON -> Element) : Slot :=
  match result st with
  | None => Leftover None
  | Some v => if truthy v then Section (e v) else Leftover (Some v)
  end.

(** [!!result] *)
Definition has_result (st : State) : bool :=
  match result st with
  | Some v => truthy v
  | None => false
  end.

(** [thinkingEvents.length > 0] *)
Definition has_events (events : list JSON) : bool :=
  (0 <? Z.of_nat (List.length events))%Z.

Definition AppraisalPage (authReady : bool) (st : State) : Page :=
  if negb authReady then Preparing
  else
    Appraisal
      [ if negb (has_result st) && negb (isLoading st)
        then Section (PickerSection (isLoading st))
        else Leftover (Some (JBool false));
        if isLoading st || has_events (thinkingEvents st)
        then Section (ProgressSection (isLoading st) (thinkingEvents st))
        else Leftover (Some (JBool false));
        error_slot st;
        result_slot st ResultSection;
        result_slot st (fun _ => NewAppraisalSection) ].

(** [handleImageSelect] and [handleRetry] *)
Definition handleImageSelect (controller : nat) (base64 : jsstring) (st : State)
    : State * list Effect :=
  submitImage controller base64 st.

Definition handleRetry (st : State) : State * list Effect :=
  reset st.

(** The state of the hook once a run started by [handleImageSelect] has
    delivered the callbacks of its response. *)
Definition after_run (JSON_parse : jsstring -> option JSON) (r : Response)
    (controller : nat) (base64 : jsstring) (st : State) : State :=
  deliver (fetchStream JSON_parse r)
          (fst (handleImageSelect controller base64 st)).

(** What a terminal callback writes. *)
Definition settle (st : State) (c : Callback) : State :=
  if is_terminal c then handle st c else st.

Lemma settle_result_error (l : list Callback) (st1 st2 : State) :
  result st1 = result st2 -> error st1 = error st2 ->
  result (fold_left settle l st1) = result (fold_left settle l st2)
  /\ error (fold_left settle l st1) = error (fold_left settle l st2).
Proof.
  revert st1 st2. induction l as [|c l IH]; intros st1 st2 H1 H2;
    [split; assumption|].
  cbn [fold_left]. apply IH; unfold settle;
    destruct c; cbn [is_terminal handle result error]; congruence.
Qed.

(** The result and the error the hook ends with are written by the
    terminal callbacks alone. *)
Lemma deliver_result_error (calls : list Callback) (st : State) :
  result (deliver calls st)
  = result (fold_left settle (filter is_terminal calls) st)
  /\ error (deliver calls st)
     = error (fold_left settle (filter is_terminal calls) st).
Proof.
  unfold deliver. revert st.
  induction calls as [|c calls IH]; intros st; [split; reflexivity|].
  cbn [fold_left filter].
  destruct c as [event|response|err]; cbn [is_terminal fold_left];
    [|apply IH|apply IH].
  destruct (IH (handle st (onThinking event))) as [Hr He].
  rewrite Hr, He. apply settle_result_error; reflexivity.
Qed.

(** X25. A response without a terminal signal leaves the page waiting
    with nothing to press: once a stream has ended with no [complete] and
    no [error] event, the page returns the progress section, still
    loading and with the thinking events of the stream, and in the place
    of the picker, of the error box with its retry link and of the result
    with its button for a new appraisal it returns nothing. *)
Theorem run_without_terminal_signal_leaves_the_page_waiting
    (JSON_parse : jsstring -> option JSON) (r : Response)
    (controller : nat) (base64 : jsstring) (st : State) :
  terminal_signals JSON_parse r = 0%nat ->
  AppraisalPage true (after_run JSON_parse r controller base64 st)
  = Appraisal
      [ Leftover (Some (JBool false));
        Section (ProgressSection true
                   (filter is_thinking_event (stream_events JSON_parse r)));
        Leftover None;
        Leftover None;
        Leftover None ].
Proof.
  intros H.
  assert (Hex : existsb is_terminal (fetchStream JSON_parse r) = false)
    by (rewrite has_terminal_callback, H; reflexivity).
  assert (Hnil : filter is_terminal (fetchStream JSON_parse r) = [])
    by (apply existsb_nil_iff; exact Hex).
  assert (Hev : filter is_terminal_event (stream_events JSON_parse r) = []).
  { unfold terminal_signals in H.
    destruct (filter is_terminal_event (stream_events JSON_parse r));
      [reflexivity|discriminate]. }
  assert (Hraise : existsb raises (stream_events JSON_parse r) = false).
  { apply existsb_nil_iff.
    induction (stream_events JSON_parse r) as [|e es IH]; [reflexivity|].
    cbn [filter] in Hev |- *.
    destruct (dispatch_cases e) as [C|[C|[C|[C|C]]]];
      decompose [and] C; clear C;
      match goal with
      | Ht : is_terminal_event e = _ |- _ => rewrite Ht in Hev
      end; try discriminate;
      match goal with
      | Hr : raises e = _ |- _ => rewrite Hr
      end; auto. }
  unfold AppraisalPage, after_run, handleImageSelect, has_result, error_slot,
    result_slot.
  destruct (deliver_result_error (fetchStream JSON_parse r)
              (fst (submitImage controller base64 st))) as [Hr He].
  rewrite Hr, He, StreamingFacts.deliver_isLoading,
    StreamingFacts.deliver_thinkingEvents, Hex, Hnil.
  cbn [fold_left submitImage reset fst thinkingEvents result error isLoading
       app negb andb orb].
  rewrite fetchStream_events, thinking_of_callbacks, reached_all by exact Hraise.
  reflexivity.
Qed.

End Engine.

(** A stream of progress events that the server closes without a
    [complete] event. *)
Definition unfinished_stream : Response :=
  Body [wire "data: {'type':'node_start','node':'vision','message':'a','timestamp':1}";
        [10; 10]%N;
        wire "data: {'type':'thinking','node':'vision','message':'b','timestamp':2}";
        [10; 10]%N]
       Done.

(** A text for the [TypeError] of the engine; the instances below do not
    depend on it. *)
Definition sample_TypeError_message : jsstring := units "TypeError".

(** X25, an instance: the server closes the stream after two progress
    events. *)
Lemma closed_stream_keeps_the_page_waiting :
  terminal_signals JSON_parse_model unfinished_stream = 0%nat /\
  List.length (fetchStream JSON_parse_model unfinished_stream) = 2%nat /\
  AppraisalPage sample_TypeError_message true
    (after_run JSON_parse_model unfinished_stream 1 (units "data:image/png;base64,AAAA")
               initial)
  = Appraisal
      [ Leftover (Some (JBool false));
        Section (ProgressSection true
                   (filter is_thinking_event
                      (stream_events JSON_parse_model unfinished_stream)));
        Leftover None;
        Leftover None;
        Leftover None ].
Proof.
  split; [vm_compute; reflexivity|].
  split; [vm_compute; reflexivity|].
  apply run_without_terminal_signal_leaves_the_page_waiting.
  vm_compute. reflexivity.
Defined.

Section Runs.

Variable TypeError_message : jsstring.
Variable JSON_parse : jsstring -> option JSON.

(** X26. The page after a run with exactly one terminal callback. For
    [onComplete] with a result that is not falsy it returns the result
    section and the button for a new appraisal, and no picker; for
    [onError] with a message that is not empty it returns the picker and
    the error box; and for a [complete] event without a result, or with a
    falsy one, as for an error with an empty message, it returns the
    picker again with neither a result nor an error. The progress section
    is returned, no longer loading, exactly when the run handed events to
    [onThinking]. *)
Theorem page_after_one_terminal_callback
    (r : Response) (controller : nat) (base64 : jsstring) (st : State)
    (c : Callback) :
  filter is_terminal (fetchStream JSON_parse r) = [c] ->
  let events := thinking_of (fetchStream JSON_parse r) in
  let shows_result :=
    match c with
    | onComplete (Some v) => truthy v
    | _ => false
    end in
  AppraisalPage TypeError_message true
    (after_run JSON_parse r controller base64 st)
  = Appraisal
      [ if shows_result then Leftover (Some (JBool false))
        else Section (PickerSection false);
        if has_events events then Section (ProgressSection false events)
        else Leftover (Some (JBool false));
        match c with
        | onError err =>
            if message_is_empty TypeError_message (error_message err)
            then Leftover (Some (JString []))
            else Section (ErrorSection (error_message err))
        | _ => Leftover None
        end;
        match c with
        | onComplete (Some v) =>
            if truthy v then Section (ResultSection v) else Leftover (Some v)
        | _ => Leftover None
        end;
        match c with
        | onComplete (Some v) =>
            if truthy v then Section NewAppraisalSection else Leftover (Some v)
        | _ => Leftover None
        end ].
Proof.
  intros H.
  assert (Ht : is_terminal c = true).
  { assert (Hin : In c (filter is_terminal (fetchStream JSON_parse r)))
      by (rewrite H; left; reflexivity).
    apply filter_In in Hin. tauto. }
  assert (Hex : existsb is_terminal (fetchStream JSON_parse r) = true).
  { destruct (existsb is_terminal (fetchStream JSON_parse r)) eqn:E;
      [reflexivity|].
    apply existsb_nil_iff in E. congruence. }
  cbv zeta.
  unfold AppraisalPage, after_run, handleImageSelect, has_result, error_slot,
    result_slot.
  destruct (deliver_result_error (fetchStream JSON_parse r)
              (fst (submitImage controller base64 st))) as [Hr He].
  rewrite Hr, He, StreamingFacts.deliver_isLoading,
    StreamingFacts.deliver_thinkingEvents, Hex, H.
  cbn [fold_left submitImage reset fst thinkingEvents app negb orb].
  unfold settle. rewrite Ht, andb_true_r.
  destruct c as [event|[v|]|err]; try discriminate;
    cbn [handle result error negb];
    try destruct (truthy v); reflexivity.
Qed.

(** X27. A failure after the [complete] event puts the error box beside
    the result: when the terminal callbacks of a run are an [onComplete]
    with a result that is not falsy followed by an [onError] with a
    message that is not empty, the page returns the error box, the result
    section and the button for a new appraisal together, and no picker. *)
Theorem failure_after_complete_shows_result_and_error
    (r : Response) (controller : nat) (base64 : jsstring) (st : State)
    (v : JSON) (err : JSError) :
  filter is_terminal (fetchStream JSON_parse r)
  = [onComplete (Some v); onError err] ->
  truthy v = true ->
  message_is_empty TypeError_message (error_message err) = false ->
  exists progress,
    AppraisalPage TypeError_message true
      (after_run JSON_parse r controller base64 st)
    = Appraisal
        [ Leftover (Some (JBool false));
          progress;
          Section (ErrorSection (error_message err));
          Section (ResultSection v);
          Section NewAppraisalSection ].
Proof.
  intros H Hres Herr.
  unfold AppraisalPage, after_run, handleImageSelect, has_result, error_slot,
    result_slot.
  destruct (deliver_result_error (fetchStream JSON_parse r)
              (fst (submitImage controller base64 st))) as [Hr He].
  rewrite Hr, He, H.
  cbn [fold_left settle is_terminal handle result error negb andb].
  rewrite Hres, Herr. cbn [negb andb].
  eexists. reflexivity.
Qed.

End Runs.

(** A stream whose [complete] event has no result. *)
Definition complete_without_result : Response :=
  Body [wire "data: {'type':'thinking','node':'vision','message':'b','timestamp':2}";
        [10; 10]%N;
        wire "data: {'type':'complete','timestamp':3}";
        [10; 10]%N]
       Done.

(** X26, an instance: after a [complete] event without a result the page
    returns the picker and the progress section, and neither a result nor
    an error. *)
Lemma complete_without_result_shows_the_picker :
  filter is_terminal (fetchStream JSON_parse_model complete_without_result)
  = [onComplete None] /\
  exists events,
    AppraisalPage sample_TypeError_message true
      (after_run JSON_parse_model complete_without_result 1
                 (units "data:image/png;base64,AAAA") initial)
    = Appraisal
        [ Section (PickerSection false);
          Section (ProgressSection false events);
          Leftover None;
          Leftover None;
          Leftover None ].
Proof.
  split; [vm_compute; reflexivity|].
  rewrite (@page_after_one_terminal_callback sample_TypeError_message
             JSON_parse_model complete_without_result 1
             (units "data:image/png;base64,AAAA") initial (onComplete None));
    [|vm_compute; reflexivity].
  eexists. vm_compute. reflexivity.
Defined.

(** X27, an instance: the connection is lost after the [complete]
    event. *)
Lemma lost_connection_after_complete_shows_both :
  filter is_terminal (fetchStream JSON_parse_model connection_lost_after_complete)
  = [onComplete (Some (JObject []));
     onError (PlatformError (units "TypeError") (units "network error"))] /\
  exists progress,
    AppraisalPage sample_TypeError_message true
      (after_run JSON_parse_model connection_lost_after_complete 1
                 (units "data:image/png;base64,AAAA") initial)
    = Appraisal
        [ Leftover (Some (JBool false));
          progress;
          Section (ErrorSection (MessageText (units "network error")));
          Section (ResultSection (JObject []));
          Section NewAppraisalSection ].
Proof.
  split; [vm_compute; reflexivity|].
  apply (@failure_after_complete_shows_result_and_error sample_TypeError_message
           JSON_parse_model connection_lost_after_complete 1
           (units "data:image/png;base64,AAAA") initial (JObject [])
           (PlatformError (units "TypeError") (units "network error")));
    vm_compute; reflexivity.
Defined.

End AppraisalPage.
